(** * img2webp: a shallow embedding of the batch conversion engine

    The development follows [src/converter.py] (workers, classifiers and
    name resolvers) and the batch-building loops of [src/ui/main_window.py].

    - Python [str] values are lists of Unicode code points, [bytes] values
      are lists of [Byte.byte].
    - Python [float] values are the exact rational value of the binary64
      number; every arithmetic operation is the exact operation followed by
      rounding to the nearest binary64 value, ties to even
      ([binary64_matches_hardware] compares the rounding with the
      primitive floats on the computations met here).
    - Calls that leave the program (FFmpeg, the file system, PIL) go through
      a [Runtime] record of state-passing functions that answer with a value
      or with a raised exception.
    - The signals a worker emits and its writes to [self.results] are
      appended to a log, in program order. *)

From Stdlib Require Import ZArith NArith QArith Qround Qpower Lqa Lia String Ascii.
From Stdlib Require Uint63 Floats.
From stdpp Require Import base option list sorting gmap strings pretty.

Local Open Scope Z_scope.
Close Scope Q_scope.

(* ===================================================================== *)
(** ** Python strings *)
(* ===================================================================== *)

Module PyStr.

(** A [str] is a sequence of code points. *)
Abbreviation str := (list N).

(** [errors=] argument of [bytes.decode]. *)
Inductive errors := strict | ignore.

Definition is_continuation (b : N) : bool := ((128 <=? b) && (b <=? 191))%N.

(** Second byte of a three-byte sequence: E0 needs A0..BF, ED needs 80..9F. *)
Definition second_of_three (b0 b1 : N) : bool :=
  (is_continuation b1
   && (if b0 =? 224 then 160 <=? b1 else true)
   && (if b0 =? 237 then b1 <=? 159 else true))%N.

(** Second byte of a four-byte sequence: F0 needs 90..BF, F4 needs 80..8F. *)
Definition second_of_four (b0 b1 : N) : bool :=
  (is_continuation b1
   && (if b0 =? 240 then 144 <=? b1 else true)
   && (if b0 =? 244 then b1 <=? 143 else true))%N.

Definition cp2 (b0 b1 : N) : N := ((b0 - 192) * 64 + (b1 - 128))%N.
Definition cp3 (b0 b1 b2 : N) : N :=
  ((b0 - 224) * 4096 + (b1 - 128) * 64 + (b2 - 128))%N.
Definition cp4 (b0 b1 b2 b3 : N) : N :=
  ((b0 - 240) * 262144 + (b1 - 128) * 4096 + (b2 - 128) * 64 + (b3 - 128))%N.

(** What the decoder does at an undecodable position: [strict] raises
    [UnicodeDecodeError] (here [None]); [ignore] drops the offending bytes
    and goes on with [k]. *)
Definition on_error (e : errors) (k : option str) : option str :=
  match e with
  | strict => None
  | ignore => k
  end.

(** [bytes.decode('utf-8', errors=e)], on byte values. An invalid start
    byte is one offending byte; an invalid continuation byte ends the
    offending run just before it; a sequence cut by the end of the data
    is offending up to the end. *)
Fixpoint utf8_decode (e : errors) (bs : list N) : option str :=
  match bs with
  | [] => Some []
  | b0 :: r0 =>
    if (b0 <? 128)%N then cons b0 <$> utf8_decode e r0
    else if ((b0 <? 194) || (244 <? b0))%N then on_error e (utf8_decode e r0)
    else if (b0 <? 224)%N then
      match r0 with
      | [] => on_error e (Some [])
      | b1 :: r1 =>
        if is_continuation b1 then cons (cp2 b0 b1) <$> utf8_decode e r1
        else on_error e (utf8_decode e r0)
      end
    else if (b0 <? 240)%N then
      match r0 with
      | [] => on_error e (Some [])
      | b1 :: r1 =>
        if negb (second_of_three b0 b1) then on_error e (utf8_decode e r0)
        else
          match r1 with
          | [] => on_error e (Some [])
          | b2 :: r2 =>
            if is_continuation b2 then cons (cp3 b0 b1 b2) <$> utf8_decode e r2
            else on_error e (utf8_decode e r1)
          end
      end
    else
      match r0 with
      | [] => on_error e (Some [])
      | b1 :: r1 =>
        if negb (second_of_four b0 b1) then on_error e (utf8_decode e r0)
        else
          match r1 with
          | [] => on_error e (Some [])
          | b2 :: r2 =>
            if negb (is_continuation b2) then on_error e (utf8_decode e r1)
            else
              match r2 with
              | [] => on_error e (Some [])
              | b3 :: r3 =>
                if is_continuation b3
                then cons (cp4 b0 b1 b2 b3) <$> utf8_decode e r3
                else on_error e (utf8_decode e r2)
              end
          end
      end
  end.

(** [b.decode('utf-8', errors=e)] for a [bytes] object. *)
Definition decode (e : errors) (b : list Byte.byte) : option str :=
  utf8_decode e (Byte.to_N <$> b).

(** A string literal of the source file (the file is UTF-8). *)
Definition py (s : string) : str :=
  default [] (utf8_decode ignore (N_of_ascii <$> list_ascii_of_string s)).

(** [s.lower()] on the ASCII letters; other code points are kept. *)
Definition lower_char (c : N) : N :=
  if ((65 <=? c) && (c <=? 90))%N then (c + 32)%N else c.
Definition lower (s : str) : str := lower_char <$> s.

(** [str(n)] for a non-negative integer. *)
Definition str_of_nat (n : nat) : str :=
  N_of_ascii <$> list_ascii_of_string (pretty n).

(** [s.rfind(c)] for a one-character [c]: the highest index, or -1. *)
Fixpoint rfind_from (s : str) (c : N) (i acc : Z) : Z :=
  match s with
  | [] => acc
  | x :: r => rfind_from r c (i + 1) (if (x =? c)%N then i else acc)
  end.
Definition rfind (s : str) (c : N) : Z := rfind_from s c 0 (-1).

(** Slices with non-negative bounds: [s[:i]], [s[i:]], [s[i:j]]. *)
Definition slice_to (s : str) (i : Z) : str := take (Z.to_nat i) s.
Definition slice_from (s : str) (i : Z) : str := drop (Z.to_nat i) s.
Definition slice (s : str) (i j : Z) : str :=
  take (Z.to_nat j - Z.to_nat i) (drop (Z.to_nat i) s).

End PyStr.
Import PyStr.

(* ===================================================================== *)
(** ** os.path *)
(* ===================================================================== *)

Module OsPath.

(** The two flavours of [os.path]: [ntpath] and [posixpath]. *)
Inductive platform := nt | posix.

Definition sep (pf : platform) : N :=
  match pf with nt => 92%N | posix => 47%N end.
Definition altsep (pf : platform) : option N :=
  match pf with nt => Some 47%N | posix => None end.
Definition extsep : N := 46%N.

(** The [while filenameIndex < dotIndex] loop of [genericpath._splitext];
    it runs at most [dotIndex - filenameIndex] times, which is the fuel
    [_splitext] gives it. *)
Fixpoint skip_leading_dots (fuel : nat) (p : str) (filenameIndex dotIndex : Z)
  : str * str :=
  match fuel with
  | O => (p, slice_to p 0)
  | S fuel' =>
    if filenameIndex <? dotIndex then
      if bool_decide (slice p filenameIndex (filenameIndex + 1) ≠ [extsep])
      then (slice_to p dotIndex, slice_from p dotIndex)
      else skip_leading_dots fuel' p (filenameIndex + 1) dotIndex
    else (p, slice_to p 0)
  end.

(** [genericpath._splitext(p, sep, altsep, extsep)]. *)
Definition _splitext (p : str) (sep : N) (altsep : option N) : str * str :=
  let sepIndex := rfind p sep in
  let sepIndex :=
    match altsep with
    | Some a => Z.max sepIndex (rfind p a)
    | None => sepIndex
    end in
  let dotIndex := rfind p extsep in
  if sepIndex <? dotIndex then
    let filenameIndex := sepIndex + 1 in
    skip_leading_dots (Z.to_nat (dotIndex - filenameIndex)) p filenameIndex dotIndex
  else (p, slice_to p 0).

(** [os.path.splitext(p)]. *)
Definition splitext (pf : platform) (p : str) : str * str :=
  _splitext p (sep pf) (altsep pf).

End OsPath.

(* ===================================================================== *)
(** ** Extension Classifier *)
(* ===================================================================== *)

(** [MainWindow.image_extensions] of [src/ui/main_window.py]. *)
Definition image_extensions : list str :=
  [py ".png"; py ".jpg"; py ".jpeg"; py ".bmp"; py ".gif"; py ".tiff"; py ".tif"].

Definition is_image_file (pf : OsPath.platform) (file_path : str)
  (image_extensions : list str) : bool :=
  let ext := lower (OsPath.splitext pf file_path).2 in
  bool_decide (ext ∈ image_extensions).

Definition video_extensions : list str :=
  [py ".mp4"; py ".avi"; py ".mkv"; py ".mov"; py ".wmv"; py ".flv";
   py ".webm"; py ".mpeg"; py ".mpg"].

Definition is_video_file (pf : OsPath.platform) (file_path : str) : bool :=
  let ext := lower (OsPath.splitext pf file_path).2 in
  bool_decide (ext ∈ video_extensions).


(* ===================================================================== *)
(** ** Name Resolver *)
(* ===================================================================== *)

(** The loop [while output_name in existing_names] of the two resolvers.
    [template counter] is the f-string of the loop body. A pass either
    returns or moves on to the next counter; [fuel] bounds the passes. *)
Fixpoint unique_name_loop (template : nat -> str) (existing_names : list str)
  (fuel : nat) (output_name : str) (counter : nat) : option str :=
  match fuel with
  | O => None
  | S fuel' =>
    if bool_decide (output_name ∈ existing_names)
    then unique_name_loop template existing_names fuel' (template counter) (S counter)
    else Some output_name
  end.

(** [generate_output_name(filename, existing_names)]. *)
Definition generate_output_name (pf : OsPath.platform) (filename : str)
  (existing_names : list str) : option str :=
  let base_name := (OsPath.splitext pf filename).1 in
  let output_name := base_name ++ py ".webp" in
  unique_name_loop
    (fun counter => base_name ++ py "_" ++ str_of_nat counter ++ py ".webp")
    existing_names (S (length existing_names)) output_name 1.

(** [generate_video_output_name(filename, existing_names)]. *)
Definition generate_video_output_name (pf : OsPath.platform) (filename : str)
  (existing_names : list str) : option str :=
  let base_name := (OsPath.splitext pf filename).1 in
  let output_name := base_name ++ py "_compressed.mp4" in
  unique_name_loop
    (fun counter => base_name ++ py "_" ++ str_of_nat counter ++ py "_compressed.mp4")
    existing_names (S (length existing_names)) output_name 1.

(** The naming part of the [add_files_to_list] loops of the two tabs: each
    name is resolved against [existing_names] and appended to it before the
    next file is looked at. *)
Fixpoint resolve_names (generate : str -> list str -> option str)
  (filenames : list str) (existing_names : list str) : option (list str) :=
  match filenames with
  | [] => Some []
  | filename :: rest =>
    match generate filename existing_names with
    | None => None
    | Some output_name =>
      match resolve_names generate rest (existing_names ++ [output_name]) with
      | None => None
      | Some names => Some (output_name :: names)
      end
    end
  end.

(* ===================================================================== *)
(** ** Exceptions *)
(* ===================================================================== *)

(** The subclasses of [Exception] the code tells apart, and the rest. The
    argument is [str(e)]. *)
Inductive exception :=
| FileNotFoundError (msg : str)
| ZeroDivisionError (msg : str)
| KeyError (msg : str)
| UnicodeDecodeError (msg : str)
| OtherException (msg : str).

Definition str_of_exception (e : exception) : str :=
  match e with
  | FileNotFoundError m | ZeroDivisionError m | KeyError m
  | UnicodeDecodeError m | OtherException m => m
  end.

(* ===================================================================== *)
(** ** Python floats *)
(* ===================================================================== *)

Module PyFloat.

Local Open Scope Q_scope.

(** The exact value of a binary64 number. *)
Abbreviation float := Q.

(** Nearest integer, ties to the even one. *)
Definition rne (x : Q) : Z :=
  let f := Qfloor x in
  match ((x - inject_Z f) ?= (1 # 2))%Q with
  | Lt => f
  | Gt => (f + 1)%Z
  | Eq => if Z.even f then f else (f + 1)%Z
  end.

Definition pow2 (e : Z) : Q := Qpower 2 e.

(** [ilog2 q] is the integer [l] with [2^l <= q < 2^(l+1)], for [0 < q]. *)
Definition ilog2 (q : Q) : Z :=
  let d := (Z.log2 (Qnum q) - Z.log2 (Zpos (Qden q)))%Z in
  if Qle_bool (pow2 d) q then d else (d - 1)%Z.

(** Rounding of a positive rational to 53 significant bits. *)
Definition round_pos (q : Q) : Q :=
  let e := (ilog2 q - 52)%Z in
  inject_Z (rne (q / pow2 e)) * pow2 e.

(** The binary64 number nearest to [q], ties to even. Exponents are not
    bounded: the quantities of this program (file sizes, list lengths and
    their quotients) stay far from the overflow and subnormal ranges. *)
Definition binary64 (q : Q) : float :=
  Qred (match q ?= 0 with
        | Eq => 0
        | Gt => round_pos q
        | Lt => - round_pos (- q)
        end).

(** [float(n)]. *)
Definition of_int (n : Z) : float := binary64 (inject_Z n).

(** [a / b] on two [int]s: the correctly rounded quotient, or
    [ZeroDivisionError]. *)
Definition truediv (a b : Z) : exception + float :=
  if (b =? 0)%Z then inl (ZeroDivisionError (py "division by zero"))
  else inr (binary64 (inject_Z a / inject_Z b)).

Definition sub (x y : float) : float := binary64 (x - y).
Definition mul (x y : float) : float := binary64 (x * y).

(** [int(x)]: truncation towards zero. *)
Definition int (x : float) : Z :=
  if Qle_bool 0 x then Qfloor x else Qceiling x.

(** [round(x, 2)]: the exact value of [x] is rounded to hundredths, ties to
    even, and the nearest binary64 number to that decimal is returned. *)
Definition round2 (x : float) : float :=
  binary64 (inject_Z (rne (x * 100)) / 100).

(** The exact value of a hardware float (for finite ones). *)
Definition of_prim (f : PrimFloat.float) : option Q :=
  match FloatOps.Prim2SF f with
  | SpecFloat.S754_zero _ => Some 0
  | SpecFloat.S754_finite s m e =>
    Some (Qred ((if s then - inject_Z (Zpos m) else inject_Z (Zpos m)) * pow2 e))
  | _ => None
  end.

(** [float(n)] on the hardware, for [0 <= n < 2^53]. *)
Definition hardware (n : Z) : PrimFloat.float := PrimFloat.of_uint63 (Uint63.of_Z n).

(** A hardware float and a model float have the same value. *)
Definition same_value (f : PrimFloat.float) (x : float) : bool :=
  match of_prim f with
  | Some a => Qeq_bool a x
  | None => false
  end.

(** [k / n * 100] and [(1 - k / n) * 100], on the hardware and in the model. *)
Definition same_on (k n : Z) : bool :=
  match truediv k n with
  | inl _ => false
  | inr x =>
    same_value (PrimFloat.mul (PrimFloat.div (hardware k) (hardware n)) (hardware 100))
      (mul x (of_int 100))
    && same_value
         (PrimFloat.mul
            (PrimFloat.sub (hardware 1) (PrimFloat.div (hardware k) (hardware n)))
            (hardware 100))
         (mul (sub (of_int 1) x) (of_int 100))
  end.

End PyFloat.

(* ===================================================================== *)
(** ** Effects: a state and exception monad over the outside world *)
(* ===================================================================== *)

(** A computation reads and changes the world [W] and either returns a
    value or raises. *)
Definition M (W A : Type) : Type := W -> (exception + A) * W.

Definition ret {W A} (a : A) : M W A := fun w => (inr a, w).
Definition raise {W A} (e : exception) : M W A := fun w => (inl e, w).
Definition bind {W A B} (m : M W A) (k : A -> M W B) : M W B :=
  fun w =>
    match m w with
    | (inl e, w') => (inl e, w')
    | (inr a, w') => k a w'
    end.

(** A pure operation that may raise. *)
Definition lift {W A} (r : exception + A) : M W A := fun w => (r, w).

(** [try: body / except Exception as e: handler e]. *)
Definition try_except {W A} (body : M W A) (handler : exception -> M W A) : M W A :=
  fun w =>
    match body w with
    | (inl e, w') => handler e w'
    | (inr a, w') => (inr a, w')
    end.

(** [with ... :] the exit action runs whether or not the body raises. *)
Definition finally {W A} (body : M W A) (on_exit : W -> W) : M W A :=
  fun w => let '(r, w') := body w in (r, on_exit w').

Notation "x <- m ;; k" := (bind m (fun x => k))
  (at level 100, m at next level, right associativity).

(** [for index, x in enumerate(l): body]. *)
Fixpoint for_enumerate {A St : Type} (body : nat -> A -> St -> St)
  (index : nat) (l : list A) (st : St) : St :=
  match l with
  | [] => st
  | x :: rest => for_enumerate body (S index) rest (body index x st)
  end.

(* ===================================================================== *)
(** ** The outside world *)
(* ===================================================================== *)

Module Runtime.

(** What the code looks at in a PIL image: [img.mode] and the keys of
    [img.info]; [pixels] stands for the rest. *)
Record image := { mode : str; info : list str; pixels : N }.

(** The library calls of [converter.py].
    [Popen_communicate cmd] is [subprocess.Popen(cmd, stdout=PIPE,
    stderr=PIPE, creationflags=CREATE_NO_WINDOW)] followed by
    [communicate()]; it answers [(process.returncode, stderr)].
    [save img path format quality lossless] is [img.save(path, format,
    quality=quality, lossless=lossless)]. *)
Record t (W : Type) := {
  get_ffmpeg_exe : M W str;
  Popen_communicate : list str -> M W (Z * list Byte.byte);
  getsize : str -> M W Z;
  Image_open : str -> M W image;
  convert : image -> str -> M W image;
  save : image -> str -> str -> Z -> bool -> M W unit;
  close : image -> W -> W;
  basename : str -> str;
  join : str -> str -> str
}.

Arguments get_ffmpeg_exe {W}.
Arguments Popen_communicate {W}.
Arguments getsize {W}.
Arguments Image_open {W}.
Arguments convert {W}.
Arguments save {W}.
Arguments close {W}.
Arguments basename {W}.
Arguments join {W}.

End Runtime.

(* ===================================================================== *)
(** ** Results, signals and worker state *)
(* ===================================================================== *)

(** The per-item result dict; [None] is an absent key. *)
Record item_result := {
  success : bool;
  output : option str;
  input_size : option Z;
  output_size : option Z;
  compression_ratio : option PyFloat.float;
  error : option str
}.

(** [{'success': False, 'error': msg}]. *)
Definition failure (msg : str) : item_result :=
  {| success := false; output := None; input_size := None;
     output_size := None; compression_ratio := None; error := Some msg |}.

(** The signals of the two workers. *)
Inductive signal :=
| progress_updated (progress : Z) (message : str)
| error_occurred (message : str)
| compression_complete (results : gmap str item_result)
| conversion_complete (results : gmap str item_result).

(** What a worker does that others can see. *)
Inductive action :=
| Emit (s : signal)
| SetResult (input_path : str) (result : item_result).

(** The attributes of a worker that change during [run], the world and the
    log. [succeeded_count] is [compressed_count] in the video worker and
    [converted_count] in the image worker. *)
Record worker (W : Type) := {
  world : W;
  succeeded_count : nat;
  failed_count : nat;
  results : gmap str item_result;
  log : list action
}.

Arguments world {W}.
Arguments succeeded_count {W}.
Arguments failed_count {W}.
Arguments results {W}.
Arguments log {W}.

(** State after [__init__]. *)
Definition init {W} (w : W) : worker W :=
  {| world := w; succeeded_count := 0; failed_count := 0;
     results := ∅; log := [] |}.

Definition set_world {W} (w : W) (st : worker W) : worker W :=
  {| world := w; succeeded_count := succeeded_count st;
     failed_count := failed_count st; results := results st; log := log st |}.

(** [signal.emit(...)]. *)
Definition emit {W} (s : signal) (st : worker W) : worker W :=
  {| world := world st; succeeded_count := succeeded_count st;
     failed_count := failed_count st; results := results st;
     log := log st ++ [Emit s] |}.

(** [self.<succeeded>_count += 1; self.results[input_path] = result]. *)
Definition record_success {W} (input_path : str) (result : item_result)
  (st : worker W) : worker W :=
  {| world := world st; succeeded_count := S (succeeded_count st);
     failed_count := failed_count st;
     results := <[input_path := result]> (results st);
     log := log st ++ [SetResult input_path result] |}.

(** [self.failed_count += 1; self.results[input_path] = result]. *)
Definition record_failure {W} (input_path : str) (result : item_result)
  (st : worker W) : worker W :=
  {| world := world st; succeeded_count := succeeded_count st;
     failed_count := S (failed_count st);
     results := <[input_path := result]> (results st);
     log := log st ++ [SetResult input_path result] |}.

(** [progress = int((index + 1) / self.total_files * 100)]. *)
Definition progress_percent (index total_files : nat) : exception + Z :=
  match PyFloat.truediv (Z.of_nat index + 1) (Z.of_nat total_files) with
  | inl e => inl e
  | inr x => inr (PyFloat.int (PyFloat.mul x (PyFloat.of_int 100)))
  end.

(* ===================================================================== *)
(** ** VideoCompressionWorker *)
(* ===================================================================== *)

Module VideoCompressionWorker.

(** An element of [files_to_compress]. *)
Record file_info := { path : str; output_path : str }.

(** A value of [self.quality_settings]. *)
Record settings := { crf : Z; preset : str }.

Definition quality_settings : gmap str settings :=
  <[py "high" := {| crf := 18; preset := py "slow" |}]>
  (<[py "medium" := {| crf := 23; preset := py "medium" |}]>
  (<[py "low" := {| crf := 28; preset := py "fast" |}]> ∅)).

(** [d[key]]. *)
Definition getitem (d : gmap str settings) (key : str) : exception + settings :=
  match d !! key with
  | Some v => inr v
  | None => inl (KeyError key)
  end.

(** [self.quality_settings.get(self.quality, self.quality_settings["medium"])]. *)
Definition resolve_settings (quality : str) : exception + settings :=
  match getitem quality_settings (py "medium") with
  | inl e => inl e
  | inr fallback => inr (default fallback (quality_settings !! quality))
  end.

(** [str(crf)]. *)
Definition str_of_int (n : Z) : str :=
  if n <? 0 then py "-" ++ str_of_nat (Z.to_nat (- n)) else str_of_nat (Z.to_nat n).

(** The list [cmd]. *)
Definition cmd (ffmpeg_path input_path : str) (s : settings) (output_path : str)
  : list str :=
  [ffmpeg_path; py "-y";
   py "-i"; input_path;
   py "-c:v"; py "libx264";
   py "-crf"; str_of_int (crf s);
   py "-preset"; preset s;
   py "-c:a"; py "aac";
   py "-b:a"; py "128k";
   output_path].

(** [stderr.decode('utf-8', errors='ignore')]. *)
Definition decode_stderr (stderr : list Byte.byte) : exception + str :=
  match decode ignore stderr with
  | Some s => inr s
  | None => inl (UnicodeDecodeError (py "'utf-8' codec can't decode"))
  end.

(** The [try] block of [compress_video]. *)
Definition run_ffmpeg {W} (rt : Runtime.t W) (command : list str)
  (input_path output_path : str) : M W item_result :=
  p <- Runtime.Popen_communicate rt command ;;
  let returncode := p.1 in
  let stderr := p.2 in
  if returncode =? 0 then
    input_size <- Runtime.getsize rt input_path ;;
    output_size <- Runtime.getsize rt output_path ;;
    quotient <- lift (PyFloat.truediv output_size input_size) ;;
    let ratio := PyFloat.mul (PyFloat.sub (PyFloat.of_int 1) quotient) (PyFloat.of_int 100) in
    ret {| success := true;
           output := Some output_path;
           input_size := Some input_size;
           output_size := Some output_size;
           compression_ratio := Some (PyFloat.round2 ratio);
           error := None |}
  else
    error_msg <- lift (decode_stderr stderr) ;;
    ret (failure (py "FFmpeg错误: " ++ take 200 error_msg)).

(** [compress_video(self, input_path, output_path)]. *)
Definition compress_video {W} (rt : Runtime.t W) (quality : str)
  (input_path output_path : str) : M W item_result :=
  s <- lift (resolve_settings quality) ;;
  ffmpeg_path <- Runtime.get_ffmpeg_exe rt ;;
  let command := cmd ffmpeg_path input_path s output_path in
  try_except (run_ffmpeg rt command input_path output_path)
    (fun e =>
       match e with
       | FileNotFoundError _ =>
         ret (failure (py "未找到FFmpeg，请确保已安装并添加到系统PATH"))
       | _ => ret (failure (str_of_exception e))
       end).

(** The [except Exception as e] block of [run]. *)
Definition on_exception {W} (rt : Runtime.t W) (input_path : str)
  (e : exception) (st : worker W) : worker W :=
  emit (error_occurred (py "压缩失败 " ++ Runtime.basename rt input_path
                        ++ py ": " ++ str_of_exception e))
    (record_failure input_path (failure (str_of_exception e)) st).

(** One pass of the loop of [run]. *)
Definition run_item {W} (rt : Runtime.t W) (quality : str) (total_files : nat)
  (index : nat) (f : file_info) (st : worker W) : worker W :=
  let input_path := path f in
  let output_path := output_path f in
  match progress_percent index total_files with
  | inl e => on_exception rt input_path e st
  | inr progress =>
    let st := emit (progress_updated progress
                      (py "正在压缩: " ++ Runtime.basename rt input_path)) st in
    match compress_video rt quality input_path output_path (world st) with
    | (inl e, w) => on_exception rt input_path e (set_world w st)
    | (inr result, w) =>
      let st := set_world w st in
      if success result then record_success input_path result st
      else emit (error_occurred (default (py "未知错误") (error result)))
             (record_failure input_path result st)
    end
  end.

(** [run(self)], from the state [__init__] leaves. *)
Definition run {W} (rt : Runtime.t W) (quality : str)
  (files_to_compress : list file_info) (w : W) : worker W :=
  let total_files := length files_to_compress in
  let st := for_enumerate (run_item rt quality total_files) 0 files_to_compress (init w) in
  emit (compression_complete (results st)) st.

End VideoCompressionWorker.

(* ===================================================================== *)
(** ** ImageConversionWorker *)
(* ===================================================================== *)

Module ImageConversionWorker.

(** The keys of an element of [files_to_convert] that [run] reads. *)
Record file_info := { path : str; output_name : str }.

(** [img.mode in ('RGBA', 'LA') or (img.mode == 'P' and 'transparency' in img.info)]. *)
Definition has_alpha (img : Runtime.image) : bool :=
  bool_decide (Runtime.mode img ∈ [py "RGBA"; py "LA"])
  || (bool_decide (Runtime.mode img = py "P")
      && bool_decide (py "transparency" ∈ Runtime.info img)).

(** The [with Image.open(input_path) as img:] block. *)
Definition convert_to_webp {W} (rt : Runtime.t W) (quality : Z)
  (input_path output_path : str) : M W unit :=
  opened <- Runtime.Image_open rt input_path ;;
  finally
    (img <- (if has_alpha opened then Runtime.convert rt opened (py "RGBA")
             else ret opened) ;;
     Runtime.save rt img output_path (py "WEBP") quality false)
    (Runtime.close rt opened).

(** The [except Exception as e] block of [run]. *)
Definition on_exception {W} (rt : Runtime.t W) (input_path : str)
  (e : exception) (st : worker W) : worker W :=
  emit (error_occurred (py "转换失败 " ++ Runtime.basename rt input_path
                        ++ py ": " ++ str_of_exception e))
    (record_failure input_path (failure (str_of_exception e)) st).

(** [{'success': True, 'output': output_path}]. *)
Definition converted (output_path : str) : item_result :=
  {| success := true; output := Some output_path; input_size := None;
     output_size := None; compression_ratio := None; error := None |}.

(** One pass of the loop of [run]. *)
Definition run_item {W} (rt : Runtime.t W) (output_dir : str) (quality : Z)
  (total_files : nat) (index : nat) (f : file_info) (st : worker W) : worker W :=
  let input_path := path f in
  let output_filename := output_name f in
  let output_path := Runtime.join rt output_dir output_filename in
  match progress_percent index total_files with
  | inl e => on_exception rt input_path e st
  | inr progress =>
    let st := emit (progress_updated progress
                      (py "正在转换: " ++ Runtime.basename rt input_path)) st in
    match convert_to_webp rt quality input_path output_path (world st) with
    | (inl e, w) => on_exception rt input_path e (set_world w st)
    | (inr _, w) => record_success input_path (converted output_path) (set_world w st)
    end
  end.

(** [run(self)], from the state [__init__] leaves. *)
Definition run {W} (rt : Runtime.t W) (output_dir : str) (quality : Z)
  (files_to_convert : list file_info) (w : W) : worker W :=
  let total_files := length files_to_convert in
  let st := for_enumerate (run_item rt output_dir quality total_files) 0
              files_to_convert (init w) in
  emit (conversion_complete (results st)) st.

End ImageConversionWorker.

(* ===================================================================== *)
(** ** A small scripted world, for running the model *)
(* ===================================================================== *)

Module Demo.

(** The world is the list of library calls made so far. *)
Inductive call :=
| Popen (command : list str)
| Open (path : str)
| Convert (img : Runtime.image) (mode : str)
| Save (img : Runtime.image) (path format : str) (quality : Z) (lossless : bool)
| Close (img : Runtime.image).

Definition said {A} (c : call) (r : exception + A) : M (list call) A :=
  fun w => (r, w ++ [c]).

(** [b"b\xffoom"]: one undecodable byte among ASCII ones. *)
Definition stderr_bytes : list Byte.byte :=
  [Byte.x62; Byte.xff; Byte.x6f; Byte.x6f; Byte.x6d].

Definition file_sizes : list (str * Z) :=
  [(py "a.mp4", 1000); (py "out/a_compressed.mp4", 400);
   (py "b.mp4", 1000); (py "out/b_compressed.mp4", 1200);
   (py "empty.mp4", 0); (py "out/empty_compressed.mp4", 48)].

Definition pictures : list (str * Runtime.image) :=
  [(py "a.png", {| Runtime.mode := py "RGBA"; Runtime.info := []; Runtime.pixels := 1 |});
   (py "p.gif", {| Runtime.mode := py "P"; Runtime.info := [py "transparency"];
                   Runtime.pixels := 2 |});
   (py "c.jpg", {| Runtime.mode := py "RGB"; Runtime.info := []; Runtime.pixels := 3 |})].

Fixpoint assoc {A} (k : str) (l : list (str * A)) : option A :=
  match l with
  | [] => None
  | (k', v) :: rest => if bool_decide (k = k') then Some v else assoc k rest
  end.

Definition runtime : Runtime.t (list call) := {|
  Runtime.get_ffmpeg_exe := ret (py "ffmpeg.exe");
  Runtime.Popen_communicate := fun command =>
    said (Popen command)
      (if bool_decide (py "broken.mp4" ∈ command) then inr (1, stderr_bytes)
       else if bool_decide (py "gone.mp4" ∈ command)
            then inl (FileNotFoundError (py "[WinError 2]"))
            else inr (0, []));
  Runtime.getsize := fun p =>
    lift (match assoc p file_sizes with
          | Some n => inr n
          | None => inl (FileNotFoundError (py "[WinError 2]"))
          end);
  Runtime.Image_open := fun p =>
    said (Open p)
      (match assoc p pictures with
       | Some img => inr img
       | None => inl (OtherException (py "cannot identify image file"))
       end);
  Runtime.convert := fun img mode =>
    said (Convert img mode)
      (inr {| Runtime.mode := mode; Runtime.info := Runtime.info img;
              Runtime.pixels := Runtime.pixels img |});
  Runtime.save := fun img p format quality lossless =>
    said (Save img p format quality lossless) (inr tt);
  Runtime.close := fun img w => w ++ [Close img];
  Runtime.basename := fun p => p;
  Runtime.join := fun d f => d ++ py "/" ++ f
|}.

(** A runtime whose FFmpeg cannot be located. *)
Definition runtime_without_ffmpeg : Runtime.t (list call) := {|
  Runtime.get_ffmpeg_exe := raise (OtherException (py "No ffmpeg exe could be found."));
  Runtime.Popen_communicate := Runtime.Popen_communicate runtime;
  Runtime.getsize := Runtime.getsize runtime;
  Runtime.Image_open := Runtime.Image_open runtime;
  Runtime.convert := Runtime.convert runtime;
  Runtime.save := Runtime.save runtime;
  Runtime.close := Runtime.close runtime;
  Runtime.basename := Runtime.basename runtime;
  Runtime.join := Runtime.join runtime
|}.

Definition video (name : string) : VideoCompressionWorker.file_info :=
  {| VideoCompressionWorker.path := py name ++ py ".mp4";
     VideoCompressionWorker.output_path := py "out/" ++ py name ++ py "_compressed.mp4" |}.

Definition picture (name : string) : ImageConversionWorker.file_info :=
  {| ImageConversionWorker.path := py name;
     ImageConversionWorker.output_name := py name ++ py ".webp" |}.

End Demo.

(* ===================================================================== *)
(** ** Notions the statements below are written with *)
(* ===================================================================== *)

(** The candidates the loop tries: the first name, then the templates. *)
Definition candidates (template : nat -> str) (output_name : str)
  (counter n : nat) : list str :=
  output_name :: (template <$> seq counter n).


(** *** Reading a log *)

Definition progress_values (l : list action) : list Z :=
  omap (fun a => match a with Emit (progress_updated p _) => Some p | _ => None end) l.

Definition progress_messages (l : list action) : list str :=
  omap (fun a => match a with Emit (progress_updated _ m) => Some m | _ => None end) l.

Definition stored_paths (l : list action) : list str :=
  omap (fun a => match a with SetResult p _ => Some p | _ => None end) l.

Definition is_progress (a : action) : bool :=
  match a with Emit (progress_updated _ _) => true | _ => false end.

(** The write that makes the outcome of an item known. *)
Definition is_status (a : action) : bool :=
  match a with SetResult _ _ => true | _ => false end.

Definition is_error (a : action) : bool :=
  match a with Emit (error_occurred _) => true | _ => false end.

Definition is_complete (a : action) : bool :=
  match a with
  | Emit (compression_complete _) | Emit (conversion_complete _) => true
  | _ => false
  end.

(** The places of a log, counted from [i], where [P] holds. *)
Fixpoint positions_from (P : action -> bool) (i : nat) (l : list action) : list nat :=
  match l with
  | [] => []
  | a :: rest =>
    if P a then i :: positions_from P (S i) rest else positions_from P (S i) rest
  end.

Definition positions (P : action -> bool) (l : list action) : list nat :=
  positions_from P 0 l.

(** A log without its error notifications. *)
Inductive kind := Progress | Status | Complete.

Definition kind_of (a : action) : option kind :=
  match a with
  | Emit (progress_updated _ _) => Some Progress
  | SetResult _ _ => Some Status
  | Emit (compression_complete _) | Emit (conversion_complete _) => Some Complete
  | Emit (error_occurred _) => None
  end.

Definition kinds (l : list action) : list kind := omap kind_of l.

(** The ordering the specification asks for: the progress event of the k-th
    item comes after the k-th status is known. *)
Definition progress_after_status (l : list action) : Prop :=
  Forall2 (fun s p => (s < p)%nat) (positions is_status l) (positions is_progress l).

(** What one pass of a worker loop appends to the log, for the items from
    index [i] on: a progress event, the item's result, and error
    notifications. *)
Inductive loop_log {Item : Type} (key message : Item -> str) (total : nat)
  : nat -> list Item -> list action -> Prop :=
| loop_log_nil i : loop_log key message total i [] []
| loop_log_cons i f rest p r tail l :
    progress_percent i total = inr p ->
    Forall (fun a => is_error a = true) tail ->
    loop_log key message total (S i) rest l ->
    loop_log key message total i (f :: rest)
      (Emit (progress_updated p (message f)) :: SetResult (key f) r :: tail ++ l).

(** *** The figures of the specification *)

(** [round(100 * k / N)] on exact numbers. *)
Definition spec_percent (k N : nat) : Z :=
  PyFloat.rne (100 * inject_Z (Z.of_nat k) / inject_Z (Z.of_nat N))%Q.


(** *** The world when a loop reaches the item at [index] *)

Definition video_world_before {W} (rt : Runtime.t W) (quality : str)
  (files : list VideoCompressionWorker.file_info) (index : nat) (w : W) : W :=
  world (for_enumerate (VideoCompressionWorker.run_item rt quality (length files))
           0 (take index files) (init w)).

Definition image_world_before {W} (rt : Runtime.t W) (output_dir : str) (quality : Z)
  (files : list ImageConversionWorker.file_info) (index : nat) (w : W) : W :=
  world (for_enumerate
           (ImageConversionWorker.run_item rt output_dir quality (length files))
           0 (take index files) (init w)).

(** What an item leaves in [self.results]: the processor's result, or a
    failure carrying the message of what was raised. *)
Definition video_outcome {W} (rt : Runtime.t W) (quality : str)
  (f : VideoCompressionWorker.file_info) (w : W) : item_result * W :=
  match VideoCompressionWorker.compress_video rt quality
          (VideoCompressionWorker.path f) (VideoCompressionWorker.output_path f) w with
  | (inl e, w') => (failure (str_of_exception e), w')
  | (inr r, w') => (r, w')
  end.

Definition image_outcome {W} (rt : Runtime.t W) (output_dir : str) (quality : Z)
  (f : ImageConversionWorker.file_info) (w : W) : item_result * W :=
  let output_path := Runtime.join rt output_dir (ImageConversionWorker.output_name f) in
  match ImageConversionWorker.convert_to_webp rt quality
          (ImageConversionWorker.path f) output_path w with
  | (inl e, w') => (failure (str_of_exception e), w')
  | (inr _, w') => (ImageConversionWorker.converted output_path, w')
  end.

(** *** The status line of a progress event *)

Definition video_message {W} (rt : Runtime.t W)
  (f : VideoCompressionWorker.file_info) : str :=
  py "正在压缩: " ++ Runtime.basename rt (VideoCompressionWorker.path f).

Definition image_message {W} (rt : Runtime.t W)
  (f : ImageConversionWorker.file_info) : str :=
  py "正在转换: " ++ Runtime.basename rt (ImageConversionWorker.path f).

(* ===================================================================== *)
(** ** The rest of [converter.py] and the tabs of [main_window.py] *)
(* ===================================================================== *)

(** [s.upper()] on the ASCII letters; other code points are kept. *)
Definition upper_char (c : N) : N :=
  if ((97 <=? c) && (c <=? 122))%N then (c - 32)%N else c.

Definition upper (s : str) : str := upper_char <$> s.

(** The file-system queries of [os.path] and [os.walk]; they answer
    without raising. [walk top] is the list [os.walk(top)] yields. *)
Module Os.

Record t (W : Type) := {
  path_exists : str -> W -> bool * W;
  isfile : str -> W -> bool * W;
  isdir : str -> W -> bool * W;
  walk : str -> W -> list (str * list str * list str) * W
}.

Arguments path_exists {W}.
Arguments isfile {W}.
Arguments isdir {W}.
Arguments walk {W}.

End Os.

(** [check_ffmpeg()] of [converter.py]: the pair [(available, message)],
    [None] being Python's [None]. *)
Definition check_ffmpeg {W} (rt : Runtime.t W) (os : Os.t W) : M W (bool * option str) :=
  try_except
    (ffmpeg_path <- Runtime.get_ffmpeg_exe rt ;;
     fun w =>
       let '(found, w') := Os.path_exists os ffmpeg_path w in
       if found then (inr (true, None), w')
       else (inr (false, Some (py "FFmpeg二进制文件未找到")), w'))
    (fun e => ret (false, Some (py "获取FFmpeg失败: " ++ str_of_exception e))).

(** [get_default_icon()]. *)
Definition get_default_icon {W} (os : Os.t W) (w : W) : str * W :=
  let '(found, w') := Os.path_exists os (py "icon.png") w in
  (if found then py "icon.png" else [], w').

(** [a or b] on an optional string: [None] and the empty string are false. *)
Definition or_else (a : option str) (b : str) : str :=
  match a with
  | Some (c :: s) => c :: s
  | _ => b
  end.

Module VideoCompressionSettings.

(** [get_quality]: [quality_map[self.quality_combo.currentIndex()]]. *)
Definition get_quality (currentIndex : Z) : exception + str :=
  if currentIndex =? 0 then inr (py "high")
  else if currentIndex =? 1 then inr (py "medium")
  else if currentIndex =? 2 then inr (py "low")
  else inl (KeyError (VideoCompressionWorker.str_of_int currentIndex)).

(** [set_ffmpeg_status(installed, message)]: the text and the style sheet
    given to the label. *)
Definition set_ffmpeg_status (installed : bool) (message : option str) : str * str :=
  if installed
  then (py "✓ FFmpeg 已就绪", py "color: #27ae60; font-size: 12px;")
  else (py "⚠️ " ++ or_else message (py "FFmpeg 未安装"),
        py "color: #e74c3c; font-size: 12px;").

End VideoCompressionSettings.

Module OutputSettings.

(** [get_quality]: [quality_map[self.quality_combo.currentIndex()]]. *)
Definition get_quality (currentIndex : Z) : exception + Z :=
  if currentIndex =? 0 then inr 95
  else if currentIndex =? 1 then inr 85
  else if currentIndex =? 2 then inr 75
  else if currentIndex =? 3 then inr 60
  else inl (KeyError (VideoCompressionWorker.str_of_int currentIndex)).

End OutputSettings.

(** [ImageConverterApp.check_ffmpeg]: what the label of the video tab
    shows after the probe. *)
Definition app_check_ffmpeg {W} (rt : Runtime.t W) (os : Os.t W) (w : W)
  : (exception + (str * str)) * W :=
  match check_ffmpeg rt os w with
  | (inl e, w') => (inl e, w')
  | (inr (installed, message), w') =>
    (inr (VideoCompressionSettings.set_ffmpeg_status installed message), w')
  end.

(** *** Numbers that start as an [int] and become a [float] *)

Module PyNumber.









End PyNumber.

(* ===================================================================== *)
(** ** ImageConversionTab *)
(* ===================================================================== *)

Module ImageConversionTab.

(** An element of [parent.files_to_convert]. *)
Record file_entry := {
  path : str;
  filename : str;
  format : str;
  output_name : str;
  status : str;
  type : str
}.

Definition set_status (s : str) (f : file_entry) : file_entry :=
  {| path := path f; filename := filename f; format := format f;
     output_name := output_name f; status := s; type := type f |}.

(** The loop of [add_files_to_list]. [None] stands for a call of the name
    resolver that does not return. *)
Fixpoint add_files_loop (pf : OsPath.platform) (basename : str -> str)
  (files : list str) (files_to_convert : list file_entry)
  (existing_names : list str) : option (list file_entry) :=
  match files with
  | [] => Some files_to_convert
  | file_path :: rest =>
    if bool_decide (file_path ∉ path <$> files_to_convert) then
      let ext := upper (OsPath.splitext pf file_path).2 in
      let filename := basename file_path in
      match generate_output_name pf filename existing_names with
      | None => None
      | Some output_name =>
        add_files_loop pf basename rest
          (files_to_convert ++
             [{| path := file_path; filename := filename; format := ext;
                 output_name := output_name; status := py "等待转换";
                 type := py "image" |}])
          (existing_names ++ [output_name])
      end
    else add_files_loop pf basename rest files_to_convert existing_names
  end.

(** [add_files_to_list(files)]: the new value of [parent.files_to_convert]. *)
Definition add_files_to_list (pf : OsPath.platform) (basename : str -> str)
  (files : list str) (files_to_convert : list file_entry) : option (list file_entry) :=
  add_files_loop pf basename files files_to_convert (output_name <$> files_to_convert).

(** [[f for f in files_to_convert if f.get('type') == 'image']]. *)
Definition image_files (files_to_convert : list file_entry) : list file_entry :=
  filter (fun f => type f = py "image") files_to_convert.

(** [clear_files]: the new value of [parent.files_to_convert]. *)
Definition clear_files (files_to_convert : list file_entry) : list file_entry :=
  filter (fun f => type f <> py "image") files_to_convert.

(** [update_convert_button]: whether the button is enabled. *)
Definition update_convert_button (files_to_convert : list file_entry)
  (output_path : str) : bool :=
  bool_decide (Exists (fun f => type f = py "image") files_to_convert)
  && bool_decide (output_path <> []).

(** The inner loops of [dropEvent] and [select_folder] over one directory:
    the image files [os.walk] finds below [top]. *)
Definition scan_folder (pf : OsPath.platform) (join : str -> str -> str)
  (image_extensions : list str) (walked : list (str * list str * list str)) : list str :=
  '(root, _, filenames) ← walked;
  filename ← filenames;
  let full_path := join root filename in
  if is_image_file pf full_path image_extensions then [full_path] else [].

(** The loop of [dropEvent] over the dropped paths. *)
Fixpoint dropped_files {W} (pf : OsPath.platform) (os : Os.t W)
  (join : str -> str -> str) (image_extensions : list str)
  (urls : list str) (w : W) : list str * W :=
  match urls with
  | [] => ([], w)
  | file_path :: rest =>
    let '(is_file, w1) := Os.isfile os file_path w in
    if is_file then
      let '(files, w2) := dropped_files pf os join image_extensions rest w1 in
      (if is_image_file pf file_path image_extensions then file_path :: files else files,
       w2)
    else
      let '(is_dir, w2) := Os.isdir os file_path w1 in
      if is_dir then
        let '(walked, w3) := Os.walk os file_path w2 in
        let '(files, w4) := dropped_files pf os join image_extensions rest w3 in
        (scan_folder pf join image_extensions walked ++ files, w4)
      else dropped_files pf os join image_extensions rest w2
  end.

(** [dropEvent]: the new value of [parent.files_to_convert]. *)
Definition dropEvent {W} (pf : OsPath.platform) (os : Os.t W)
  (join : str -> str -> str) (basename : str -> str) (image_extensions : list str)
  (urls : list str) (files_to_convert : list file_entry) (w : W)
  : option (list file_entry) * W :=
  let '(files, w') := dropped_files pf os join image_extensions urls w in
  match files with
  | [] => (Some files_to_convert, w')
  | _ => (add_files_to_list pf basename files files_to_convert, w')
  end.

(** The worker reads ['path'] and ['output_name'] of an entry. *)
Definition to_worker (f : file_entry) : ImageConversionWorker.file_info :=
  {| ImageConversionWorker.path := path f;
     ImageConversionWorker.output_name := output_name f |}.

(** What [start_conversion] does: a warning box, or the worker it starts
    with the list as it leaves it. *)
Inductive started :=
| Warning (message : str)
| Started (files_to_convert : list file_entry)
    (batch : list ImageConversionWorker.file_info) (output_dir : str) (quality : Z).

(** [start_conversion]. *)
Definition start_conversion (files_to_convert : list file_entry)
  (output_directory : str) (currentIndex : Z) : exception + started :=
  match files_to_convert with
  | [] => inr (Warning (py "请先选择要转换的文件"))
  | _ =>
    match output_directory with
    | [] => inr (Warning (py "请选择输出目录"))
    | _ =>
      match OutputSettings.get_quality currentIndex with
      | inl e => inl e
      | inr quality =>
        let reset f :=
          if bool_decide (type f = py "image") then set_status (py "等待转换") f else f in
        let files_to_convert := reset <$> files_to_convert in
        inr (Started files_to_convert (to_worker <$> image_files files_to_convert)
               output_directory quality)
      end
    end
  end.

(** The loop of [on_conversion_complete]: the entries with their new
    status, [success_count] and [failed_count]. *)
Fixpoint mark_results (results : gmap str item_result)
  (files_to_convert : list file_entry) (success_count failed_count : nat)
  : list file_entry * nat * nat :=
  match files_to_convert with
  | [] => ([], success_count, failed_count)
  | file_info :: rest =>
    let '(file_info', success_count', failed_count') :=
      if bool_decide (type file_info = py "image") then
        match results !! path file_info with
        | Some result =>
          if success result
          then (set_status (py "转换成功") file_info, S success_count, failed_count)
          else (set_status (py "转换失败") file_info, success_count, S failed_count)
        | None => (file_info, success_count, failed_count)
        end
      else (file_info, success_count, failed_count) in
    let '(rest', s, f) := mark_results results rest success_count' failed_count' in
    (file_info' :: rest', s, f)
  end.

(** [on_conversion_complete(results)]: the list, the two counts, and
    whether the question box is shown. *)
Definition on_conversion_complete (results : gmap str item_result)
  (files_to_convert : list file_entry) : list file_entry * nat * nat * bool :=
  let '(files, success_count, failed_count) := mark_results results files_to_convert 0 0 in
  (files, success_count, failed_count, bool_decide (0 < success_count)%nat).

End ImageConversionTab.

(* ===================================================================== *)
(** ** VideoCompressionTab *)
(* ===================================================================== *)

Module VideoCompressionTab.

(** An element of [parent.video_files]. *)
Record file_entry := {
  path : str;
  filename : str;
  size : Z;
  output_name : str;
  status : str
}.

Definition set_status (s : str) (f : file_entry) : file_entry :=
  {| path := path f; filename := filename f; size := size f;
     output_name := output_name f; status := s |}.

(** The loop of [add_files_to_list]: what it raises if [os.path.getsize]
    raises, [parent.video_files] as the loop leaves it, and the world.
    [None] stands for a call of the name resolver that does not return. *)
Fixpoint add_files_loop {W} (rt : Runtime.t W) (pf : OsPath.platform)
  (files : list str) (video_files : list file_entry)
  (existing_paths existing_output_names : list str) (w : W)
  : option (option exception * list file_entry * W) :=
  match files with
  | [] => Some (None, video_files, w)
  | file_path :: rest =>
    if bool_decide (file_path ∉ existing_paths) then
      let filename := Runtime.basename rt file_path in
      match Runtime.getsize rt file_path w with
      | (inl e, w') => Some (Some e, video_files, w')
      | (inr file_size, w') =>
        match generate_video_output_name pf filename existing_output_names with
        | None => None
        | Some output_name =>
          add_files_loop rt pf rest
            (video_files ++
               [{| path := file_path; filename := filename; size := file_size;
                   output_name := output_name; status := py "等待压缩" |}])
            (existing_paths ++ [file_path])
            (existing_output_names ++ [output_name]) w'
        end
      end
    else add_files_loop rt pf rest video_files existing_paths existing_output_names w
  end.

(** [add_files_to_list(files)]. *)
Definition add_files_to_list {W} (rt : Runtime.t W) (pf : OsPath.platform)
  (files : list str) (video_files : list file_entry) (w : W)
  : option (option exception * list file_entry * W) :=
  add_files_loop rt pf files video_files (path <$> video_files)
    (output_name <$> video_files) w.

(** The loop of [dropEvent] over the dropped paths. *)
Fixpoint dropped_files {W} (pf : OsPath.platform) (os : Os.t W)
  (urls : list str) (w : W) : list str * W :=
  match urls with
  | [] => ([], w)
  | file_path :: rest =>
    let '(is_file, w1) := Os.isfile os file_path w in
    let '(files, w2) := dropped_files pf os rest w1 in
    (if is_file && is_video_file pf file_path then file_path :: files else files, w2)
  end.

(** [dropEvent]: what [add_files_to_list] gives for the dropped video
    files, the list being left alone when there is none. *)
Definition dropEvent {W} (rt : Runtime.t W) (pf : OsPath.platform) (os : Os.t W)
  (urls : list str) (video_files : list file_entry) (w : W)
  : option (option exception * list file_entry * W) :=
  let '(files, w') := dropped_files pf os urls w in
  match files with
  | [] => Some (None, video_files, w')
  | _ => add_files_to_list rt pf files video_files w'
  end.



(** [update_compress_button]: whether the button is enabled. *)
Definition update_compress_button (video_files : list file_entry)
  (output_path : str) : bool :=
  bool_decide (0 < length video_files)%nat && bool_decide (output_path <> []).

(** The list [files_to_compress] that [start_compression] builds. *)
Definition files_to_compress {W} (rt : Runtime.t W) (video_output_directory : str)
  (video_files : list file_entry) : list VideoCompressionWorker.file_info :=
  (fun file_info =>
     {| VideoCompressionWorker.path := path file_info;
        VideoCompressionWorker.output_path :=
          Runtime.join rt video_output_directory (output_name file_info) |})
  <$> video_files.

(** What [start_compression] does: a warning box, or the worker it starts
    with the list as it leaves it. *)
Inductive started :=
| Warning (message : str)
| Started (video_files : list file_entry)
    (batch : list VideoCompressionWorker.file_info) (quality : str).

(** [start_compression]. *)
Definition start_compression {W} (rt : Runtime.t W) (video_files : list file_entry)
  (video_output_directory : str) (currentIndex : Z) : exception + started :=
  match video_files with
  | [] => inr (Warning (py "请先选择要压缩的视频"))
  | _ =>
    match video_output_directory with
    | [] => inr (Warning (py "请选择输出目录"))
    | _ =>
      match VideoCompressionSettings.get_quality currentIndex with
      | inl e => inl e
      | inr quality =>
        let video_files := set_status (py "等待压缩") <$> video_files in
        inr (Started video_files (files_to_compress rt video_output_directory video_files)
               quality)
      end
    end
  end.

(** The loop of [on_compression_complete]: the entries with their new
    status, [success_count] and [failed_count]. *)
Fixpoint mark_results (results : gmap str item_result)
  (video_files : list file_entry) (success_count failed_count : nat)
  : list file_entry * nat * nat :=
  match video_files with
  | [] => ([], success_count, failed_count)
  | file_info :: rest =>
    let '(file_info', success_count', failed_count') :=
      match results !! path file_info with
      | Some result =>
        if success result
        then (set_status (py "压缩成功") file_info, S success_count, failed_count)
        else (set_status (py "压缩失败") file_info, success_count, S failed_count)
      | None => (file_info, success_count, failed_count)
      end in
    let '(rest', s, f) := mark_results results rest success_count' failed_count' in
    (file_info' :: rest', s, f)
  end.

(** [on_compression_complete(results)]: the list, the two counts, and
    whether the question box is shown. *)
Definition on_compression_complete (results : gmap str item_result)
  (video_files : list file_entry) : list file_entry * nat * nat * bool :=
  let '(files, success_count, failed_count) := mark_results results video_files 0 0 in
  (files, success_count, failed_count, bool_decide (0 < success_count)%nat).

End VideoCompressionTab.

(* ===================================================================== *)
(** ** More readings of a log *)
(* ===================================================================== *)

(** The writes to [self.results], in order. *)
Definition stored_entries (l : list action) : list (str * item_result) :=
  omap (fun a => match a with SetResult p r => Some (p, r) | _ => None end) l.

(** The texts of the error notifications, in order. *)
Definition error_messages (l : list action) : list str :=
  omap (fun a => match a with Emit (error_occurred m) => Some m | _ => None end) l.

Definition succeeded (r : item_result) : Prop := success r = true.

(** How many of the results are successes, how many failures. *)
Definition count_success (rs : list item_result) : nat :=
  length (filter succeeded rs).

Definition count_failure (rs : list item_result) : nat :=
  length (filter (fun r => ~ succeeded r) rs).

(** What holds of a worker between two passes of its loop: the counters
    count the stored results, there is one error notification per failure,
    and [self.results] is what the writes leave, the later write winning. *)
Definition counters_agree {W} (st : worker W) : Prop :=
  succeeded_count st = count_success (snd <$> stored_entries (log st))
  /\ failed_count st = count_failure (snd <$> stored_entries (log st))
  /\ length (error_messages (log st)) = failed_count st
  /\ results st = list_to_map (reverse (stored_entries (log st))).


(** The two shapes of a result dict of [compress_video]. *)
Definition well_formed_result (output_path : str) (r : item_result) : Prop :=
  (success r = true /\ output r = Some output_path /\ error r = None
   /\ is_Some (input_size r) /\ is_Some (output_size r)
   /\ is_Some (compression_ratio r))
  \/ (success r = false /\ (exists m, error r = Some m) /\ output r = None
      /\ input_size r = None /\ output_size r = None /\ compression_ratio r = None).

(** The status that [on_compression_complete] leaves on an entry. *)
Definition video_status_after (results : gmap str item_result)
  (e : VideoCompressionTab.file_entry) : VideoCompressionTab.file_entry :=
  match results !! VideoCompressionTab.path e with
  | Some r =>
    VideoCompressionTab.set_status
      (if success r then py "压缩成功" else py "压缩失败") e
  | None => e
  end.

(** The status that [on_conversion_complete] leaves on an entry. *)
Definition image_status_after (results : gmap str item_result)
  (e : ImageConversionTab.file_entry) : ImageConversionTab.file_entry :=
  if bool_decide (ImageConversionTab.type e = py "image") then
    match results !! ImageConversionTab.path e with
    | Some r =>
      ImageConversionTab.set_status
        (if success r then py "转换成功" else py "转换失败") e
    | None => e
    end
  else e.

(** What [add_files_to_list] appends for one of [files]. *)
Definition image_entry_of (pf : OsPath.platform) (basename : str -> str)
  (files : list str) (e : ImageConversionTab.file_entry) : Prop :=
  ImageConversionTab.path e ∈ files
  /\ ImageConversionTab.filename e = basename (ImageConversionTab.path e)
  /\ ImageConversionTab.format e
     = upper (OsPath.splitext pf (ImageConversionTab.path e)).2
  /\ ImageConversionTab.status e = py "等待转换"
  /\ ImageConversionTab.type e = py "image"
  /\ py ".webp" `suffix_of` ImageConversionTab.output_name e.

(** What [add_files_to_list] appends for one of [files]. *)
Definition video_entry_of {W} (rt : Runtime.t W) (files : list str)
  (e : VideoCompressionTab.file_entry) : Prop :=
  VideoCompressionTab.path e ∈ files
  /\ VideoCompressionTab.filename e = Runtime.basename rt (VideoCompressionTab.path e)
  /\ (exists w1 w2,
        Runtime.getsize rt (VideoCompressionTab.path e) w1
        = (inr (VideoCompressionTab.size e), w2))
  /\ VideoCompressionTab.status e = py "等待压缩"
  /\ py "_compressed.mp4" `suffix_of` VideoCompressionTab.output_name e.





(** The stored results that are failures, in the order of the writes. *)
Definition failures (entries : list (str * item_result)) : list (str * item_result) :=
  filter (fun entry => success entry.2 = false) entries.

(** The text of the error notification for a stored failure: the stored
    message, as it is or after the words that name the file. *)
Definition video_error_text {W} (rt : Runtime.t W) (entry : str * item_result)
  (message : str) : Prop :=
  exists m, error entry.2 = Some m
            /\ (message = m
                \/ message = py "压缩失败 " ++ Runtime.basename rt entry.1
                                ++ py ": " ++ m).

Definition image_error_text {W} (rt : Runtime.t W) (entry : str * item_result)
  (message : str) : Prop :=
  exists m, error entry.2 = Some m
            /\ message = py "转换失败 " ++ Runtime.basename rt entry.1 ++ py ": " ++ m.

(** The values that [parent.files_to_convert] takes: the empty list of
    [__init__], and what [add_files_to_list], [clear_files],
    [start_conversion] and [on_conversion_complete] make of a value. *)
Inductive image_list_reachable (pf : OsPath.platform) (basename : str -> str)
  : list ImageConversionTab.file_entry -> Prop :=
| image_list_init : image_list_reachable pf basename []
| image_list_add files l l' :
    image_list_reachable pf basename l ->
    ImageConversionTab.add_files_to_list pf basename files l = Some l' ->
    image_list_reachable pf basename l'
| image_list_clear l :
    image_list_reachable pf basename l ->
    image_list_reachable pf basename (ImageConversionTab.clear_files l)
| image_list_start l output_directory currentIndex l' batch output_dir quality :
    image_list_reachable pf basename l ->
    ImageConversionTab.start_conversion l output_directory currentIndex
    = inr (ImageConversionTab.Started l' batch output_dir quality) ->
    image_list_reachable pf basename l'
| image_list_complete l results l' success_count failures ask :
    image_list_reachable pf basename l ->
    ImageConversionTab.on_conversion_complete results l
    = (l', success_count, failures, ask) ->
    image_list_reachable pf basename l'.

(** The values that [parent.video_files] takes; [clear_files] gives the
    empty list again, and [add_files_to_list] leaves a value also when it
    raises. *)
Inductive video_list_reachable {W} (rt : Runtime.t W) (pf : OsPath.platform)
  : list VideoCompressionTab.file_entry -> Prop :=
| video_list_init : video_list_reachable rt pf []
| video_list_add files l w raised l' w' :
    video_list_reachable rt pf l ->
    VideoCompressionTab.add_files_to_list rt pf files l w = Some (raised, l', w') ->
    video_list_reachable rt pf l'
| video_list_start l video_output_directory currentIndex l' batch quality :
    video_list_reachable rt pf l ->
    VideoCompressionTab.start_compression rt l video_output_directory currentIndex
    = inr (VideoCompressionTab.Started l' batch quality) ->
    video_list_reachable rt pf l'
| video_list_complete l results l' success_count failures ask :
    video_list_reachable rt pf l ->
    VideoCompressionTab.on_compression_complete results l
    = (l', success_count, failures, ask) ->
    video_list_reachable rt pf l'.

(** What holds of every value of the two lists. *)
Definition image_list_invariant (l : list ImageConversionTab.file_entry) : Prop :=
  NoDup (ImageConversionTab.path <$> l)
  /\ NoDup (ImageConversionTab.output_name <$> l)
  /\ Forall (fun e => ImageConversionTab.type e = py "image"
                      /\ py ".webp" `suffix_of` ImageConversionTab.output_name e) l.

Definition video_list_invariant (l : list VideoCompressionTab.file_entry) : Prop :=
  NoDup (VideoCompressionTab.path <$> l)
  /\ NoDup (VideoCompressionTab.output_name <$> l)
  /\ Forall (fun e => py "_compressed.mp4" `suffix_of` VideoCompressionTab.output_name e)
       l.

(* ===================================================================== *)
(** * Properties *)
(* ===================================================================== *)

(** ** Strings and paths *)

Lemma rfind_from_spec (s : str) (c : N) (i acc r : Z) :
  rfind_from s c i acc = r ->
  r = acc \/ (i <= r /\ s !! Z.to_nat (r - i) = Some c).
Proof.
  revert i acc r. induction s as [|x s IH]; intros i acc r H; simpl in H.
  - by left.
  - apply IH in H as [H | [Hle Hlk]].
    + destruct (N.eqb_spec x c) as [-> | _]; [right | by left].
      subst r. split; [lia|]. by rewrite Z.sub_diag.
    + right. split; [lia|].
      replace (Z.to_nat (r - i)) with (S (Z.to_nat (r - (i + 1)))) by lia.
      exact Hlk.
Qed.

Lemma rfind_spec (s : str) (c : N) :
  rfind s c = -1 \/ (0 <= rfind s c /\ s !! Z.to_nat (rfind s c) = Some c).
Proof.
  destruct (rfind_from_spec s c 0 (-1) _ eq_refl) as [H | [H1 H2]]; [by left|].
  right. split; [done|]. by rewrite Z.sub_0_r in H2.
Qed.

Lemma skip_leading_dots_cases fuel p i d :
  OsPath.skip_leading_dots fuel p i d = (p, [])
  \/ OsPath.skip_leading_dots fuel p i d = (slice_to p d, slice_from p d).
Proof.
  revert i. induction fuel as [|fuel IH]; intros i; simpl; [by left|].
  destruct (i <? d); [|by left].
  case_bool_decide; [by right | apply IH].
Qed.




(** ** Quality Preset Table *)

Lemma py_tiers_distinct :
  py "high" <> py "medium" /\ py "high" <> py "low" /\ py "medium" <> py "low".
Proof. repeat split; intros H; vm_compute in H; discriminate H. Qed.

Lemma resolve_settings_eq (quality : str) :
  VideoCompressionWorker.resolve_settings quality =
    inr (if decide (quality = py "high")
         then {| VideoCompressionWorker.crf := 18;
                 VideoCompressionWorker.preset := py "slow" |}
         else if decide (quality = py "low")
         then {| VideoCompressionWorker.crf := 28;
                 VideoCompressionWorker.preset := py "fast" |}
         else {| VideoCompressionWorker.crf := 23;
                 VideoCompressionWorker.preset := py "medium" |}).
Proof.
  destruct py_tiers_distinct as (Hhm & Hhl & Hml).
  unfold VideoCompressionWorker.resolve_settings, VideoCompressionWorker.getitem,
    VideoCompressionWorker.quality_settings.
  rewrite (lookup_insert_ne _ (py "high") (py "medium")) by done.
  rewrite lookup_insert_eq. f_equal.
  destruct (decide (quality = py "high")) as [->|Hh].
  { by rewrite lookup_insert_eq. }
  rewrite lookup_insert_ne by done.
  destruct (decide (quality = py "medium")) as [->|Hm].
  { rewrite lookup_insert_eq. by rewrite decide_False. }
  rewrite lookup_insert_ne by done.
  destruct (decide (quality = py "low")) as [->|Hl].
  { by rewrite lookup_insert_eq. }
  by rewrite lookup_insert_ne, lookup_empty by done.
Qed.

(** C7. The tier table is High -> (18, slow), Medium -> (23, medium),
    Low -> (28, fast); any other tier value resolves to the Medium entry. *)
Theorem quality_tier_table (quality : str) :
  VideoCompressionWorker.resolve_settings quality =
    inr (if decide (quality = py "high")
         then {| VideoCompressionWorker.crf := 18;
                 VideoCompressionWorker.preset := py "slow" |}
         else if decide (quality = py "low")
         then {| VideoCompressionWorker.crf := 28;
                 VideoCompressionWorker.preset := py "fast" |}
         else {| VideoCompressionWorker.crf := 23;
                 VideoCompressionWorker.preset := py "medium" |}).
Proof. apply resolve_settings_eq. Qed.

(** ** Name Resolver *)

Lemma str_of_nat_inj (i j : nat) : str_of_nat i = str_of_nat j -> i = j.
Proof.
  unfold str_of_nat. intros H.
  apply (inj pretty).
  rewrite <- (string_of_list_ascii_of_string (pretty i)),
          <- (string_of_list_ascii_of_string (pretty j)).
  f_equal. revert H. generalize (list_ascii_of_string (pretty i)) as l1.
  generalize (list_ascii_of_string (pretty j)) as l2.
  intros l2 l1. revert l2. induction l1 as [|a l1 IH]; intros [|b l2] H;
    simpl in H; try discriminate; [done|].
  injection H as Hab Hl. f_equal; [|by apply IH].
  by rewrite <- (ascii_N_embedding a), <- (ascii_N_embedding b), Hab.
Qed.

Lemma unique_name_loop_None template existing fuel output_name counter :
  unique_name_loop template existing fuel output_name counter = None ->
  match fuel with
  | O => True
  | S n => forall x, x ∈ candidates template output_name counter n -> x ∈ existing
  end.
Proof.
  revert output_name counter. induction fuel as [|fuel IH]; intros o c H; [done|].
  simpl in H. case_bool_decide as Hin; [|done].
  apply IH in H. intros x Hx. unfold candidates in Hx.
  destruct fuel as [|n].
  - simpl in Hx. apply list_elem_of_singleton in Hx. by subst.
  - apply elem_of_cons in Hx as [->|Hx]; [done|]. apply H. exact Hx.
Qed.

Lemma unique_name_loop_Some template existing fuel output_name counter name :
  unique_name_loop template existing fuel output_name counter = Some name ->
  (name ∉ existing) /\ (name = output_name \/ exists k, name = template k).
Proof.
  revert output_name counter. induction fuel as [|fuel IH]; intros o c H; [done|].
  simpl in H. case_bool_decide as Hin.
  - apply IH in H as [? [->|[k ->]]]; eauto.
  - injection H as <-. auto.
Qed.

(** With one more pass than there are committed names the loop returns:
    the candidates are pairwise distinct, so they cannot all be taken. *)
Lemma unique_name_loop_total template existing output_name counter :
  (forall i j, template i = template j -> i = j) ->
  (forall k, template k <> output_name) ->
  exists name,
    unique_name_loop template existing (S (length existing)) output_name counter
      = Some name.
Proof.
  intros Hinj Hne.
  destruct (unique_name_loop template existing (S (length existing)) output_name counter)
    as [name|] eqn:E; [eauto|].
  exfalso. apply unique_name_loop_None in E.
  assert (Hnd : NoDup (candidates template output_name counter (length existing))).
  { apply NoDup_cons. split.
    - intros (k & Hk & _)%list_elem_of_fmap. by apply (Hne k).
    - apply NoDup_fmap_2_strong; [|apply NoDup_seq]. intros. by apply Hinj. }
  pose proof (submseteq_length _ _ (NoDup_submseteq _ _ Hnd E)) as Hlen.
  unfold candidates in Hlen. simpl in Hlen.
  rewrite length_fmap, length_seq in Hlen. lia.
Qed.

(** One call of a resolver, whatever the target suffix [sfx]: it returns,
    the name is new, and it ends in [sfx]. *)
Lemma resolver_call (base_name sfx : str) (existing : list str) :
  exists name,
    unique_name_loop
      (fun counter => base_name ++ py "_" ++ str_of_nat counter ++ sfx)
      existing (S (length existing)) (base_name ++ sfx) 1 = Some name
    /\ (name ∉ existing) /\ sfx `suffix_of` name.
Proof.
  destruct (unique_name_loop_total
              (fun counter => base_name ++ py "_" ++ str_of_nat counter ++ sfx)
              existing (base_name ++ sfx) 1) as [name Hname].
  - intros i j H. apply app_inv_head, app_inv_head, app_inv_tail in H.
    by apply str_of_nat_inj.
  - intros k H. apply (f_equal length) in H.
    rewrite !length_app in H. change (length (py "_")) with 1%nat in H. lia.
  - exists name. split; [done|].
    apply unique_name_loop_Some in Hname as [Hnew [->|[k ->]]]; split; try done.
    + by exists base_name.
    + exists (base_name ++ py "_" ++ str_of_nat k). by rewrite <- !app_assoc.
Qed.

(** Resolving a whole list, each name committed before the next call. *)
Lemma resolve_names_spec (generate : str -> list str -> option str) (sfx : str) :
  (forall filename existing, exists name,
      generate filename existing = Some name
      /\ (name ∉ existing) /\ sfx `suffix_of` name) ->
  forall filenames existing, exists names,
    resolve_names generate filenames existing = Some names
    /\ length names = length filenames
    /\ NoDup names
    /\ Forall (fun name => (name ∉ existing) /\ sfx `suffix_of` name) names.
Proof.
  intros Hgen filenames. induction filenames as [|f rest IH]; intros existing.
  - exists []. repeat split; constructor.
  - destruct (Hgen f existing) as (name & Hname & Hnew & Hsfx).
    destruct (IH (existing ++ [name])) as (names & Hnames & Hlen & Hnd & Hall).
    exists (name :: names). simpl. rewrite Hname, Hnames.
    rewrite Forall_forall in Hall.
    split; [done|]. split; [by rewrite Hlen|]. split.
    + apply NoDup_cons. split; [|done].
      intros Hin. destruct (Hall _ Hin) as [Hin' _]. apply Hin'.
      apply elem_of_app. right. by apply list_elem_of_singleton.
    + apply Forall_cons. split; [done|]. apply Forall_forall.
      intros n Hn. destruct (Hall _ Hn) as [Hn' ?]. split; [|done].
      intros ?. apply Hn'. apply elem_of_app. by left.
Qed.

(** C4. However many file names are resolved one after the other, each
    name being committed before the next call, every call returns and the
    names are pairwise distinct, new with respect to the names committed
    before, and end in the target suffix ([.webp], [_compressed.mp4]);
    [a.png] then [a.jpg] give [a.webp] then [a_1.webp]. *)
Theorem name_resolver_unique (pf : OsPath.platform) (filenames existing : list str) :
  (exists names,
      resolve_names (generate_output_name pf) filenames existing = Some names
      /\ length names = length filenames
      /\ NoDup names
      /\ Forall (fun name => (name ∉ existing) /\ py ".webp" `suffix_of` name) names)
  /\ (exists names,
      resolve_names (generate_video_output_name pf) filenames existing = Some names
      /\ length names = length filenames
      /\ NoDup names
      /\ Forall (fun name => (name ∉ existing) /\ py "_compressed.mp4" `suffix_of` name)
           names)
  /\ resolve_names (generate_output_name pf) [py "a.png"; py "a.jpg"] []
     = Some [py "a.webp"; py "a_1.webp"].
Proof.
  split; [|split].
  - apply resolve_names_spec. intros f ex. apply resolver_call.
  - apply resolve_names_spec. intros f ex. apply resolver_call.
  - destruct pf; vm_compute; reflexivity.
Qed.

(** ** Rounding to binary64 *)

Module PyFloatFacts.
Import PyFloat.
Local Open Scope Q_scope.

Lemma rne_cases (x : Q) :
  (rne x = Qfloor x /\ x - inject_Z (Qfloor x) <= 1 # 2)
  \/ (rne x = (Qfloor x + 1)%Z /\ 1 # 2 <= x - inject_Z (Qfloor x)).
Proof.
  unfold rne.
  destruct (Qcompare_spec (x - inject_Z (Qfloor x)) (1 # 2)) as [H|H|H].
  - destruct (Z.even (Qfloor x)); [left | right]; split; try done;
      rewrite H; apply Qle_refl.
  - left. split; [done|]. by apply Qlt_le_weak.
  - right. split; [done|]. by apply Qlt_le_weak.
Qed.

#[export] Instance rne_comp : Proper (Qeq ==> eq) rne.
Proof.
  intros x y Hxy. unfold rne.
  rewrite (Qfloor_comp _ _ Hxy).
  assert (E : (x - inject_Z (Qfloor y) ?= 1 # 2) = (y - inject_Z (Qfloor y) ?= 1 # 2)).
  { apply Qcompare_comp; [by rewrite Hxy | reflexivity]. }
  by rewrite E.
Qed.

Lemma rne_inject_Z (z : Z) : rne (inject_Z z) = z.
Proof.
  unfold rne. rewrite Qfloor_Z.
  replace (inject_Z z - inject_Z z ?= 1 # 2) with Lt; [done|].
  symmetry. apply (proj1 (Qlt_alt _ _)). generalize (inject_Z z) as t. intros t. lra.
Qed.

Lemma rne_mono (x y : Q) : x <= y -> (rne x <= rne y)%Z.
Proof.
  intros Hxy. pose proof (Qfloor_resp_le _ _ Hxy) as Hf.
  destruct (Z.eq_dec (Qfloor x) (Qfloor y)) as [Heq|Hne].
  - unfold rne. rewrite <- Heq.
    destruct (Qcompare_spec (x - inject_Z (Qfloor x)) (1 # 2)) as [Hx|Hx|Hx];
      destruct (Qcompare_spec (y - inject_Z (Qfloor x)) (1 # 2)) as [Hy|Hy|Hy];
      destruct (Z.even (Qfloor x)); try lia; exfalso; lra.
  - destruct (rne_cases x) as [[-> _]|[-> _]], (rne_cases y) as [[-> _]|[-> _]]; lia.
Qed.

Lemma pow2_pos (e : Z) : 0 < pow2 e.
Proof. apply Qpower_0_lt. reflexivity. Qed.

Lemma pow2_le (a b : Z) : (a <= b)%Z -> pow2 a <= pow2 b.
Proof. intros. apply Qpower_le_compat_l; [done|]. discriminate. Qed.

Lemma pow2_plus (a b : Z) : pow2 (a + b) == pow2 a * pow2 b.
Proof. apply Qpower_plus. discriminate. Qed.

Lemma pow2_Z (n : Z) : (0 <= n)%Z -> pow2 n == inject_Z (2 ^ n).
Proof. intros. symmetry. by apply Zpower_Qpower. Qed.

(** [ilog2 q] is the binary order of magnitude of [q]. *)
Lemma ilog2_spec (q : Q) : 0 < q -> pow2 (ilog2 q) <= q /\ q < pow2 (ilog2 q + 1).
Proof.
  intros Hq. destruct q as [a b].
  assert (Ha : (0 < a)%Z).
  { unfold Qlt in Hq. simpl in Hq. lia. }
  unfold ilog2. cbn [Qnum Qden].
  set (la := Z.log2 a). set (lb := Z.log2 (Z.pos b)).
  destruct (Z.log2_spec a Ha) as [Ha1 Ha2]. fold la in Ha1, Ha2.
  destruct (Z.log2_spec (Z.pos b) eq_refl) as [Hb1 Hb2]. fold lb in Hb1, Hb2.
  pose proof (Z.log2_nonneg a) as Hla. fold la in Hla.
  pose proof (Z.log2_nonneg (Z.pos b)) as Hlb. fold lb in Hlb.
  clearbody la lb.
  assert (Hlow : pow2 (la - lb - 1) <= a # b).
  { apply Qmult_le_r with (z := pow2 (lb + 1)); [apply pow2_pos|].
    rewrite <- pow2_plus. replace (la - lb - 1 + (lb + 1))%Z with la by lia.
    rewrite !pow2_Z by lia. replace (lb + 1)%Z with (Z.succ lb) by lia.
    unfold Qle. cbn. rewrite Pos.mul_1_r. nia. }
  assert (Hhigh : a # b < pow2 (la - lb + 1)).
  { apply Qmult_lt_r with (z := pow2 lb); [apply pow2_pos|].
    rewrite <- pow2_plus. replace (la - lb + 1 + lb)%Z with (la + 1)%Z by lia.
    rewrite !pow2_Z by lia. replace (la + 1)%Z with (Z.succ la) by lia.
    unfold Qlt. cbn. rewrite Pos.mul_1_r. nia. }
  destruct (Qle_bool (pow2 (la - lb)) (a # b)) eqn:E.
  - apply Qle_bool_iff in E. done.
  - split; [done|]. replace (la - lb - 1 + 1)%Z with (la - lb)%Z by lia.
    apply Qnot_le_lt. intros H. apply Qle_bool_iff in H. congruence.
Qed.

Lemma ilog2_unique (q : Q) (l : Z) :
  pow2 l <= q -> q < pow2 (l + 1) -> ilog2 q = l.
Proof.
  intros H1 H2.
  assert (Hq : 0 < q) by (eapply Qlt_le_trans; [apply pow2_pos | exact H1]).
  destruct (ilog2_spec q Hq) as [H3 H4].
  destruct (Z.lt_trichotomy (ilog2 q) l) as [Hlt|[Heq|Hgt]]; [|done|]; exfalso.
  - pose proof (pow2_le (ilog2 q + 1) l ltac:(lia)). lra.
  - pose proof (pow2_le (l + 1) (ilog2 q) ltac:(lia)). lra.
Qed.

Lemma ilog2_mono (p q : Q) : 0 < p -> p <= q -> (ilog2 p <= ilog2 q)%Z.
Proof.
  intros Hp Hpq.
  destruct (ilog2_spec p Hp) as [H1 _].
  destruct (ilog2_spec q ltac:(lra)) as [_ H2].
  destruct (Z.le_gt_cases (ilog2 p) (ilog2 q)) as [|Hgt]; [done|exfalso].
  pose proof (pow2_le (ilog2 q + 1) (ilog2 p) ltac:(lia)). lra.
Qed.

Lemma ilog2_comp_pos (p q : Q) : 0 < p -> p == q -> ilog2 p = ilog2 q.
Proof.
  intros Hp Hpq. symmetry. destruct (ilog2_spec p Hp).
  apply ilog2_unique; by rewrite <- Hpq.
Qed.

(** The scaled significand of a positive [q] lies in [[2^52, 2^53)]. *)
Lemma significand_range (q : Q) :
  0 < q ->
  pow2 52 <= q / pow2 (ilog2 q - 52) /\ q / pow2 (ilog2 q - 52) < pow2 53.
Proof.
  intros Hq. destruct (ilog2_spec q Hq) as [H1 H2].
  pose proof (pow2_pos (ilog2 q - 52)) as Hpos.
  split.
  - apply Qle_shift_div_l; [done|]. rewrite <- pow2_plus.
    by replace (52 + (ilog2 q - 52))%Z with (ilog2 q) by lia.
  - apply Qlt_shift_div_r; [done|]. rewrite <- pow2_plus.
    by replace (53 + (ilog2 q - 52))%Z with (ilog2 q + 1)%Z by lia.
Qed.

Lemma round_pos_bounds (q : Q) :
  0 < q ->
  pow2 (ilog2 q) <= round_pos q /\ round_pos q <= pow2 (ilog2 q + 1).
Proof.
  intros Hq. destruct (significand_range q Hq) as [H1 H2].
  pose proof (pow2_pos (ilog2 q - 52)) as Hpos.
  unfold round_pos.
  assert (Hlo : (2 ^ 52 <= rne (q / pow2 (ilog2 q - 52)))%Z).
  { rewrite <- (rne_inject_Z (2 ^ 52)). apply rne_mono. exact H1. }
  assert (Hhi : (rne (q / pow2 (ilog2 q - 52)) <= 2 ^ 53)%Z).
  { rewrite <- (rne_inject_Z (2 ^ 53)). apply rne_mono. apply Qlt_le_weak. exact H2. }
  rewrite Zle_Qle in Hlo, Hhi.
  split.
  - assert (E : pow2 (ilog2 q) == pow2 52 * pow2 (ilog2 q - 52)).
    { rewrite <- pow2_plus. by replace (52 + (ilog2 q - 52))%Z with (ilog2 q) by lia. }
    rewrite E. apply Qmult_le_compat_r; [|by apply Qlt_le_weak].
    exact Hlo.
  - assert (E : pow2 (ilog2 q + 1) == pow2 53 * pow2 (ilog2 q - 52)).
    { rewrite <- pow2_plus.
      by replace (53 + (ilog2 q - 52))%Z with (ilog2 q + 1)%Z by lia. }
    rewrite E. apply Qmult_le_compat_r; [|by apply Qlt_le_weak].
    exact Hhi.
Qed.

Lemma round_pos_comp (p q : Q) : 0 < p -> p == q -> round_pos p == round_pos q.
Proof.
  intros Hp Hpq. unfold round_pos. rewrite (ilog2_comp_pos p q Hp Hpq).
  assert (E : p / pow2 (ilog2 q - 52) == q / pow2 (ilog2 q - 52)) by (by rewrite Hpq).
  by rewrite (rne_comp _ _ E).
Qed.

Lemma round_pos_mono (p q : Q) : 0 < p -> p <= q -> round_pos p <= round_pos q.
Proof.
  intros Hp Hpq. assert (Hq : 0 < q) by lra.
  pose proof (ilog2_mono p q Hp Hpq) as Hl.
  destruct (Z.eq_dec (ilog2 p) (ilog2 q)) as [Heq|Hne].
  - unfold round_pos. rewrite Heq.
    pose proof (pow2_pos (ilog2 q - 52)) as Hpos.
    apply Qmult_le_compat_r; [|by apply Qlt_le_weak].
    rewrite <- Zle_Qle. apply rne_mono.
    apply Qmult_le_compat_r; [done|]. apply Qlt_le_weak, Qinv_lt_0_compat, Hpos.
  - destruct (round_pos_bounds p Hp) as [_ H1].
    destruct (round_pos_bounds q Hq) as [H2 _].
    pose proof (pow2_le (ilog2 p + 1) (ilog2 q) ltac:(lia)). lra.
Qed.

Lemma round_pos_pos (q : Q) : 0 < q -> 0 < round_pos q.
Proof.
  intros Hq. destruct (round_pos_bounds q Hq) as [H _].
  pose proof (pow2_pos (ilog2 q)). lra.
Qed.

(** The value [binary64] returns, up to the representation of fractions. *)
Lemma binary64_eq (q : Q) :
  binary64 q ==
    match q ?= 0 with
    | Eq => 0
    | Gt => round_pos q
    | Lt => - round_pos (- q)
    end.
Proof. unfold binary64. apply Qred_correct. Qed.

(** Equal rationals round to the same float. *)
Lemma binary64_comp (p q : Q) : p == q -> binary64 p = binary64 q.
Proof.
  intros Hpq. unfold binary64. apply Qred_complete.
  rewrite (Qcompare_comp _ _ Hpq 0 0 (Qeq_refl 0)).
  destruct (Qcompare_spec q 0) as [H|H|H]; [reflexivity| |].
  - apply Qopp_comp, round_pos_comp; lra.
  - apply round_pos_comp; lra.
Qed.

(** Rounding is monotone. *)
Lemma binary64_mono (p q : Q) : p <= q -> binary64 p <= binary64 q.
Proof.
  intros Hpq. rewrite !binary64_eq.
  destruct (Qcompare_spec p 0) as [Hp|Hp|Hp], (Qcompare_spec q 0) as [Hq|Hq|Hq];
    try lra.
  - pose proof (round_pos_pos q Hq). lra.
  - pose proof (round_pos_pos (- p) ltac:(lra)). lra.
  - pose proof (round_pos_mono (- q) (- p) ltac:(lra) ltac:(lra)). lra.
  - pose proof (round_pos_pos (- p) ltac:(lra)).
    pose proof (round_pos_pos q Hq). lra.
  - by apply round_pos_mono.
Qed.

Lemma binary64_nonneg (q : Q) : 0 <= q -> 0 <= binary64 q.
Proof. intros H. change 0 with (binary64 0). by apply binary64_mono. Qed.

(** Truncation is monotone. *)
Lemma int_mono (x y : Q) : x <= y -> (int x <= int y)%Z.
Proof.
  intros Hxy. unfold int.
  destruct (Qle_bool 0 x) eqn:Ex, (Qle_bool 0 y) eqn:Ey.
  - by apply Qfloor_resp_le.
  - apply Qle_bool_iff in Ex.
    assert (~ 0 <= y) by (rewrite <- Qle_bool_iff; congruence). lra.
  - assert (Hx : ~ 0 <= x) by (rewrite <- Qle_bool_iff; congruence).
    apply Qle_bool_iff in Ey.
    pose proof (Qfloor_resp_le 0 y Ey) as Hy. change (Qfloor 0) with 0%Z in Hy.
    pose proof (Qceiling_lt x) as Hc.
    assert (inject_Z (Qceiling x - 1) < inject_Z 0) as Hc'.
    { apply Qlt_trans with x; [exact Hc | apply Qnot_le_lt, Hx]. }
    rewrite <- Zlt_Qlt in Hc'. lia.
  - by apply Qceiling_resp_le.
Qed.

End PyFloatFacts.

(** ** The progress percentage *)

Lemma progress_percent_defined (index total : nat) :
  (0 < total)%nat -> exists p, progress_percent index total = inr p.
Proof.
  intros H. unfold progress_percent, PyFloat.truediv.
  destruct (Z.eqb_spec (Z.of_nat total) 0) as [E|_]; [lia|]. eauto.
Qed.

Lemma progress_percent_mono (i j total : nat) (pi pj : Z) :
  (i <= j)%nat ->
  progress_percent i total = inr pi ->
  progress_percent j total = inr pj ->
  pi <= pj.
Proof.
  intros Hij. unfold progress_percent, PyFloat.truediv.
  destruct (Z.eqb_spec (Z.of_nat total) 0) as [E|Hne]; [discriminate|].
  intros [= <-] [= <-].
  apply PyFloatFacts.int_mono. unfold PyFloat.mul.
  apply PyFloatFacts.binary64_mono.
  apply Qmult_le_compat_r; [|by vm_compute].
  apply PyFloatFacts.binary64_mono.
  apply Qmult_le_compat_r.
  - rewrite <- Zle_Qle. lia.
  - apply Qlt_le_weak, Qinv_lt_0_compat. change 0%Q with (inject_Z 0).
    rewrite <- Zlt_Qlt. lia.
Qed.

Lemma progress_percent_last (total : nat) :
  (0 < total)%nat -> progress_percent (total - 1) total = inr 100.
Proof.
  intros H. unfold progress_percent, PyFloat.truediv.
  destruct (Z.eqb_spec (Z.of_nat total) 0) as [E|Hne]; [lia|].
  replace (Z.of_nat (total - 1) + 1) with (Z.of_nat total) by lia.
  rewrite (PyFloatFacts.binary64_comp _ 1%Q).
  - vm_compute. reflexivity.
  - apply Qmult_inv_r. change 0%Q with (inject_Z 0). rewrite inject_Z_injective. lia.
Qed.

(** The model of binary64 agrees with the hardware floats on the samples
    used below. *)
Example binary64_matches_hardware :
  let hw n := PrimFloat.of_uint63 (Uint63.of_Z n) in
  PyFloat.of_prim (PrimFloat.mul (PrimFloat.div (hw 29) (hw 100)) (hw 100))
    = Some (PyFloat.mul (PyFloat.binary64 (29 # 100)) (PyFloat.of_int 100))
  /\ PyFloat.of_prim (PrimFloat.mul (PrimFloat.div (hw 2) (hw 3)) (hw 100))
    = Some (PyFloat.mul (PyFloat.binary64 (2 # 3)) (PyFloat.of_int 100))
  /\ PyFloat.of_prim
       (PrimFloat.mul (PrimFloat.sub (hw 1) (PrimFloat.div (hw 400) (hw 1000))) (hw 100))
    = Some (PyFloat.mul (PyFloat.sub (PyFloat.of_int 1) (PyFloat.binary64 (400 # 1000)))
              (PyFloat.of_int 100))
  /\ PyFloat.of_prim
       (PrimFloat.mul (PrimFloat.sub (hw 1) (PrimFloat.div (hw 1200) (hw 1000))) (hw 100))
    = Some (PyFloat.mul (PyFloat.sub (PyFloat.of_int 1) (PyFloat.binary64 (1200 # 1000)))
              (PyFloat.of_int 100)).
Proof. vm_compute. repeat split; reflexivity. Qed.

Example binary64_matches_hardware_on_a_grid :
  forallb (fun n => forallb (fun k => PyFloat.same_on (Z.of_nat k) (Z.of_nat n))
                      (seq 1 (2 * n)))
    (seq 1 40) = true.
Proof. vm_compute. reflexivity. Qed.

(** [int()] truncates: 29 of 100 items show 28 percent, 2 of 3 show 66. *)
Example progress_percent_samples :
  progress_percent 28 100 = inr 28
  /\ progress_percent 1 3 = inr 66
  /\ progress_percent 0 0 = inl (ZeroDivisionError (py "division by zero")).
Proof. vm_compute. repeat split; reflexivity. Qed.

(** ** Logs *)

Lemma omap_snoc {A B} (f : A -> option B) (l : list A) (a : A) :
  omap f (l ++ [a]) = omap f l ++ match f a with Some b => [b] | None => [] end.
Proof. rewrite omap_app. simpl. by destruct (f a). Qed.

Lemma omap_cons_eq {A B} (f : A -> option B) (a : A) (l : list A) :
  omap f (a :: l) = match f a with Some b => b :: omap f l | None => omap f l end.
Proof. reflexivity. Qed.

Lemma omap_errors {B} (f : action -> option B) (tail : list action) :
  (forall a, is_error a = true -> f a = None) ->
  Forall (fun a => is_error a = true) tail -> omap f tail = [].
Proof.
  intros Hf. induction 1 as [|a tail Ha _ IH]; [done|].
  simpl. by rewrite (Hf a Ha).
Qed.

Lemma positions_from_app P i l1 l2 :
  positions_from P i (l1 ++ l2)
  = positions_from P i l1 ++ positions_from P (i + length l1) l2.
Proof.
  revert i. induction l1 as [|a l1 IH]; intros i; simpl.
  - by rewrite Nat.add_0_r.
  - rewrite IH. replace (S i + length l1)%nat with (i + S (length l1))%nat by lia.
    by destruct (P a).
Qed.

Lemma positions_from_none P i l :
  Forall (fun a => P a = false) l -> positions_from P i l = [].
Proof.
  intros H. revert i. induction H as [|a l Ha _ IH]; intros i; [done|].
  simpl. by rewrite Ha.
Qed.

Lemma errors_are_not (P : action -> bool) (tail : list action) :
  (forall a, is_error a = true -> P a = false) ->
  Forall (fun a => is_error a = true) tail -> Forall (fun a => P a = false) tail.
Proof. intros HP H. eapply Forall_impl; [exact H | exact HP]. Qed.

Section LoopLog.
Context {Item : Type} (key message : Item -> str) (total : nat).

Lemma loop_log_progress_values i files l :
  loop_log key message total i files l ->
  Forall2 (fun index p => progress_percent index total = inr p)
    (seq i (length files)) (progress_values l).
Proof.
  induction 1 as [|i f rest p r tail l Hp Htail _ IH]; [constructor|].
  unfold progress_values. rewrite !omap_cons_eq, omap_app. cbn [length seq].
  rewrite (omap_errors _ tail); [|by intros [[]|] | done].
  constructor; done.
Qed.

Lemma loop_log_progress_messages i files l :
  loop_log key message total i files l -> progress_messages l = message <$> files.
Proof.
  induction 1 as [|i f rest p r tail l Hp Htail _ IH]; [done|].
  unfold progress_messages. rewrite !omap_cons_eq, omap_app.
  rewrite (omap_errors _ tail); [|by intros [[]|] | done].
  simpl. f_equal. exact IH.
Qed.

Lemma loop_log_stored_paths i files l :
  loop_log key message total i files l -> stored_paths l = key <$> files.
Proof.
  induction 1 as [|i f rest p r tail l Hp Htail _ IH]; [done|].
  unfold stored_paths. rewrite !omap_cons_eq, omap_app.
  rewrite (omap_errors _ tail); [|by intros [[]|] | done].
  simpl. f_equal. exact IH.
Qed.

Lemma loop_log_kinds i files l :
  loop_log key message total i files l ->
  kinds l = files ≫= (fun _ => [Progress; Status]).
Proof.
  induction 1 as [|i f rest p r tail l Hp Htail _ IH]; [done|].
  unfold kinds. rewrite !omap_cons_eq, omap_app.
  rewrite (omap_errors _ tail); [|by intros [[]|] | done].
  simpl. do 2 f_equal. exact IH.
Qed.

Lemma loop_log_no_complete i files l off :
  loop_log key message total i files l -> positions_from is_complete off l = [].
Proof.
  intros H. revert off.
  induction H as [|i f rest p r tail l Hp Htail _ IH]; intros off; [done|].
  cbn [positions_from is_complete]. rewrite positions_from_app.
  rewrite (positions_from_none _ _ tail), IH; [done|].
  eapply errors_are_not; [|done]. by intros [[]|].
Qed.

Lemma loop_log_progress_before_status i files l off rest_log :
  loop_log key message total i files l ->
  (forall off', Forall2 lt (positions_from is_progress off' rest_log)
                           (positions_from is_status off' rest_log)) ->
  Forall2 lt (positions_from is_progress off (l ++ rest_log))
             (positions_from is_status off (l ++ rest_log)).
Proof.
  intros H Hrest. revert off.
  induction H as [|i f rest p r tail l Hp Htail _ IH]; intros off; [apply Hrest|].
  cbn [app positions_from is_progress is_status].
  rewrite <- app_assoc, !(positions_from_app _ _ tail).
  rewrite !(positions_from_none _ _ tail);
    [|eapply errors_are_not; [|done]; by intros [[]|]..].
  simpl. constructor; [lia|]. apply IH.
Qed.

End LoopLog.

(** ** The worker loop *)

Lemma for_enumerate_app {A St} (body : nat -> A -> St -> St) i (l1 l2 : list A) st :
  for_enumerate body i (l1 ++ l2) st
  = for_enumerate body (i + length l1) l2 (for_enumerate body i l1 st).
Proof.
  revert i st. induction l1 as [|a l1 IH]; intros i st; simpl.
  - by rewrite Nat.add_0_r.
  - rewrite IH. by replace (S i + length l1)%nat with (i + S (length l1))%nat by lia.
Qed.

Section Loop.
Context {W Item : Type}.
Variables (key message : Item -> str) (outcome : Item -> W -> item_result * W).
Variables (body : nat -> Item -> worker W -> worker W) (total : nat).

(** What one pass does, in terms of the outcome of its item. *)
Hypothesis body_spec : forall i f st,
  (i < total)%nat ->
  exists p tail,
    progress_percent i total = inr p
    /\ world (body i f st) = (outcome f (world st)).2
    /\ results (body i f st) = <[key f := (outcome f (world st)).1]> (results st)
    /\ log (body i f st)
       = log st ++ Emit (progress_updated p (message f))
                   :: SetResult (key f) (outcome f (world st)).1 :: tail
    /\ Forall (fun a => is_error a = true) tail.

Lemma for_enumerate_log i files st :
  (i + length files <= total)%nat ->
  exists l, log (for_enumerate body i files st) = log st ++ l
            /\ loop_log key message total i files l.
Proof using body_spec.
  revert i st. induction files as [|f rest IH]; intros i st Hlen; simpl in *.
  - exists []. split; [by rewrite app_nil_r | constructor].
  - destruct (body_spec i f st ltac:(lia)) as (p & tail & Hp & _ & _ & Hlog & Htail).
    destruct (IH (S i) (body i f st) ltac:(lia)) as (l & Hl & Hll).
    eexists. split.
    + rewrite Hl, Hlog, <- app_assoc. reflexivity.
    + by constructor.
Qed.

Lemma for_enumerate_results_other i files st (k : str) :
  (i + length files <= total)%nat ->
  k ∉ key <$> files ->
  results (for_enumerate body i files st) !! k = results st !! k.
Proof using body_spec.
  revert i st. induction files as [|f rest IH]; intros i st Hlen Hk; simpl in *; [done|].
  apply not_elem_of_cons in Hk as [Hne Hk].
  rewrite IH by (done || lia).
  destruct (body_spec i f st ltac:(lia)) as (p & tail & _ & _ & Hres & _ & _).
  rewrite Hres. by apply lookup_insert_ne.
Qed.

Lemma for_enumerate_dom i files st :
  (i + length files <= total)%nat ->
  dom (results (for_enumerate body i files st))
  = dom (results st) ∪ list_to_set (key <$> files).
Proof using body_spec.
  revert i st. induction files as [|f rest IH]; intros i st Hlen; simpl in *.
  - by rewrite (right_id_L ∅ (∪)).
  - rewrite IH by lia.
    destruct (body_spec i f st ltac:(lia)) as (p & tail & _ & _ & Hres & _ & _).
    rewrite Hres, dom_insert_L.
    rewrite (comm_L (∪) {[key f]} (dom (results st))).
    by rewrite (assoc_L (∪)).
Qed.

(** The entry of an item that no later item overwrites is its outcome in
    the world the loop has reached. *)
Lemma for_enumerate_lookup files st i f :
  (length files <= total)%nat ->
  files !! i = Some f ->
  key f ∉ key <$> drop (S i) files ->
  results (for_enumerate body 0 files st) !! key f
  = Some (outcome f (world (for_enumerate body 0 (take i files) st))).1.
Proof using body_spec.
  intros Hlen Hi Hlater.
  pose proof (lookup_lt_Some _ _ _ Hi) as Hlt.
  rewrite <- (take_drop_middle files i f Hi) at 1.
  rewrite for_enumerate_app. simpl.
  rewrite for_enumerate_results_other; [| |done].
  2: { rewrite length_take, length_drop. lia. }
  destruct (body_spec (length (take i files))
              f (for_enumerate body 0 (take i files) st)) as (p & tail & _ & _ & Hres & _ & _).
  { rewrite length_take. lia. }
  rewrite Hres. apply lookup_insert_eq.
Qed.

End Loop.

(** ** The two workers are instances of the loop *)

Lemma video_body_spec {W} (rt : Runtime.t W) (quality : str) (total : nat) i f st :
  (i < total)%nat ->
  exists p tail,
    progress_percent i total = inr p
    /\ world (VideoCompressionWorker.run_item rt quality total i f st)
       = (video_outcome rt quality f (world st)).2
    /\ results (VideoCompressionWorker.run_item rt quality total i f st)
       = <[VideoCompressionWorker.path f := (video_outcome rt quality f (world st)).1]>
           (results st)
    /\ log (VideoCompressionWorker.run_item rt quality total i f st)
       = log st ++ Emit (progress_updated p (video_message rt f))
                   :: SetResult (VideoCompressionWorker.path f)
                        (video_outcome rt quality f (world st)).1 :: tail
    /\ Forall (fun a => is_error a = true) tail.
Proof.
  intros Hi. destruct (progress_percent_defined i total ltac:(lia)) as [p Hp].
  exists p. unfold VideoCompressionWorker.run_item, video_outcome. rewrite Hp.
  cbn [world emit].
  destruct (VideoCompressionWorker.compress_video rt quality
              (VideoCompressionWorker.path f) (VideoCompressionWorker.output_path f)
              (world st)) as [[e|r] w'].
  - eexists [_]. cbn [world results log emit record_failure record_success set_world
           VideoCompressionWorker.on_exception ImageConversionWorker.on_exception
           fst snd].
    rewrite <- !app_assoc. repeat split. by repeat constructor.
  - destruct (success r).
    + exists []. cbn [world results log emit record_failure record_success set_world
           VideoCompressionWorker.on_exception ImageConversionWorker.on_exception
           fst snd].
    rewrite <- !app_assoc. repeat split. constructor.
    + eexists [_]. cbn [world results log emit record_failure record_success set_world
           VideoCompressionWorker.on_exception ImageConversionWorker.on_exception
           fst snd].
    rewrite <- !app_assoc. repeat split. by repeat constructor.
Qed.

Lemma image_body_spec {W} (rt : Runtime.t W) (output_dir : str) (quality : Z)
  (total : nat) i f st :
  (i < total)%nat ->
  exists p tail,
    progress_percent i total = inr p
    /\ world (ImageConversionWorker.run_item rt output_dir quality total i f st)
       = (image_outcome rt output_dir quality f (world st)).2
    /\ results (ImageConversionWorker.run_item rt output_dir quality total i f st)
       = <[ImageConversionWorker.path f
           := (image_outcome rt output_dir quality f (world st)).1]> (results st)
    /\ log (ImageConversionWorker.run_item rt output_dir quality total i f st)
       = log st ++ Emit (progress_updated p (image_message rt f))
                   :: SetResult (ImageConversionWorker.path f)
                        (image_outcome rt output_dir quality f (world st)).1 :: tail
    /\ Forall (fun a => is_error a = true) tail.
Proof.
  intros Hi. destruct (progress_percent_defined i total ltac:(lia)) as [p Hp].
  exists p. unfold ImageConversionWorker.run_item, image_outcome. rewrite Hp.
  cbn [world emit].
  destruct (ImageConversionWorker.convert_to_webp rt quality
              (ImageConversionWorker.path f)
              (Runtime.join rt output_dir (ImageConversionWorker.output_name f))
              (world st)) as [[e|[]] w'].
  - eexists [_]. cbn [world results log emit record_failure record_success set_world
           VideoCompressionWorker.on_exception ImageConversionWorker.on_exception
           fst snd].
    rewrite <- !app_assoc. repeat split. by repeat constructor.
  - exists []. cbn [world results log emit record_failure record_success set_world
           VideoCompressionWorker.on_exception ImageConversionWorker.on_exception
           fst snd].
    rewrite <- !app_assoc. repeat split. constructor.
Qed.

(** What [run] leaves behind, for the video worker. *)
Lemma video_run_facts {W} (rt : Runtime.t W) (quality : str)
  (files : list VideoCompressionWorker.file_info) (w : W) :
  let final := VideoCompressionWorker.run rt quality files w in
  (exists l, log final = l ++ [Emit (compression_complete (results final))]
             /\ loop_log VideoCompressionWorker.path (video_message rt)
                  (length files) 0 files l)
  /\ dom (results final) = list_to_set (VideoCompressionWorker.path <$> files)
  /\ (forall i f,
        files !! i = Some f ->
        VideoCompressionWorker.path f
          ∉ VideoCompressionWorker.path <$> drop (S i) files ->
        results final !! VideoCompressionWorker.path f
        = Some (video_outcome rt quality f (video_world_before rt quality files i w)).1).
Proof.
  intros final. subst final. unfold VideoCompressionWorker.run. cbn [log results emit].
  pose proof (fun i f st H => video_body_spec rt quality (length files) i f st H) as Hb.
  split; [|split].
  - destruct (for_enumerate_log _ _ _ _ _ Hb 0 files (init w) ltac:(lia))
      as (l & Hl & Hll).
    exists l. split; [|done]. by rewrite Hl.
  - rewrite (for_enumerate_dom _ _ _ _ _ Hb) by lia.
    cbn [results init]. by rewrite dom_empty_L, (left_id_L ∅ (∪)).
  - intros i f Hi Hlater.
    by rewrite (for_enumerate_lookup _ _ _ _ _ Hb files (init w) i f).
Qed.

(** What [run] leaves behind, for the image worker. *)
Lemma image_run_facts {W} (rt : Runtime.t W) (output_dir : str) (quality : Z)
  (files : list ImageConversionWorker.file_info) (w : W) :
  let final := ImageConversionWorker.run rt output_dir quality files w in
  (exists l, log final = l ++ [Emit (conversion_complete (results final))]
             /\ loop_log ImageConversionWorker.path (image_message rt)
                  (length files) 0 files l)
  /\ dom (results final) = list_to_set (ImageConversionWorker.path <$> files)
  /\ (forall i f,
        files !! i = Some f ->
        ImageConversionWorker.path f
          ∉ ImageConversionWorker.path <$> drop (S i) files ->
        results final !! ImageConversionWorker.path f
        = Some (image_outcome rt output_dir quality f
                  (image_world_before rt output_dir quality files i w)).1).
Proof.
  intros final. subst final. unfold ImageConversionWorker.run. cbn [log results emit].
  pose proof (fun i f st H =>
                image_body_spec rt output_dir quality (length files) i f st H) as Hb.
  split; [|split].
  - destruct (for_enumerate_log _ _ _ _ _ Hb 0 files (init w) ltac:(lia))
      as (l & Hl & Hll).
    exists l. split; [|done]. by rewrite Hl.
  - rewrite (for_enumerate_dom _ _ _ _ _ Hb) by lia.
    cbn [results init]. by rewrite dom_empty_L, (left_id_L ∅ (∪)).
  - intros i f Hi Hlater.
    by rewrite (for_enumerate_lookup _ _ _ _ _ Hb files (init w) i f).
Qed.

Lemma NoDup_later {A B} (g : A -> B) (l : list A) i x :
  NoDup (g <$> l) -> l !! i = Some x -> g x ∉ g <$> drop (S i) l.
Proof.
  intros Hnd Hi. rewrite <- (take_drop_middle l i x Hi) in Hnd.
  rewrite fmap_app, fmap_cons in Hnd.
  apply NoDup_app in Hnd as (_ & _ & Hnd). by apply NoDup_cons in Hnd as [? _].
Qed.

Lemma size_results_NoDup (m : gmap str item_result) (paths : list str) :
  dom m = list_to_set paths -> NoDup paths -> size m = length paths.
Proof.
  intros Hdom Hnd. rewrite <- size_dom, Hdom. by apply size_list_to_set.
Qed.

(** ** Failure isolation and the result map *)

Lemma video_results_of_distinct_paths {W} (rt : Runtime.t W) (quality : str)
  (files : list VideoCompressionWorker.file_info) (w : W) :
  NoDup (VideoCompressionWorker.path <$> files) ->
  let final := VideoCompressionWorker.run rt quality files w in
  stored_paths (log final) = VideoCompressionWorker.path <$> files
  /\ last (log final) = Some (Emit (compression_complete (results final)))
  /\ size (results final) = length files
  /\ forall i f,
       files !! i = Some f ->
       match VideoCompressionWorker.compress_video rt quality
               (VideoCompressionWorker.path f) (VideoCompressionWorker.output_path f)
               (video_world_before rt quality files i w) with
       | (inl e, _) =>
         results final !! VideoCompressionWorker.path f
         = Some (failure (str_of_exception e))
       | (inr r, _) => results final !! VideoCompressionWorker.path f = Some r
       end.
Proof.
  intros Hnd final.
  destruct (video_run_facts rt quality files w) as ((l & Hlog & Hll) & Hdom & Hlk).
  fold final in Hlog, Hdom, Hlk. repeat split.
  - rewrite Hlog. unfold stored_paths. rewrite omap_snoc. simpl. rewrite app_nil_r.
    exact (loop_log_stored_paths _ _ _ _ _ _ Hll).
  - rewrite Hlog. apply last_snoc.
  - rewrite (size_results_NoDup _ _ Hdom Hnd). apply length_fmap.
  - intros i f Hi. specialize (Hlk i f Hi (NoDup_later _ _ _ _ Hnd Hi)).
    unfold video_outcome in Hlk.
    by destruct (VideoCompressionWorker.compress_video rt quality
                   (VideoCompressionWorker.path f) (VideoCompressionWorker.output_path f)
                   (video_world_before rt quality files i w)) as [[e|r] w'].
Qed.

Lemma image_results_of_distinct_paths {W} (rt : Runtime.t W) (output_dir : str)
  (quality : Z) (files : list ImageConversionWorker.file_info) (w : W) :
  NoDup (ImageConversionWorker.path <$> files) ->
  let final := ImageConversionWorker.run rt output_dir quality files w in
  stored_paths (log final) = ImageConversionWorker.path <$> files
  /\ last (log final) = Some (Emit (conversion_complete (results final)))
  /\ size (results final) = length files
  /\ forall i f,
       files !! i = Some f ->
       let output_path :=
         Runtime.join rt output_dir (ImageConversionWorker.output_name f) in
       match ImageConversionWorker.convert_to_webp rt quality
               (ImageConversionWorker.path f) output_path
               (image_world_before rt output_dir quality files i w) with
       | (inl e, _) =>
         results final !! ImageConversionWorker.path f
         = Some (failure (str_of_exception e))
       | (inr _, _) =>
         results final !! ImageConversionWorker.path f
         = Some (ImageConversionWorker.converted output_path)
       end.
Proof.
  intros Hnd final.
  destruct (image_run_facts rt output_dir quality files w)
    as ((l & Hlog & Hll) & Hdom & Hlk).
  fold final in Hlog, Hdom, Hlk. repeat split.
  - rewrite Hlog. unfold stored_paths. rewrite omap_snoc. simpl. rewrite app_nil_r.
    exact (loop_log_stored_paths _ _ _ _ _ _ Hll).
  - rewrite Hlog. apply last_snoc.
  - rewrite (size_results_NoDup _ _ Hdom Hnd). apply length_fmap.
  - intros i f Hi output_path.
    specialize (Hlk i f Hi (NoDup_later _ _ _ _ Hnd Hi)).
    unfold image_outcome in Hlk. fold output_path in Hlk.
    by destruct (ImageConversionWorker.convert_to_webp rt quality
                   (ImageConversionWorker.path f) output_path
                   (image_world_before rt output_dir quality files i w)) as [[e|[]] w'].
Qed.

(** C1, as amended. For a batch whose source paths are pairwise distinct,
    the loop of either worker goes through all N items (one result is
    stored per item, in order, and the completion signal closes the log),
    the result map has exactly N entries, and the entry of each item is the
    result of its own processing: whatever is raised while the item is
    processed becomes a failed result with the message of the exception,
    under the path of that item. *)
Theorem batch_result_one_entry_per_item {W} (rt : Runtime.t W) (w : W)
  (quality : str) (videos : list VideoCompressionWorker.file_info)
  (output_dir : str) (image_quality : Z)
  (images : list ImageConversionWorker.file_info) :
  NoDup (VideoCompressionWorker.path <$> videos) ->
  NoDup (ImageConversionWorker.path <$> images) ->
  let vfinal := VideoCompressionWorker.run rt quality videos w in
  let ifinal := ImageConversionWorker.run rt output_dir image_quality images w in
  (stored_paths (log vfinal) = VideoCompressionWorker.path <$> videos
   /\ last (log vfinal) = Some (Emit (compression_complete (results vfinal)))
   /\ size (results vfinal) = length videos
   /\ forall i f,
        videos !! i = Some f ->
        match VideoCompressionWorker.compress_video rt quality
                (VideoCompressionWorker.path f) (VideoCompressionWorker.output_path f)
                (video_world_before rt quality videos i w) with
        | (inl e, _) =>
          results vfinal !! VideoCompressionWorker.path f
          = Some (failure (str_of_exception e))
        | (inr r, _) => results vfinal !! VideoCompressionWorker.path f = Some r
        end)
  /\ (stored_paths (log ifinal) = ImageConversionWorker.path <$> images
      /\ last (log ifinal) = Some (Emit (conversion_complete (results ifinal)))
      /\ size (results ifinal) = length images
      /\ forall i f,
           images !! i = Some f ->
           let output_path :=
             Runtime.join rt output_dir (ImageConversionWorker.output_name f) in
           match ImageConversionWorker.convert_to_webp rt image_quality
                   (ImageConversionWorker.path f) output_path
                   (image_world_before rt output_dir image_quality images i w) with
           | (inl e, _) =>
             results ifinal !! ImageConversionWorker.path f
             = Some (failure (str_of_exception e))
           | (inr _, _) =>
             results ifinal !! ImageConversionWorker.path f
             = Some (ImageConversionWorker.converted output_path)
           end).
Proof.
  intros Hv Hi. split.
  - by apply video_results_of_distinct_paths.
  - by apply image_results_of_distinct_paths.
Qed.

Lemma batch_result_one_entry_per_item_witness :
  let videos := [Demo.video "a"; Demo.video "broken"] in
  let images := [Demo.picture "a.png"; Demo.picture "x.png"] in
  NoDup (VideoCompressionWorker.path <$> videos)
  /\ NoDup (ImageConversionWorker.path <$> images)
  /\ size (results (VideoCompressionWorker.run Demo.runtime (py "high") videos []))
     = 2%nat
  /\ size (results (ImageConversionWorker.run Demo.runtime (py "out") 85 images []))
     = 2%nat.
Proof.
  intros videos images.
  assert (Hv : NoDup (VideoCompressionWorker.path <$> videos)).
  { apply (bool_decide_unpack _). vm_compute. exact I. }
  assert (Hi : NoDup (ImageConversionWorker.path <$> images)).
  { apply (bool_decide_unpack _). vm_compute. exact I. }
  destruct (batch_result_one_entry_per_item Demo.runtime [] (py "high") videos
              (py "out") 85 images Hv Hi) as [(_ & _ & Hsv & _) (_ & _ & Hsi & _)].
  repeat split; assumption.
Defined.

(** Against C1 as stated: two items with the same source path leave one
    entry in the result map, not two. *)
Lemma duplicate_source_paths_share_an_entry :
  let files := [Demo.video "a"; Demo.video "a"] in
  size (results (VideoCompressionWorker.run Demo.runtime (py "high") files []))
  <> length files.
Proof. vm_compute. discriminate. Qed.

(** ** Order of the events *)

Lemma run_log_order {Item} (key message : Item -> str) (files : list Item)
  (l : list action) (c : action) :
  loop_log key message (length files) 0 files l ->
  kind_of c = Some Complete ->
  is_complete c = true -> is_progress c = false -> is_status c = false ->
  progress_messages (l ++ [c]) = message <$> files
  /\ stored_paths (l ++ [c]) = key <$> files
  /\ Forall2 lt (positions is_progress (l ++ [c])) (positions is_status (l ++ [c]))
  /\ kinds (l ++ [c]) = (files ≫= (fun _ => [Progress; Status])) ++ [Complete]
  /\ positions is_complete (l ++ [c]) = [(length (l ++ [c]) - 1)%nat].
Proof.
  intros Hll Hk Hc Hp Hs. repeat split.
  - unfold progress_messages. rewrite omap_snoc.
    destruct c as [[]|]; try discriminate; simpl; rewrite app_nil_r;
      exact (loop_log_progress_messages _ _ _ _ _ _ Hll).
  - unfold stored_paths. rewrite omap_snoc.
    destruct c as [[]|]; try discriminate; simpl; rewrite app_nil_r;
      exact (loop_log_stored_paths _ _ _ _ _ _ Hll).
  - apply (loop_log_progress_before_status _ _ _ _ _ _ _ _ Hll).
    intros off. simpl. rewrite Hp, Hs. constructor.
  - unfold kinds. rewrite omap_snoc. fold (kinds l). rewrite Hk.
    by rewrite (loop_log_kinds _ _ _ _ _ _ Hll).
  - unfold positions. rewrite positions_from_app.
    rewrite (loop_log_no_complete _ _ _ _ _ _ _ Hll). simpl. rewrite Hc.
    rewrite length_app. simpl. do 2 f_equal. lia.
Qed.

(** C2, as amended. In a run of either worker the progress event of an
    item is emitted before that item is processed, hence before its status
    is known; without the error notifications the log reads progress,
    status, progress, status, ... once per item in item order, and then the
    completion event, which is emitted exactly once and is the last entry
    of the log. *)
Theorem progress_precedes_status_completion_last {W} (rt : Runtime.t W) (w : W)
  (quality : str) (videos : list VideoCompressionWorker.file_info)
  (output_dir : str) (image_quality : Z)
  (images : list ImageConversionWorker.file_info) :
  let vlog := log (VideoCompressionWorker.run rt quality videos w) in
  let ilog := log (ImageConversionWorker.run rt output_dir image_quality images w) in
  (progress_messages vlog = video_message rt <$> videos
   /\ stored_paths vlog = VideoCompressionWorker.path <$> videos
   /\ Forall2 lt (positions is_progress vlog) (positions is_status vlog)
   /\ kinds vlog = (videos ≫= (fun _ => [Progress; Status])) ++ [Complete]
   /\ positions is_complete vlog = [(length vlog - 1)%nat])
  /\ (progress_messages ilog = image_message rt <$> images
      /\ stored_paths ilog = ImageConversionWorker.path <$> images
      /\ Forall2 lt (positions is_progress ilog) (positions is_status ilog)
      /\ kinds ilog = (images ≫= (fun _ => [Progress; Status])) ++ [Complete]
      /\ positions is_complete ilog = [(length ilog - 1)%nat]).
Proof.
  intros vlog ilog. split.
  - destruct (video_run_facts rt quality videos w) as ((l & Hlog & Hll) & _).
    subst vlog. rewrite Hlog. by apply run_log_order.
  - destruct (image_run_facts rt output_dir image_quality images w)
      as ((l & Hlog & Hll) & _).
    subst ilog. rewrite Hlog. by apply run_log_order.
Qed.

(** Against C2 as stated: with a single item the progress event is the
    first entry of the log and the item's status the second. *)
Lemma progress_is_emitted_before_the_status :
  ~ progress_after_status
      (log (VideoCompressionWorker.run Demo.runtime (py "high") [Demo.video "a"] [])).
Proof.
  unfold progress_after_status. vm_compute.
  intros H. inversion H as [|? ? ? ? Hlt _]. subst. lia.
Qed.

(** ** The sequence of percentages *)

Lemma percentages_sorted (total i n : nat) (ps : list Z) :
  Forall2 (fun index p => progress_percent index total = inr p) (seq i n) ps ->
  StronglySorted Z.le ps.
Proof.
  revert i ps. induction n as [|n IH]; intros i ps H; simpl in H.
  - apply Forall2_nil_inv_l in H as ->. constructor.
  - apply Forall2_cons_inv_l in H as (p & ps' & Hp & Hrest & ->).
    constructor; [by apply (IH (S i))|].
    apply Forall_forall. intros q Hq.
    apply list_elem_of_lookup in Hq as [j Hj].
    destruct (Forall2_lookup_r _ _ _ _ _ Hrest Hj) as (index & Hindex & Hq).
    apply lookup_seq in Hindex as [-> _].
    apply (progress_percent_mono i (S i + j) total); [lia|done..].
Qed.

Lemma percentages_end_at_100 (total : nat) (ps : list Z) :
  Forall2 (fun index p => progress_percent index total = inr p) (seq 0 total) ps ->
  last ps = match total with O => None | S _ => Some 100 end.
Proof.
  intros H. pose proof (Forall2_length _ _ _ H) as Hlen. rewrite length_seq in Hlen.
  destruct total as [|n].
  - by destruct ps.
  - rewrite last_lookup, <- Hlen. simpl.
    assert (Hn : seq 0 (S n) !! n = Some n) by (apply lookup_seq; lia).
    destruct (Forall2_lookup_l _ _ _ _ _ H Hn) as (p & -> & Hp).
    pose proof (progress_percent_last (S n) ltac:(lia)) as Hlast.
    replace (S n - 1)%nat with n in Hlast by lia. congruence.
Qed.

Lemma run_percentages {Item} (key message : Item -> str) (files : list Item)
  (l : list action) (c : action) :
  loop_log key message (length files) 0 files l ->
  is_progress c = false ->
  let ps := progress_values (l ++ [c]) in
  Forall2 (fun index p => progress_percent index (length files) = inr p)
    (seq 0 (length files)) ps
  /\ StronglySorted Z.le ps
  /\ last ps = match length files with O => None | S _ => Some 100 end.
Proof.
  intros Hll Hc ps.
  assert (Hps : Forall2 (fun index p => progress_percent index (length files) = inr p)
                  (seq 0 (length files)) ps).
  { subst ps. unfold progress_values. rewrite omap_snoc.
    destruct c as [[]|]; try discriminate; simpl; rewrite app_nil_r;
      exact (loop_log_progress_values _ _ _ _ _ _ Hll). }
  split; [done|]. split.
  - by eapply percentages_sorted.
  - by apply percentages_end_at_100.
Qed.

(** C3, as amended. A run over N items emits N progress events; the k-th
    percentage is [int(k / N * 100)], the float quotient times 100 cut
    towards zero (not rounded to nearest); the percentages never decrease
    and, when there is an item at all, the last one is 100. *)
Theorem progress_percentages {W} (rt : Runtime.t W) (w : W)
  (quality : str) (videos : list VideoCompressionWorker.file_info)
  (output_dir : str) (image_quality : Z)
  (images : list ImageConversionWorker.file_info) :
  let vs := progress_values (log (VideoCompressionWorker.run rt quality videos w)) in
  let ips := progress_values
              (log (ImageConversionWorker.run rt output_dir image_quality images w)) in
  (length vs = length videos
   /\ Forall2 (fun index p => progress_percent index (length videos) = inr p)
        (seq 0 (length videos)) vs
   /\ StronglySorted Z.le vs
   /\ last vs = match length videos with O => None | S _ => Some 100 end)
  /\ (length ips = length images
      /\ Forall2 (fun index p => progress_percent index (length images) = inr p)
           (seq 0 (length images)) ips
      /\ StronglySorted Z.le ips
      /\ last ips = match length images with O => None | S _ => Some 100 end).
Proof.
  intros vs ips. split.
  - destruct (video_run_facts rt quality videos w) as ((l & Hlog & Hll) & _).
    subst vs. rewrite Hlog.
    destruct (run_percentages _ _ _ _ (Emit (compression_complete
                (results (VideoCompressionWorker.run rt quality videos w)))) Hll eq_refl)
      as (H1 & H2 & H3).
    split; [|done]. apply Forall2_length in H1. by rewrite length_seq in H1.
  - destruct (image_run_facts rt output_dir image_quality images w)
      as ((l & Hlog & Hll) & _).
    subst ips. rewrite Hlog.
    destruct (run_percentages _ _ _ _ (Emit (conversion_complete
                (results (ImageConversionWorker.run rt output_dir image_quality images w))))
                Hll eq_refl)
      as (H1 & H2 & H3).
    split; [|done]. apply Forall2_length in H1. by rewrite length_seq in H1.
Qed.

(** Against C3 as stated: with three items the second percentage is 66,
    where [round(100 * 2 / 3)] is 67. *)
Lemma second_of_three_is_66_not_67 :
  let files := [Demo.video "a"; Demo.video "b"; Demo.video "empty"] in
  progress_values (log (VideoCompressionWorker.run Demo.runtime (py "high") files []))
  <> (fun k => spec_percent k 3) <$> [1; 2; 3]%nat.
Proof. vm_compute. discriminate. Qed.

Example three_items_percentages :
  let files := [Demo.video "a"; Demo.video "b"; Demo.video "empty"] in
  progress_values (log (VideoCompressionWorker.run Demo.runtime (py "high") files []))
  = [33; 66; 100]
  /\ (fun k => spec_percent k 3) <$> [1; 2; 3]%nat = [33; 67; 100].
Proof. vm_compute. split; reflexivity. Qed.

(** ** The video item processor *)

Lemma resolve_settings_defined (quality : str) :
  exists s, VideoCompressionWorker.resolve_settings quality = inr s.
Proof. rewrite resolve_settings_eq. eauto. Qed.



(** [compress_video] once FFmpeg has been located. *)
Lemma compress_video_located {W} (rt : Runtime.t W) (quality input_path output_path : str)
  (w w1 : W) (ffmpeg_path : str) (s : VideoCompressionWorker.settings) :
  VideoCompressionWorker.resolve_settings quality = inr s ->
  Runtime.get_ffmpeg_exe rt w = (inr ffmpeg_path, w1) ->
  VideoCompressionWorker.compress_video rt quality input_path output_path w
  = match VideoCompressionWorker.run_ffmpeg rt
            (VideoCompressionWorker.cmd ffmpeg_path input_path s output_path)
            input_path output_path w1 with
    | (inl (FileNotFoundError _), w') =>
      (inr (failure (py "未找到FFmpeg，请确保已安装并添加到系统PATH")), w')
    | (inl e, w') => (inr (failure (str_of_exception e)), w')
    | (inr r, w') => (inr r, w')
    end.
Proof.
  intros Hs Hexe. unfold VideoCompressionWorker.compress_video, bind, lift, try_except.
  rewrite Hs, Hexe.
  destruct (VideoCompressionWorker.run_ffmpeg rt _ input_path output_path w1)
    as [[[]|r] w']; reflexivity.
Qed.

(** The [try] block when the process has exited. *)
Lemma run_ffmpeg_exited {W} (rt : Runtime.t W) (command : list str)
  (input_path output_path : str) (w1 w2 : W) (returncode : Z) (stderr : list Byte.byte) :
  Runtime.Popen_communicate rt command w1 = (inr (returncode, stderr), w2) ->
  VideoCompressionWorker.run_ffmpeg rt command input_path output_path w1
  = if returncode =? 0 then
      match Runtime.getsize rt input_path w2 with
      | (inl e, w3) => (inl e, w3)
      | (inr input_size, w3) =>
        match Runtime.getsize rt output_path w3 with
        | (inl e, w4) => (inl e, w4)
        | (inr output_size, w4) =>
          match PyFloat.truediv output_size input_size with
          | inl e => (inl e, w4)
          | inr quotient =>
            (inr {| success := true;
                    output := Some output_path;
                    input_size := Some input_size;
                    output_size := Some output_size;
                    compression_ratio :=
                      Some (PyFloat.round2
                              (PyFloat.mul (PyFloat.sub (PyFloat.of_int 1) quotient)
                                 (PyFloat.of_int 100)));
                    error := None |}, w4)
          end
        end
      end
    else
      match VideoCompressionWorker.decode_stderr stderr with
      | inl e => (inl e, w2)
      | inr error_msg => (inr (failure (py "FFmpeg错误: " ++ take 200 error_msg)), w2)
      end.
Proof.
  intros Hp. unfold VideoCompressionWorker.run_ffmpeg, bind, lift, ret. rewrite Hp.
  cbn [fst snd]. destruct (returncode =? 0).
  - destruct (Runtime.getsize rt input_path w2) as [[e|input_size] w3]; [done|].
    destruct (Runtime.getsize rt output_path w3) as [[e|output_size] w4]; [done|].
    by destruct (PyFloat.truediv output_size input_size).
  - by destruct (VideoCompressionWorker.decode_stderr stderr).
Qed.

Lemma run_ffmpeg_raised {W} (rt : Runtime.t W) (command : list str)
  (input_path output_path : str) (w1 w2 : W) (e : exception) :
  Runtime.Popen_communicate rt command w1 = (inl e, w2) ->
  VideoCompressionWorker.run_ffmpeg rt command input_path output_path w1 = (inl e, w2).
Proof.
  intros Hp. unfold VideoCompressionWorker.run_ffmpeg, bind. by rewrite Hp.
Qed.



Example strict_decoding_would_raise :
  decode strict Demo.stderr_bytes = None
  /\ decode ignore Demo.stderr_bytes = Some (py "boom").
Proof. vm_compute. split; reflexivity. Qed.



(** C10. Exit code 0 with an input file of 0 bytes: the division raises
    inside the [try] block, the generic handler turns it into a failed
    result carrying the message of the exception, and [compress_video]
    returns normally. *)
Theorem zero_size_input_is_a_failed_result {W} (rt : Runtime.t W)
  (quality input_path output_path : str) (w w1 w2 w3 w4 : W) (ffmpeg_path : str)
  (s : VideoCompressionWorker.settings) (stderr : list Byte.byte) (size_out : Z) :
  VideoCompressionWorker.resolve_settings quality = inr s ->
  Runtime.get_ffmpeg_exe rt w = (inr ffmpeg_path, w1) ->
  Runtime.Popen_communicate rt
    (VideoCompressionWorker.cmd ffmpeg_path input_path s output_path) w1
  = (inr (0, stderr), w2) ->
  Runtime.getsize rt input_path w2 = (inr 0, w3) ->
  Runtime.getsize rt output_path w3 = (inr size_out, w4) ->
  let failed :=
    {| success := false; output := None; input_size := None;
       output_size := None; compression_ratio := None;
       error := Some (str_of_exception (ZeroDivisionError (py "division by zero"))) |} in
  VideoCompressionWorker.compress_video rt quality input_path output_path w
  = (inr failed, w4)
  /\ forall (total index : nat) (st : worker W),
       (index < total)%nat -> world st = w ->
       let st' :=
         VideoCompressionWorker.run_item rt quality total index
           {| VideoCompressionWorker.path := input_path;
              VideoCompressionWorker.output_path := output_path |} st in
       results st' !! input_path = Some failed
       /\ failed_count st' = S (failed_count st)
       /\ succeeded_count st' = succeeded_count st
       /\ world st' = w4.
Proof.
  intros Hs Hexe Hp Hin Hout failed.
  assert (Hcv : VideoCompressionWorker.compress_video rt quality input_path output_path w
                = (inr failed, w4)).
  { rewrite (compress_video_located _ _ _ _ _ _ _ _ Hs Hexe).
    rewrite (run_ffmpeg_exited _ _ _ _ _ _ _ _ Hp). simpl (0 =? 0).
    rewrite Hin, Hout. reflexivity. }
  split; [exact Hcv|].
  intros total index st Hlt Hw st'. subst st'.
  destruct (progress_percent_defined index total ltac:(lia)) as [p Hp'].
  unfold VideoCompressionWorker.run_item. rewrite Hp'.
  cbn [world emit VideoCompressionWorker.path VideoCompressionWorker.output_path].
  rewrite Hw, Hcv.
  cbn [success failed world results failed_count succeeded_count emit record_failure
       set_world].
  split; [apply lookup_insert_eq | done].
Qed.

Lemma zero_size_input_is_a_failed_result_witness :
  (VideoCompressionWorker.compress_video Demo.runtime (py "high")
     (py "empty.mp4") (py "out/empty_compressed.mp4") []).1
  = inr (failure (py "division by zero")).
Proof.
  destruct (zero_size_input_is_a_failed_result Demo.runtime (py "high")
              (py "empty.mp4") (py "out/empty_compressed.mp4")
              [] [] _ _ _ (py "ffmpeg.exe")
              {| VideoCompressionWorker.crf := 18;
                 VideoCompressionWorker.preset := py "slow" |}
              [] 48
              ltac:(vm_compute; reflexivity) ltac:(reflexivity)
              ltac:(vm_compute; reflexivity) ltac:(vm_compute; reflexivity)
              ltac:(vm_compute; reflexivity)) as [H _].
  rewrite H. reflexivity.
Defined.

(** ** The image item processor *)

Lemma has_alpha_spec (img : Runtime.image) :
  ImageConversionWorker.has_alpha img = true
  <-> Runtime.mode img = py "RGBA" \/ Runtime.mode img = py "LA"
      \/ (Runtime.mode img = py "P" /\ py "transparency" ∈ Runtime.info img).
Proof.
  unfold ImageConversionWorker.has_alpha.
  rewrite orb_true_iff, andb_true_iff, !bool_decide_eq_true.
  rewrite elem_of_cons, list_elem_of_singleton. tauto.
Qed.

Lemma convert_to_webp_opened {W} (rt : Runtime.t W) (quality : Z)
  (input_path output_path : str) (w w1 : W) (opened : Runtime.image) :
  Runtime.Image_open rt input_path w = (inr opened, w1) ->
  ImageConversionWorker.convert_to_webp rt quality input_path output_path w
  = if ImageConversionWorker.has_alpha opened then
      match Runtime.convert rt opened (py "RGBA") w1 with
      | (inl e, w2) => (inl e, Runtime.close rt opened w2)
      | (inr rgba, w2) =>
        let '(r, w3) := Runtime.save rt rgba output_path (py "WEBP") quality false w2 in
        (r, Runtime.close rt opened w3)
      end
    else
      let '(r, w3) := Runtime.save rt opened output_path (py "WEBP") quality false w1 in
      (r, Runtime.close rt opened w3).
Proof.
  intros Ho. unfold ImageConversionWorker.convert_to_webp, bind, finally, ret.
  rewrite Ho. destruct (ImageConversionWorker.has_alpha opened); [|done].
  by destruct (Runtime.convert rt opened (py "RGBA") w1) as [[e|rgba] w2].
Qed.

(** C9. An opened image of mode RGBA or LA, or of mode P with a
    transparency entry in its info, is converted to RGBA and it is the
    converted image that is saved; the image is saved as WEBP with the
    given quality and [lossless=False]; the result of a converted item has
    its output path and no size or ratio entry; the result of a failed
    item carries the message of the exception as it is. *)
Theorem image_item_processing {W} (rt : Runtime.t W) (output_dir : str)
  (quality : Z) (total index : nat) (f : ImageConversionWorker.file_info)
  (st : worker W) :
  (index < total)%nat ->
  let input_path := ImageConversionWorker.path f in
  let output_path := Runtime.join rt output_dir (ImageConversionWorker.output_name f) in
  let st' := ImageConversionWorker.run_item rt output_dir quality total index f st in
  (forall img,
      ImageConversionWorker.has_alpha img = true
      <-> Runtime.mode img = py "RGBA" \/ Runtime.mode img = py "LA"
          \/ (Runtime.mode img = py "P" /\ py "transparency" ∈ Runtime.info img))
  /\ (forall opened w1,
        Runtime.Image_open rt input_path (world st) = (inr opened, w1) ->
        ImageConversionWorker.convert_to_webp rt quality input_path output_path (world st)
        = if ImageConversionWorker.has_alpha opened then
            match Runtime.convert rt opened (py "RGBA") w1 with
            | (inl e, w2) => (inl e, Runtime.close rt opened w2)
            | (inr rgba, w2) =>
              let '(r, w3) :=
                Runtime.save rt rgba output_path (py "WEBP") quality false w2 in
              (r, Runtime.close rt opened w3)
            end
          else
            let '(r, w3) :=
              Runtime.save rt opened output_path (py "WEBP") quality false w1 in
            (r, Runtime.close rt opened w3))
  /\ match ImageConversionWorker.convert_to_webp rt quality input_path output_path
             (world st) with
     | (inr _, _) =>
       results st' !! input_path
       = Some {| success := true; output := Some output_path; input_size := None;
                 output_size := None; compression_ratio := None; error := None |}
     | (inl e, _) =>
       results st' !! input_path
       = Some {| success := false; output := None; input_size := None;
                 output_size := None; compression_ratio := None;
                 error := Some (str_of_exception e) |}
     end.
Proof.
  intros Hlt input_path output_path st'. split; [apply has_alpha_spec|]. split.
  - intros opened w1 Ho. by apply convert_to_webp_opened.
  - destruct (image_body_spec rt output_dir quality total index f st Hlt)
      as (p & tail & _ & _ & Hres & _ & _).
    fold st' in Hres. rewrite Hres. unfold image_outcome.
    fold input_path output_path.
    destruct (ImageConversionWorker.convert_to_webp rt quality input_path output_path
                (world st)) as [[e|[]] w']; apply lookup_insert_eq.
Qed.

Lemma image_item_processing_witness :
  let st' :=
    ImageConversionWorker.run_item Demo.runtime (py "out") 85 1 0
      (Demo.picture "p.gif") (init []) in
  (0 < 1)%nat
  /\ results st' !! py "p.gif"
     = Some (ImageConversionWorker.converted (py "out/p.gif.webp"))
  /\ world st'
     = [Demo.Open (py "p.gif");
        Demo.Convert
          {| Runtime.mode := py "P"; Runtime.info := [py "transparency"];
             Runtime.pixels := 2 |} (py "RGBA");
        Demo.Save
          {| Runtime.mode := py "RGBA"; Runtime.info := [py "transparency"];
             Runtime.pixels := 2 |} (py "out/p.gif.webp") (py "WEBP") 85 false;
        Demo.Close
          {| Runtime.mode := py "P"; Runtime.info := [py "transparency"];
             Runtime.pixels := 2 |}].
Proof.
  intros st'. split; [lia|].
  destruct (image_item_processing Demo.runtime (py "out") 85 1 0
              (Demo.picture "p.gif") (init []) ltac:(lia)) as (_ & Hsave & H).
  split.
  - vm_compute in H. vm_compute. exact H.
  - vm_compute. reflexivity.
Defined.

(* ===================================================================== *)
(** * More properties of the code *)
(* ===================================================================== *)

(** ** The name resolvers, one call *)

(** The loop returns the first candidate that is free. *)
Lemma unique_name_loop_first_free template existing fuel output_name counter name :
  unique_name_loop template existing fuel output_name counter = Some name ->
  (name = output_name /\ output_name ∉ existing)
  \/ (output_name ∈ existing
      /\ exists k, (counter <= k)%nat
                   /\ name = template k
                   /\ (forall j, (counter <= j < k)%nat -> template j ∈ existing)
                   /\ template k ∉ existing).
Proof.
  revert output_name counter. induction fuel as [|fuel IH]; intros o c H; [done|].
  simpl in H. case_bool_decide as Hin.
  - right. split; [done|].
    apply IH in H as [[-> Hfree]|(Hc & k & Hk & -> & Hbelow & Hfree)].
    + exists c. repeat split; [lia| |done]. intros j Hj. lia.
    + exists k. repeat split; [lia| |done].
      intros j Hj. destruct (decide (j = c)) as [->|]; [done|]. apply Hbelow. lia.
  - injection H as <-. by left.
Qed.

Lemma resolver_first_free (base_name sfx : str) (existing : list str) :
  let template := fun counter => base_name ++ py "_" ++ str_of_nat counter ++ sfx in
  exists name,
    unique_name_loop template existing (S (length existing)) (base_name ++ sfx) 1
    = Some name
    /\ ((name = base_name ++ sfx /\ base_name ++ sfx ∉ existing)
        \/ (base_name ++ sfx ∈ existing
            /\ exists k, (1 <= k <= length existing)%nat
                         /\ name = template k
                         /\ (forall j, (1 <= j < k)%nat -> template j ∈ existing)
                         /\ template k ∉ existing)).
Proof.
  intros template. destruct (resolver_call base_name sfx existing) as (name & Hname & _).
  exists name. split; [done|].
  apply unique_name_loop_first_free in Hname
    as [?|(Hin & k & Hk & -> & Hbelow & Hfree)]; [by left|].
  right. split; [done|]. exists k. repeat split; try done.
  (* the k - 1 templates below k and the first name are distinct and taken *)
  assert (Hnd : NoDup (candidates template (base_name ++ sfx) 1 (k - 1))).
  { apply NoDup_cons. split.
    - intros (j & Hj & _)%list_elem_of_fmap. apply (f_equal length) in Hj.
      unfold template in Hj. rewrite !length_app in Hj.
      change (length (py "_")) with 1%nat in Hj. lia.
    - apply NoDup_fmap_2_strong; [|apply NoDup_seq].
      intros i j _ _ H. unfold template in H.
      apply app_inv_head, app_inv_head, app_inv_tail in H. by apply str_of_nat_inj. }
  assert (Hsub : forall x, x ∈ candidates template (base_name ++ sfx) 1 (k - 1)
                           -> x ∈ existing).
  { intros x [->|(j & -> & Hj)%list_elem_of_fmap]%elem_of_cons; [done|].
    apply elem_of_seq in Hj. apply Hbelow. lia. }
  pose proof (submseteq_length _ _ (NoDup_submseteq _ _ Hnd Hsub)) as Hlen.
  unfold candidates in Hlen. simpl in Hlen. rewrite length_fmap, length_seq in Hlen. lia.
Qed.

(** X1. Both resolvers return the plain name (base name and target suffix)
    when it is free; otherwise they return the numbered name with the
    least counter, from 1 on, whose name is free, and that counter is at
    most the number of committed names. *)
Theorem resolvers_return_the_first_free_name (pf : OsPath.platform)
  (filename : str) (existing_names : list str) :
  let base_name := (OsPath.splitext pf filename).1 in
  let numbered sfx k := base_name ++ py "_" ++ str_of_nat k ++ sfx in
  let first_free sfx name :=
    (name = base_name ++ sfx /\ base_name ++ sfx ∉ existing_names)
    \/ (base_name ++ sfx ∈ existing_names
        /\ exists k, (1 <= k <= length existing_names)%nat
                     /\ name = numbered sfx k
                     /\ (forall j, (1 <= j < k)%nat -> numbered sfx j ∈ existing_names)
                     /\ numbered sfx k ∉ existing_names) in
  (exists name, generate_output_name pf filename existing_names = Some name
                /\ first_free (py ".webp") name)
  /\ (exists name, generate_video_output_name pf filename existing_names = Some name
                   /\ first_free (py "_compressed.mp4") name).
Proof.
  intros base_name numbered first_free. split.
  - apply (resolver_first_free base_name (py ".webp") existing_names).
  - apply (resolver_first_free base_name (py "_compressed.mp4") existing_names).
Qed.

(** ** Resolved names and the classifier *)

Lemma rfind_from_absent (s : str) (c : N) (i acc : Z) :
  c ∉ s -> rfind_from s c i acc = acc.
Proof.
  revert i acc. induction s as [|x s IH]; intros i acc H; [done|].
  apply not_elem_of_cons in H as [Hne Hs]. simpl.
  destruct (N.eqb_spec x c) as [->|_]; [done|]. by apply IH.
Qed.

Lemma rfind_from_last (s t : str) (c : N) (i acc : Z) :
  c ∉ t -> rfind_from (s ++ c :: t) c i acc = i + Z.of_nat (length s).
Proof.
  intros Ht. revert i acc. induction s as [|x s IH]; intros i acc; simpl.
  - rewrite N.eqb_refl, rfind_from_absent by done. lia.
  - rewrite IH. lia.
Qed.

Lemma rfind_last (s t : str) (c : N) :
  c ∉ t -> rfind (s ++ c :: t) c = Z.of_nat (length s).
Proof. intros. unfold rfind. by rewrite rfind_from_last. Qed.

Lemma rfind_below (p : str) (c : N) (n : nat) :
  (forall j, (n <= j)%nat -> p !! j <> Some c) -> rfind p c < Z.of_nat n.
Proof.
  intros H. destruct (rfind_spec p c) as [->|[H0 Hc]]; [lia|].
  destruct (Z.lt_ge_cases (rfind p c) (Z.of_nat n)) as [|Hge]; [done|].
  exfalso. apply (H (Z.to_nat (rfind p c))); [lia|done].
Qed.

(** The extension is empty or starts at the last dot. *)
Lemma splitext_ext_cases (pf : OsPath.platform) (p : str) :
  (OsPath.splitext pf p).2 = []
  \/ (OsPath.splitext pf p).2 = slice_from p (rfind p OsPath.extsep).
Proof.
  unfold OsPath.splitext, OsPath._splitext.
  match goal with |- context [if ?c then _ else _] => destruct c end; [|by left].
  match goal with
  | |- context [OsPath.skip_leading_dots ?f ?q ?i ?d] =>
    destruct (skip_leading_dots_cases f q i d) as [-> | ->]
  end; [by left | by right].
Qed.

Lemma slice_one (p : str) (j : Z) (x : N) :
  0 <= j -> p !! Z.to_nat j = Some x -> slice p j (j + 1) = [x].
Proof.
  intros Hj Hx. unfold slice.
  replace (Z.to_nat (j + 1) - Z.to_nat j)%nat with 1%nat by lia.
  apply list_elem_of_split_length in Hx as (l1 & l2 & -> & ->).
  by rewrite drop_app_length.
Qed.

Lemma skip_leading_dots_found fuel (p : str) (i d j : Z) (x : N) :
  0 <= i -> i <= j < d ->
  p !! Z.to_nat j = Some x -> x <> OsPath.extsep ->
  (Z.to_nat (d - i) <= fuel)%nat ->
  OsPath.skip_leading_dots fuel p i d = (slice_to p d, slice_from p d).
Proof.
  revert i. induction fuel as [|fuel IH]; intros i Hi Hij Hx Hne Hfuel; [lia|].
  simpl. destruct (Z.ltb_spec i d); [|lia].
  case_bool_decide as Hdot; [done|].
  apply IH; try done; try lia.
  destruct (decide (i = j)) as [->|]; [|lia].
  rewrite (slice_one p j x) in Hdot; [|lia|done]. congruence.
Qed.

(** A name that ends in a character which is neither a dot nor a
    separator, a dot, and a tail without dots and separators, is split at
    that dot. *)
Lemma splitext_clean (pf : OsPath.platform) (stem tail : str) (x : N) :
  x <> OsPath.extsep -> x <> 92%N -> x <> 47%N ->
  OsPath.extsep ∉ tail -> 92%N ∉ tail -> 47%N ∉ tail ->
  OsPath.splitext pf (stem ++ [x] ++ OsPath.extsep :: tail)
  = (stem ++ [x], OsPath.extsep :: tail).
Proof.
  intros Hx1 Hx2 Hx3 Ht1 Ht2 Ht3.
  set (p := stem ++ [x] ++ OsPath.extsep :: tail).
  assert (Hp : p = (stem ++ [x]) ++ OsPath.extsep :: tail)
    by (subst p; by rewrite <- app_assoc).
  assert (Hdot : rfind p OsPath.extsep = Z.of_nat (length stem) + 1).
  { rewrite Hp, rfind_last by done. rewrite length_app. simpl. lia. }
  assert (Hsep : forall c, c <> x -> c <> OsPath.extsep -> c ∉ tail ->
                           rfind p c < Z.of_nat (length stem)).
  { intros c Hc1 Hc2 Hc3. apply rfind_below. intros j Hj Hlk.
    subst p. rewrite lookup_app_r in Hlk by lia.
    destruct (j - length stem)%nat as [|[|n]] eqn:E; simpl in Hlk.
    - congruence.
    - congruence.
    - apply Hc3. by eapply list_elem_of_lookup_2. }
  unfold OsPath.splitext, OsPath._splitext. fold p.
  set (si := match OsPath.altsep pf with
             | Some a => Z.max (rfind p (OsPath.sep pf)) (rfind p a)
             | None => rfind p (OsPath.sep pf)
             end).
  assert (Hsi : -1 <= si < Z.of_nat (length stem)).
  { subst si. destruct pf; simpl.
    - pose proof (Hsep 92%N ltac:(congruence) ltac:(done) Ht2).
      pose proof (Hsep 47%N ltac:(congruence) ltac:(done) Ht3).
      destruct (rfind_spec p 92%N) as [?|[? _]], (rfind_spec p 47%N) as [?|[? _]]; lia.
    - pose proof (Hsep 47%N ltac:(congruence) ltac:(done) Ht3).
      destruct (rfind_spec p 47%N) as [?|[? _]]; lia. }
  rewrite Hdot. destruct (Z.ltb_spec si (Z.of_nat (length stem) + 1)); [|lia].
  rewrite (skip_leading_dots_found _ p (si + 1) _ (Z.of_nat (length stem)) x);
    try done; try lia.
  - unfold slice_to, slice_from.
    replace (Z.to_nat (Z.of_nat (length stem) + 1)) with (length (stem ++ [x])).
    + by rewrite Hp, take_app_length, drop_app_length.
    + rewrite length_app. simpl. lia.
  - rewrite Nat2Z.id. subst p. by rewrite lookup_app_r, Nat.sub_diag by lia.
Qed.

(** X2. A name that the image resolver returns is accepted neither as an
    image nor as a video; a name that the video resolver returns has the
    extension [.mp4] and is accepted as a video, not as an image. *)
Theorem resolved_names_and_the_classifier (pf : OsPath.platform)
  (filename : str) (existing_names : list str) :
  (exists name,
      generate_output_name pf filename existing_names = Some name
      /\ is_image_file pf name image_extensions = false
      /\ is_video_file pf name = false)
  /\ (exists name,
      generate_video_output_name pf filename existing_names = Some name
      /\ (OsPath.splitext pf name).2 = py ".mp4"
      /\ is_video_file pf name = true
      /\ is_image_file pf name image_extensions = false).
Proof.
  split.
  - destruct (resolver_call (OsPath.splitext pf filename).1 (py ".webp") existing_names)
      as (name & Hname & _ & stem & ->).
    exists (stem ++ py ".webp"). split; [exact Hname|].
    assert (Hext : (OsPath.splitext pf (stem ++ py ".webp")).2 = []
                   \/ (OsPath.splitext pf (stem ++ py ".webp")).2 = py ".webp").
    { destruct (splitext_ext_cases pf (stem ++ py ".webp")) as [H|H]; [by left|].
      right. rewrite H. change (py ".webp") with (OsPath.extsep :: py "webp").
      rewrite rfind_last.
      - unfold slice_from. by rewrite Nat2Z.id, drop_app_length.
      - apply (bool_decide_unpack _). vm_compute. exact I. }
    unfold is_image_file, is_video_file.
    destruct Hext as [-> | ->]; split; vm_compute; reflexivity.
  - destruct (resolver_call (OsPath.splitext pf filename).1 (py "_compressed.mp4")
                existing_names) as (name & Hname & _ & stem & ->).
    exists (stem ++ py "_compressed.mp4"). split; [exact Hname|].
    assert (Hsplit : OsPath.splitext pf (stem ++ py "_compressed.mp4")
                     = (stem ++ py "_compressed", py ".mp4")).
    { change (py "_compressed.mp4")
        with (py "_compresse" ++ [100%N] ++ OsPath.extsep :: py "mp4").
      rewrite (app_assoc stem (py "_compresse")).
      rewrite splitext_clean;
        try (apply (bool_decide_unpack _); vm_compute; exact I); try discriminate.
      by rewrite <- !app_assoc. }
    unfold is_image_file, is_video_file. rewrite Hsplit.
    repeat split; vm_compute; reflexivity.
Qed.

(** ** The counters of a worker *)

#[local] Instance succeeded_dec (r : item_result) : Decision (succeeded r).
Proof. unfold succeeded. apply _. Defined.

Lemma count_success_snoc (rs : list item_result) (r : item_result) :
  count_success (rs ++ [r])
  = (count_success rs + if success r then 1 else 0)%nat
  /\ count_failure (rs ++ [r])
     = (count_failure rs + if success r then 0 else 1)%nat.
Proof.
  unfold count_success, count_failure, succeeded.
  rewrite !filter_app, !length_app, !filter_cons, !filter_nil.
  destruct (success r); split; repeat case_decide; simpl; try lia; done.
Qed.

Lemma count_success_failure (rs : list item_result) :
  (count_success rs + count_failure rs)%nat = length rs.
Proof.
  induction rs as [|r rs IH] using rev_ind; [done|].
  destruct (count_success_snoc rs r) as [-> ->]. rewrite length_app. simpl.
  destruct (success r); lia.
Qed.

Lemma counters_agree_init {W} (w : W) : counters_agree (init w).
Proof. repeat split. Qed.

Lemma counters_agree_step {W} (st st' : worker W) (p : Z) (msg key : str)
  (r : item_result) (tail : list action) :
  counters_agree st ->
  log st' = log st ++ Emit (progress_updated p msg) :: SetResult key r :: tail ->
  results st' = <[key := r]> (results st) ->
  (success r = true /\ tail = []
   /\ succeeded_count st' = S (succeeded_count st)
   /\ failed_count st' = failed_count st)
  \/ (success r = false /\ (exists m, tail = [Emit (error_occurred m)])
      /\ succeeded_count st' = succeeded_count st
      /\ failed_count st' = S (failed_count st)) ->
  counters_agree st'.
Proof.
  intros (Hs & Hf & He & Hr) Hlog Hres Hcases.
  assert (Hst : stored_entries (log st') = stored_entries (log st) ++ [(key, r)]).
  { rewrite Hlog. unfold stored_entries. rewrite omap_app, !omap_cons_eq.
    destruct Hcases as [(_ & -> & _)|(_ & [m ->] & _)]; reflexivity. }
  assert (Her : error_messages (log st')
                = error_messages (log st)
                  ++ match tail with [Emit (error_occurred m)] => [m] | _ => [] end).
  { rewrite Hlog. unfold error_messages. rewrite omap_app, !omap_cons_eq.
    destruct Hcases as [(_ & -> & _)|(_ & [m ->] & _)]; reflexivity. }
  unfold counters_agree. rewrite Hst, Her, fmap_app, reverse_snoc, length_app.
  change (snd <$> [(key, r)]) with [r].
  destruct (count_success_snoc (snd <$> stored_entries (log st)) r) as [-> ->].
  change (list_to_map ((key, r) :: reverse (stored_entries (log st))))
    with (<[key := r]> (list_to_map (reverse (stored_entries (log st)))
                          : gmap str item_result)).
  rewrite Hres, Hr.
  destruct Hcases as [(-> & -> & -> & ->)|(-> & [m ->] & -> & ->)];
    repeat split; simpl; lia.
Qed.

Lemma video_step_counts {W} (rt : Runtime.t W) (quality : str) (total : nat) i f st :
  (i < total)%nat ->
  let st' := VideoCompressionWorker.run_item rt quality total i f st in
  exists p r tail,
    log st' = log st ++ Emit (progress_updated p (video_message rt f))
                        :: SetResult (VideoCompressionWorker.path f) r :: tail
    /\ results st' = <[VideoCompressionWorker.path f := r]> (results st)
    /\ ((success r = true /\ tail = []
         /\ succeeded_count st' = S (succeeded_count st)
         /\ failed_count st' = failed_count st)
        \/ (success r = false /\ (exists m, tail = [Emit (error_occurred m)])
            /\ succeeded_count st' = succeeded_count st
            /\ failed_count st' = S (failed_count st))).
Proof.
  intros Hi st'. subst st'.
  destruct (progress_percent_defined i total ltac:(lia)) as [p Hp].
  exists p. unfold VideoCompressionWorker.run_item. rewrite Hp. cbn [world emit].
  destruct (VideoCompressionWorker.compress_video rt quality
              (VideoCompressionWorker.path f) (VideoCompressionWorker.output_path f)
              (world st)) as [[e|r] w'].
  - eexists _, [_].
    cbn [world results log emit record_failure record_success set_world
         succeeded_count failed_count VideoCompressionWorker.on_exception].
    rewrite <- !app_assoc. split; [reflexivity|]. split; [reflexivity|].
    right. repeat split. eauto.
  - destruct (success r) eqn:Hr.
    + exists r, [].
      cbn [world results log emit record_failure record_success set_world
           succeeded_count failed_count].
      rewrite <- !app_assoc. split; [reflexivity|]. split; [reflexivity|].
      left. by repeat split.
    + exists r. eexists [_].
      cbn [world results log emit record_failure record_success set_world
           succeeded_count failed_count].
      rewrite <- !app_assoc. split; [reflexivity|]. split; [reflexivity|].
      right. repeat split; eauto.
Qed.

Lemma image_step_counts {W} (rt : Runtime.t W) (output_dir : str) (quality : Z)
  (total : nat) i f st :
  (i < total)%nat ->
  let st' := ImageConversionWorker.run_item rt output_dir quality total i f st in
  exists p r tail,
    log st' = log st ++ Emit (progress_updated p (image_message rt f))
                        :: SetResult (ImageConversionWorker.path f) r :: tail
    /\ results st' = <[ImageConversionWorker.path f := r]> (results st)
    /\ ((success r = true /\ tail = []
         /\ succeeded_count st' = S (succeeded_count st)
         /\ failed_count st' = failed_count st)
        \/ (success r = false /\ (exists m, tail = [Emit (error_occurred m)])
            /\ succeeded_count st' = succeeded_count st
            /\ failed_count st' = S (failed_count st))).
Proof.
  intros Hi st'. subst st'.
  destruct (progress_percent_defined i total ltac:(lia)) as [p Hp].
  exists p. unfold ImageConversionWorker.run_item. rewrite Hp. cbn [world emit].
  destruct (ImageConversionWorker.convert_to_webp rt quality
              (ImageConversionWorker.path f)
              (Runtime.join rt output_dir (ImageConversionWorker.output_name f))
              (world st)) as [[e|[]] w'].
  - eexists _, [_].
    cbn [world results log emit record_failure record_success set_world
         succeeded_count failed_count ImageConversionWorker.on_exception].
    rewrite <- !app_assoc. split; [reflexivity|]. split; [reflexivity|].
    right. repeat split. eauto.
  - eexists _, [].
    cbn [world results log emit record_failure record_success set_world
         succeeded_count failed_count].
    rewrite <- !app_assoc. split; [reflexivity|]. split; [reflexivity|].
    left. repeat split.
Qed.

Lemma counters_agree_loop {W Item} (body : nat -> Item -> worker W -> worker W)
  (total : nat) :
  (forall i f st, (i < total)%nat -> counters_agree st -> counters_agree (body i f st)) ->
  forall files i st,
    (i + length files <= total)%nat ->
    counters_agree st -> counters_agree (for_enumerate body i files st).
Proof.
  intros Hbody files. induction files as [|f rest IH]; intros i st Hlen Hst; [done|].
  simpl in *. apply IH; [lia|]. apply Hbody; [lia|done].
Qed.

Lemma counters_agree_emit {W} (s : signal) (st : worker W) :
  (forall m, s <> error_occurred m) -> counters_agree st -> counters_agree (emit s st).
Proof.
  intros Hs (H1 & H2 & H3 & H4). unfold counters_agree, emit. cbn [log results
    succeeded_count failed_count].
  unfold stored_entries, error_messages in *. rewrite !omap_snoc.
  destruct s; try (by rewrite !app_nil_r). by destruct (Hs message).
Qed.

Lemma video_run_counters_agree {W} (rt : Runtime.t W) (quality : str)
  (files : list VideoCompressionWorker.file_info) (w : W) :
  counters_agree (VideoCompressionWorker.run rt quality files w).
Proof.
  unfold VideoCompressionWorker.run. apply counters_agree_emit; [done|].
  apply (counters_agree_loop _ (length files)); [|simpl; lia|apply counters_agree_init].
  intros i f st Hi Hst.
  destruct (video_step_counts rt quality (length files) i f st Hi)
    as (p & r & tail & Hlog & Hres & Hcases).
  by eapply counters_agree_step.
Qed.

Lemma image_run_counters_agree {W} (rt : Runtime.t W) (output_dir : str) (quality : Z)
  (files : list ImageConversionWorker.file_info) (w : W) :
  counters_agree (ImageConversionWorker.run rt output_dir quality files w).
Proof.
  unfold ImageConversionWorker.run. apply counters_agree_emit; [done|].
  apply (counters_agree_loop _ (length files)); [|simpl; lia|apply counters_agree_init].
  intros i f st Hi Hst.
  destruct (image_step_counts rt output_dir quality (length files) i f st Hi)
    as (p & r & tail & Hlog & Hres & Hcases).
  by eapply counters_agree_step.
Qed.

Lemma stored_entries_paths (l : list action) :
  fst <$> stored_entries l = stored_paths l.
Proof.
  unfold stored_entries, stored_paths. induction l as [|a l IH]; [done|].
  rewrite !omap_cons_eq. destruct a as [s|p r]; [exact IH|].
  rewrite fmap_cons. by f_equal.
Qed.

(** X3. When [run] of either worker is over, the count of successes and
    [failed_count] add up to the number of items, the first counts the
    stored results with [success] set and the second the others, and there
    has been exactly one error notification per failure. *)
Theorem worker_counters {W} (rt : Runtime.t W) (w : W)
  (quality : str) (videos : list VideoCompressionWorker.file_info)
  (output_dir : str) (image_quality : Z)
  (images : list ImageConversionWorker.file_info) :
  let vfinal := VideoCompressionWorker.run rt quality videos w in
  let ifinal := ImageConversionWorker.run rt output_dir image_quality images w in
  ((succeeded_count vfinal + failed_count vfinal)%nat = length videos
   /\ succeeded_count vfinal = count_success (snd <$> stored_entries (log vfinal))
   /\ failed_count vfinal = count_failure (snd <$> stored_entries (log vfinal))
   /\ length (error_messages (log vfinal)) = failed_count vfinal)
  /\ ((succeeded_count ifinal + failed_count ifinal)%nat = length images
      /\ succeeded_count ifinal = count_success (snd <$> stored_entries (log ifinal))
      /\ failed_count ifinal = count_failure (snd <$> stored_entries (log ifinal))
      /\ length (error_messages (log ifinal)) = failed_count ifinal).
Proof.
  intros vfinal ifinal. split.
  - destruct (video_run_counters_agree rt quality videos w) as (Hs & Hf & He & _).
    fold vfinal in Hs, Hf, He. repeat split; try done.
    rewrite Hs, Hf, count_success_failure, length_fmap.
    rewrite <- (length_fmap fst), stored_entries_paths.
    destruct (video_run_facts rt quality videos w) as ((l & Hlog & Hll) & _).
    fold vfinal in Hlog. rewrite Hlog. unfold stored_paths. rewrite omap_snoc. simpl.
    rewrite app_nil_r. fold (stored_paths l).
    by rewrite (loop_log_stored_paths _ _ _ _ _ _ Hll), length_fmap.
  - destruct (image_run_counters_agree rt output_dir image_quality images w)
      as (Hs & Hf & He & _).
    fold ifinal in Hs, Hf, He. repeat split; try done.
    rewrite Hs, Hf, count_success_failure, length_fmap.
    rewrite <- (length_fmap fst), stored_entries_paths.
    destruct (image_run_facts rt output_dir image_quality images w)
      as ((l & Hlog & Hll) & _).
    fold ifinal in Hlog. rewrite Hlog. unfold stored_paths. rewrite omap_snoc. simpl.
    rewrite app_nil_r. fold (stored_paths l).
    by rewrite (loop_log_stored_paths _ _ _ _ _ _ Hll), length_fmap.
Qed.

(** ** More on the video item processor *)

Lemma run_ffmpeg_result {W} (rt : Runtime.t W) (command : list str)
  (input_path output_path : str) (w1 : W) :
  match VideoCompressionWorker.run_ffmpeg rt command input_path output_path w1 with
  | (inr r, _) => well_formed_result output_path r
  | (inl _, _) => True
  end.
Proof.
  destruct (Runtime.Popen_communicate rt command w1) as [[e|[rc stderr]] w2] eqn:Hp.
  - by rewrite (run_ffmpeg_raised _ _ _ _ _ _ _ Hp).
  - rewrite (run_ffmpeg_exited _ _ _ _ _ _ _ _ Hp). destruct (rc =? 0).
    + destruct (Runtime.getsize rt input_path w2) as [[e|n] w3]; [done|].
      destruct (Runtime.getsize rt output_path w3) as [[e|m] w4]; [done|].
      destruct (PyFloat.truediv m n); [done|]. left. simpl. eauto 10.
    + destruct (VideoCompressionWorker.decode_stderr stderr); [done|].
      right. simpl. eauto 10.
Qed.

(** X4. Once FFmpeg has been located, [compress_video] never raises:
    whatever happens inside its [try] block comes back as a result dict,
    which is either a success with the output path, both sizes and the
    ratio and no error entry, or a failure with an error message and
    nothing else. *)
Theorem compress_video_returns_once_located {W} (rt : Runtime.t W)
  (quality input_path output_path : str) (w w1 : W) (ffmpeg_path : str) :
  Runtime.get_ffmpeg_exe rt w = (inr ffmpeg_path, w1) ->
  exists r w',
    VideoCompressionWorker.compress_video rt quality input_path output_path w
    = (inr r, w')
    /\ ((success r = true /\ output r = Some output_path /\ error r = None
         /\ is_Some (input_size r) /\ is_Some (output_size r)
         /\ is_Some (compression_ratio r))
        \/ (success r = false /\ (exists m, error r = Some m) /\ output r = None
            /\ input_size r = None /\ output_size r = None
            /\ compression_ratio r = None)).
Proof.
  intros Hexe. destruct (resolve_settings_defined quality) as [s Hs].
  rewrite (compress_video_located _ _ _ _ _ _ _ _ Hs Hexe).
  pose proof (run_ffmpeg_result rt
                (VideoCompressionWorker.cmd ffmpeg_path input_path s output_path)
                input_path output_path w1) as Hr.
  destruct (VideoCompressionWorker.run_ffmpeg rt _ input_path output_path w1)
    as [[e|r] w'].
  - destruct e; eexists _, _; (split; [reflexivity|]); right; simpl; eauto 10.
  - exists r, w'. split; [reflexivity|]. exact Hr.
Qed.

Lemma compress_video_returns_once_located_witness :
  exists r w',
    VideoCompressionWorker.compress_video Demo.runtime (py "medium")
      (py "gone.mp4") (py "out/gone_compressed.mp4") [] = (inr r, w')
    /\ success r = false.
Proof.
  destruct (compress_video_returns_once_located Demo.runtime (py "medium")
              (py "gone.mp4") (py "out/gone_compressed.mp4") [] [] (py "ffmpeg.exe")
              ltac:(reflexivity)) as (r & w' & Hr & Hshape).
  exists r, w'. split; [exact Hr|].
  vm_compute in Hr. injection Hr as <- _. reflexivity.
Defined.

(** X5. When the encoder has exited with 0 and asking for the size of the
    input or of the output raises [FileNotFoundError], the item fails with
    the message that FFmpeg was not found. *)
Theorem missing_file_after_encoding_reads_as_missing_ffmpeg {W} (rt : Runtime.t W)
  (quality input_path output_path : str) (w w1 w2 : W) (ffmpeg_path : str)
  (s : VideoCompressionWorker.settings) (stderr : list Byte.byte) :
  VideoCompressionWorker.resolve_settings quality = inr s ->
  Runtime.get_ffmpeg_exe rt w = (inr ffmpeg_path, w1) ->
  Runtime.Popen_communicate rt
    (VideoCompressionWorker.cmd ffmpeg_path input_path s output_path) w1
  = (inr (0, stderr), w2) ->
  let result :=
    VideoCompressionWorker.compress_video rt quality input_path output_path w in
  let advice := failure (py "未找到FFmpeg，请确保已安装并添加到系统PATH") in
  (forall m w3,
      Runtime.getsize rt input_path w2 = (inl (FileNotFoundError m), w3) ->
      result = (inr advice, w3))
  /\ (forall n w3 m w4,
        Runtime.getsize rt input_path w2 = (inr n, w3) ->
        Runtime.getsize rt output_path w3 = (inl (FileNotFoundError m), w4) ->
        result = (inr advice, w4)).
Proof.
  intros Hs Hexe Hp result advice. subst result.
  rewrite (compress_video_located _ _ _ _ _ _ _ _ Hs Hexe).
  rewrite (run_ffmpeg_exited _ _ _ _ _ _ _ _ Hp). simpl (0 =? 0). split.
  - intros m w3 Hin. by rewrite Hin.
  - intros n w3 m w4 Hin Hout. by rewrite Hin, Hout.
Qed.

Lemma missing_file_after_encoding_reads_as_missing_ffmpeg_witness :
  VideoCompressionWorker.compress_video Demo.runtime (py "high")
    (py "lost.mp4") (py "out/lost_compressed.mp4") []
  = (inr (failure (py "未找到FFmpeg，请确保已安装并添加到系统PATH")),
     [Demo.Popen
        (VideoCompressionWorker.cmd (py "ffmpeg.exe") (py "lost.mp4")
           {| VideoCompressionWorker.crf := 18;
              VideoCompressionWorker.preset := py "slow" |}
           (py "out/lost_compressed.mp4"))]).
Proof.
  destruct (missing_file_after_encoding_reads_as_missing_ffmpeg Demo.runtime (py "high")
              (py "lost.mp4") (py "out/lost_compressed.mp4") [] [] _ (py "ffmpeg.exe")
              {| VideoCompressionWorker.crf := 18;
                 VideoCompressionWorker.preset := py "slow" |} []
              ltac:(vm_compute; reflexivity) ltac:(reflexivity)
              ltac:(vm_compute; reflexivity)) as [H _].
  apply (H (py "[WinError 2]")). vm_compute. reflexivity.
Defined.

(** ** A run without FFmpeg *)

Lemma compress_video_unlocated {W} (rt : Runtime.t W) (quality input_path output_path : str)
  (w w' : W) (e : exception) :
  Runtime.get_ffmpeg_exe rt w = (inl e, w') ->
  VideoCompressionWorker.compress_video rt quality input_path output_path w = (inl e, w').
Proof.
  intros Hexe. destruct (resolve_settings_defined quality) as [s Hs].
  unfold VideoCompressionWorker.compress_video, bind, lift. by rewrite Hs, Hexe.
Qed.

Lemma unlocated_loop {W} (rt : Runtime.t W) (quality : str) (e : exception) (total : nat) :
  (forall w, Runtime.get_ffmpeg_exe rt w = (inl e, w)) ->
  forall files i st,
    (i + length files <= total)%nat ->
    let st' := for_enumerate (VideoCompressionWorker.run_item rt quality total) i files st in
    stored_entries (log st')
    = stored_entries (log st)
      ++ ((fun f => (VideoCompressionWorker.path f, failure (str_of_exception e)))
            <$> files)
    /\ error_messages (log st')
       = error_messages (log st)
         ++ ((fun f => py "压缩失败 "
                       ++ Runtime.basename rt (VideoCompressionWorker.path f)
                       ++ py ": " ++ str_of_exception e) <$> files)
    /\ succeeded_count st' = succeeded_count st
    /\ failed_count st' = (failed_count st + length files)%nat
    /\ world st' = world st
    /\ (forall f, f ∈ files ->
                  results st' !! VideoCompressionWorker.path f
                  = Some (failure (str_of_exception e))).
Proof.
  intros Hexe files. induction files as [|f rest IH]; intros i st Hlen st'.
  - subst st'. simpl. rewrite !app_nil_r. repeat split; try lia.
    intros f Hf. by apply elem_of_nil in Hf.
  - simpl in Hlen. subst st'. cbn [for_enumerate].
    destruct (progress_percent_defined i total ltac:(lia)) as [p Hp].
    set (st1 := emit (error_occurred
                    (py "压缩失败 " ++ Runtime.basename rt (VideoCompressionWorker.path f)
                     ++ py ": " ++ str_of_exception e))
              (record_failure (VideoCompressionWorker.path f)
                 (failure (str_of_exception e))
                 (set_world (world st)
                    (emit (progress_updated p (video_message rt f)) st)))).
    assert (Hst1 : VideoCompressionWorker.run_item rt quality total i f st = st1).
    { unfold VideoCompressionWorker.run_item. rewrite Hp. cbn [world emit].
      by rewrite (compress_video_unlocated _ _ _ _ _ _ _ (Hexe (world st))). }
    rewrite Hst1.
    destruct (IH (S i) st1 ltac:(lia)) as (H1 & H2 & H3 & H4 & H5 & H6).
    assert (Hlog1 : log st1
                    = log st ++ [Emit (progress_updated p (video_message rt f));
                                 SetResult (VideoCompressionWorker.path f)
                                   (failure (str_of_exception e));
                                 Emit (error_occurred
                                   (py "压缩失败 "
                                    ++ Runtime.basename rt (VideoCompressionWorker.path f)
                                    ++ py ": " ++ str_of_exception e))]).
    { subst st1. cbn [log emit record_failure set_world]. by rewrite <- !app_assoc. }
    split; [|split; [|split; [|split; [|split]]]].
    + rewrite H1, Hlog1. unfold stored_entries.
      rewrite omap_app, !omap_cons_eq. cbv beta iota.
      rewrite fmap_cons, <- app_assoc. reflexivity.
    + rewrite H2, Hlog1. unfold error_messages.
      rewrite omap_app, !omap_cons_eq. cbv beta iota.
      rewrite fmap_cons, <- app_assoc. reflexivity.
    + rewrite H3. reflexivity.
    + rewrite H4. subst st1. cbn [failed_count emit record_failure set_world length]. lia.
    + rewrite H5. reflexivity.
    + intros g Hg. apply elem_of_cons in Hg as [Heq|Hg]; [|by apply H6].
      rewrite Heq. clear g Heq.
      destruct (decide (VideoCompressionWorker.path f
                          ∈ VideoCompressionWorker.path <$> rest)) as [Hin|Hnotin].
      * apply list_elem_of_fmap in Hin as (g' & Hpath & Hg'). rewrite Hpath. by apply H6.
      * rewrite (for_enumerate_results_other VideoCompressionWorker.path
                   (video_message rt) (video_outcome rt quality)
                   (VideoCompressionWorker.run_item rt quality total) total
                   (fun i f st H => video_body_spec rt quality total i f st H));
          [|lia|done].
        subst st1. cbn [results emit record_failure]. apply lookup_insert_eq.
Qed.

(** X6. If FFmpeg cannot be located, [run] still goes through the whole
    batch: every item is stored as failed with the message of that
    exception, every item gets the error notification naming it, nothing
    is counted as compressed, and no process is started (the world is the
    one [run] was given). *)
Theorem unlocated_ffmpeg_fails_every_item {W} (rt : Runtime.t W) (quality : str)
  (files : list VideoCompressionWorker.file_info) (w : W) (e : exception) :
  (forall w, Runtime.get_ffmpeg_exe rt w = (inl e, w)) ->
  let final := VideoCompressionWorker.run rt quality files w in
  stored_entries (log final)
  = (fun f => (VideoCompressionWorker.path f, failure (str_of_exception e))) <$> files
  /\ error_messages (log final)
     = (fun f => py "压缩失败 " ++ Runtime.basename rt (VideoCompressionWorker.path f)
                 ++ py ": " ++ str_of_exception e) <$> files
  /\ succeeded_count final = 0%nat
  /\ failed_count final = length files
  /\ world final = w
  /\ (forall f, f ∈ files ->
                results final !! VideoCompressionWorker.path f
                = Some (failure (str_of_exception e)))
  /\ last (log final) = Some (Emit (compression_complete (results final))).
Proof.
  intros Hexe final. subst final. unfold VideoCompressionWorker.run.
  destruct (unlocated_loop rt quality e (length files) Hexe files 0 (init w) ltac:(lia))
    as (H1 & H2 & H3 & H4 & H5 & H6).
  cbn [world results log emit succeeded_count failed_count].
  unfold stored_entries, error_messages in *. rewrite !omap_snoc. simpl.
  rewrite !app_nil_r, H1, H2, H3, H4, H5. repeat split; try done.
  apply last_snoc.
Qed.

Lemma unlocated_ffmpeg_fails_every_item_witness :
  let final :=
    VideoCompressionWorker.run Demo.runtime_without_ffmpeg (py "low")
      [Demo.video "a"; Demo.video "b"] [] in
  failed_count final = 2%nat /\ succeeded_count final = 0%nat /\ world final = [].
Proof.
  destruct (unlocated_ffmpeg_fails_every_item Demo.runtime_without_ffmpeg (py "low")
              [Demo.video "a"; Demo.video "b"] []
              (OtherException (py "No ffmpeg exe could be found."))
              ltac:(reflexivity)) as (_ & _ & H3 & H4 & H5 & _).
  repeat split; assumption.
Defined.

(** ** The availability probe *)

(** X7. [check_ffmpeg] never raises. It answers [(True, None)] exactly
    when FFmpeg is located and the located path exists; otherwise it
    answers [False] with a diagnostic that is not empty, which is the text
    the label of the video tab shows after the warning sign: the stand-in
    text of [set_ffmpeg_status] is not used. *)
Theorem check_ffmpeg_probe {W} (rt : Runtime.t W) (os : Os.t W) (w : W) :
  exists installed message w',
    check_ffmpeg rt os w = (inr (installed, message), w')
    /\ (installed = true
        <-> exists ffmpeg_path w1,
              Runtime.get_ffmpeg_exe rt w = (inr ffmpeg_path, w1)
              /\ (Os.path_exists os ffmpeg_path w1).1 = true)
    /\ (if installed then message = None
        else exists diagnostic,
               message = Some diagnostic /\ diagnostic <> []
               /\ app_check_ffmpeg rt os w
                  = (inr (py "⚠️ " ++ diagnostic,
                          py "color: #e74c3c; font-size: 12px;"), w')).
Proof.
  unfold app_check_ffmpeg, check_ffmpeg, try_except, bind, ret.
  destruct (Runtime.get_ffmpeg_exe rt w) as [[e|ffmpeg_path] w1] eqn:Hexe.
  - eexists false, _, w1. split; [reflexivity|]. split.
    + split; [done|]. by intros (? & ? & [=] & _).
    + eexists. split; [reflexivity|]. split.
      * intros H. vm_compute in H. discriminate H.
      * unfold VideoCompressionSettings.set_ffmpeg_status, or_else.
        change (py "获取FFmpeg失败: ") with (33719%N :: 21462%N :: py "FFmpeg失败: ").
        reflexivity.
  - destruct (Os.path_exists os ffmpeg_path w1) as [[] w2] eqn:Hex.
    + eexists true, None, w2. split; [reflexivity|]. split; [|done].
      split; [|done]. intros _. exists ffmpeg_path, w1. by rewrite Hex.
    + eexists false, _, w2. split; [reflexivity|]. split.
      * split; [done|]. intros (p & w1' & [= <- <-] & H). by rewrite Hex in H.
      * eexists. split; [reflexivity|]. split; [by vm_compute|].
        unfold VideoCompressionSettings.set_ffmpeg_status, or_else.
        vm_compute. reflexivity.
Qed.

(** ** Building the image list *)

Lemma image_add_files_loop_spec (pf : OsPath.platform) (basename : str -> str)
  (files : list str) :
  forall (ftc : list ImageConversionTab.file_entry) (names : list str),
  exists added,
    ImageConversionTab.add_files_loop pf basename files ftc names = Some (ftc ++ added)
    /\ (forall p, p ∈ ImageConversionTab.path <$> (ftc ++ added)
                  <-> p ∈ ImageConversionTab.path <$> ftc \/ p ∈ files)
    /\ (NoDup (ImageConversionTab.path <$> ftc)
        -> NoDup (ImageConversionTab.path <$> (ftc ++ added)))
    /\ NoDup (ImageConversionTab.output_name <$> added)
    /\ (forall n, n ∈ ImageConversionTab.output_name <$> added -> n ∉ names)
    /\ Forall (image_entry_of pf basename files) added.
Proof.
  induction files as [|file_path rest IH]; intros ftc names.
  - exists []. simpl. rewrite app_nil_r. repeat split; try done.
    + intros H. by left.
    + intros [H|H]; [done|]. by apply elem_of_nil in H.
    + constructor.
    + intros n H. by apply elem_of_nil in H.
  - cbn [ImageConversionTab.add_files_loop]. case_bool_decide as Hnew.
    + destruct (resolver_call (OsPath.splitext pf (basename file_path)).1 (py ".webp")
                  names) as (name & Hname & Hfree & Hsfx).
      fold (generate_output_name pf (basename file_path) names) in Hname.
      rewrite Hname.
      set (entry := {| ImageConversionTab.path := file_path;
                       ImageConversionTab.filename := basename file_path;
                       ImageConversionTab.format := upper (OsPath.splitext pf file_path).2;
                       ImageConversionTab.output_name := name;
                       ImageConversionTab.status := py "等待转换";
                       ImageConversionTab.type := py "image" |}).
      destruct (IH (ftc ++ [entry]) (names ++ [name]))
        as (added & Hadd & Hpaths & Hnd & Hnames & Hfresh & Hall).
      exists (entry :: added).
      replace (ftc ++ entry :: added) with ((ftc ++ [entry]) ++ added)
        by (by rewrite <- app_assoc).
      split; [exact Hadd|]. split; [|split; [|split; [|split]]].
      * intros p. rewrite Hpaths, fmap_app, elem_of_app, elem_of_cons.
        change (ImageConversionTab.path <$> [entry]) with [file_path].
        rewrite list_elem_of_singleton. tauto.
      * intros Hftc. apply Hnd. rewrite fmap_app. apply NoDup_app.
        split; [done|]. split; [|apply NoDup_singleton].
        intros p Hp Hp'. apply list_elem_of_singleton in Hp'. by subst.
      * rewrite fmap_cons. apply NoDup_cons. split; [|done].
        intros Hin. apply (Hfresh _ Hin). apply elem_of_app. right.
        by apply list_elem_of_singleton.
      * intros n. rewrite fmap_cons. intros [->|Hn]%elem_of_cons; [done|].
        intros Hin. apply (Hfresh _ Hn). apply elem_of_app. by left.
      * constructor.
        -- repeat split; try done. apply elem_of_cons. by left.
        -- eapply Forall_impl; [exact Hall|]. intros e (H1 & H2).
           split; [|done]. apply elem_of_cons. by right.
    + destruct (IH ftc names) as (added & Hadd & Hpaths & Hnd & Hnames & Hfresh & Hall).
      exists added. split; [exact Hadd|]. split; [|split; [|split; [|split]]]; try done.
      * intros p. rewrite Hpaths, elem_of_cons.
        assert (Hin : file_path ∈ ImageConversionTab.path <$> ftc) by exact Hnew.
        split; [tauto|]. intros [H|[->|H]]; tauto.
      * eapply Forall_impl; [exact Hall|]. intros e (H1 & H2).
        split; [|done]. apply elem_of_cons. by right.
Qed.

Lemma image_add_listed_files (pf : OsPath.platform) (basename : str -> str)
  (files : list str) (ftc : list ImageConversionTab.file_entry) (names : list str) :
  (forall p, p ∈ files -> p ∈ ImageConversionTab.path <$> ftc) ->
  ImageConversionTab.add_files_loop pf basename files ftc names = Some ftc.
Proof.
  induction files as [|file_path rest IH]; intros Hall; [done|].
  cbn [ImageConversionTab.add_files_loop]. rewrite bool_decide_eq_false_2.
  - apply IH. intros p Hp. apply Hall. apply elem_of_cons. by right.
  - intros Hnot. apply Hnot, Hall. apply elem_of_cons. by left.
Qed.

Lemma image_add_files_to_list_spec (pf : OsPath.platform) (basename : str -> str)
  (files : list str) (files_to_convert : list ImageConversionTab.file_entry) :
  exists added,
    ImageConversionTab.add_files_to_list pf basename files files_to_convert
    = Some (files_to_convert ++ added)
    /\ (forall p, p ∈ ImageConversionTab.path <$> (files_to_convert ++ added)
                  <-> p ∈ ImageConversionTab.path <$> files_to_convert \/ p ∈ files)
    /\ (NoDup (ImageConversionTab.path <$> files_to_convert)
        -> NoDup (ImageConversionTab.path <$> (files_to_convert ++ added)))
    /\ (NoDup (ImageConversionTab.output_name <$> files_to_convert)
        -> NoDup (ImageConversionTab.output_name <$> (files_to_convert ++ added)))
    /\ Forall (fun e =>
                 ImageConversionTab.path e ∈ files
                 /\ ImageConversionTab.filename e = basename (ImageConversionTab.path e)
                 /\ ImageConversionTab.format e
                    = upper (OsPath.splitext pf (ImageConversionTab.path e)).2
                 /\ ImageConversionTab.status e = py "等待转换"
                 /\ ImageConversionTab.type e = py "image"
                 /\ py ".webp" `suffix_of` ImageConversionTab.output_name e) added.
Proof.
  unfold ImageConversionTab.add_files_to_list.
  destruct (image_add_files_loop_spec pf basename files files_to_convert
              (ImageConversionTab.output_name <$> files_to_convert))
    as (added & Hadd & Hpaths & Hnd & Hnames & Hfresh & Hall).
  exists added. repeat split; try done.
  - by apply Hpaths.
  - by apply Hpaths.
  - intros Hold. rewrite fmap_app. apply NoDup_app. repeat split; try done.
    intros n Hn Hn'. by apply (Hfresh n Hn').
Qed.


(** X9. Adding files that are all listed already changes nothing; hence
    adding the same files a second time changes nothing. *)
Theorem image_list_add_is_idempotent (pf : OsPath.platform) (basename : str -> str)
  (files : list str) (files_to_convert : list ImageConversionTab.file_entry) :
  exists after,
    ImageConversionTab.add_files_to_list pf basename files files_to_convert = Some after
    /\ ImageConversionTab.add_files_to_list pf basename files after = Some after
    /\ (Forall (fun p => p ∈ ImageConversionTab.path <$> files_to_convert) files
        -> after = files_to_convert).
Proof.
  destruct (image_add_files_loop_spec pf basename files files_to_convert
              (ImageConversionTab.output_name <$> files_to_convert))
    as (added & Hadd & Hpaths & _).
  exists (files_to_convert ++ added). split; [exact Hadd|]. split.
  - apply image_add_listed_files. intros p Hp. apply Hpaths. by right.
  - intros Hall. rewrite Forall_forall in Hall.
    unfold ImageConversionTab.add_files_to_list in Hadd.
    rewrite image_add_listed_files in Hadd by done. by injection Hadd as <-.
Qed.

(** ** Building the video list *)

Lemma video_entry_of_cons {W} (rt : Runtime.t W) (file_path : str) (files : list str)
  (added : list VideoCompressionTab.file_entry) :
  Forall (video_entry_of rt files) added ->
  Forall (video_entry_of rt (file_path :: files)) added.
Proof.
  intros Hall. eapply Forall_impl; [exact Hall|]. intros e (H1 & H2).
  split; [|done]. apply elem_of_cons. by right.
Qed.

Lemma video_add_files_loop_spec {W} (rt : Runtime.t W) (pf : OsPath.platform)
  (files : list str) :
  forall (video_files : list VideoCompressionTab.file_entry) (names : list str) (w : W),
  exists raised added w',
    VideoCompressionTab.add_files_loop rt pf files video_files
      (VideoCompressionTab.path <$> video_files) names w
    = Some (raised, video_files ++ added, w')
    /\ (NoDup (VideoCompressionTab.path <$> video_files)
        -> NoDup (VideoCompressionTab.path <$> (video_files ++ added)))
    /\ NoDup (VideoCompressionTab.output_name <$> added)
    /\ (forall n, n ∈ VideoCompressionTab.output_name <$> added -> n ∉ names)
    /\ Forall (video_entry_of rt files) added
    /\ match raised with
       | None =>
         forall p, p ∈ VideoCompressionTab.path <$> (video_files ++ added)
                   <-> p ∈ VideoCompressionTab.path <$> video_files \/ p ∈ files
       | Some e =>
         exists p w1,
           p ∈ files
           /\ (p ∉ VideoCompressionTab.path <$> (video_files ++ added))
           /\ Runtime.getsize rt p w1 = (inl e, w')
       end.
Proof.
  induction files as [|file_path rest IH]; intros video_files names w.
  - exists None, [], w. simpl. rewrite app_nil_r. repeat split; try done.
    + constructor.
    + intros n H. by apply elem_of_nil in H.
    + intros H. by left.
    + intros [H|H]; [done|]. by apply elem_of_nil in H.
  - cbn [VideoCompressionTab.add_files_loop]. case_bool_decide as Hnew.
    + destruct (Runtime.getsize rt file_path w) as [[e|file_size] w1] eqn:Hsize.
      { exists (Some e), [], w1. rewrite app_nil_r. repeat split; try done.
        - constructor.
        - intros n H. by apply elem_of_nil in H.
        - exists file_path, w. repeat split; try done. apply elem_of_cons. by left. }
      destruct (resolver_call (OsPath.splitext pf (Runtime.basename rt file_path)).1
                  (py "_compressed.mp4") names) as (name & Hname & Hfree & Hsfx).
      fold (generate_video_output_name pf (Runtime.basename rt file_path) names) in Hname.
      rewrite Hname.
      set (entry := {| VideoCompressionTab.path := file_path;
                       VideoCompressionTab.filename := Runtime.basename rt file_path;
                       VideoCompressionTab.size := file_size;
                       VideoCompressionTab.output_name := name;
                       VideoCompressionTab.status := py "等待压缩" |}).
      replace ((VideoCompressionTab.path <$> video_files) ++ [file_path])
        with (VideoCompressionTab.path <$> (video_files ++ [entry]))
        by (by rewrite fmap_app).
      destruct (IH (video_files ++ [entry]) (names ++ [name]) w1)
        as (raised & added & w' & Hadd & Hnd & Hnames & Hfresh & Hall & Hend).
      exists raised, (entry :: added), w'.
      replace (video_files ++ entry :: added) with ((video_files ++ [entry]) ++ added)
        by (by rewrite <- app_assoc).
      split; [exact Hadd|]. split; [|split; [|split; [|split]]].
      * intros Hold. apply Hnd. rewrite fmap_app. apply NoDup_app.
        split; [done|]. split; [|apply NoDup_singleton].
        intros p Hp Hp'. apply list_elem_of_singleton in Hp'. by subst.
      * rewrite fmap_cons. apply NoDup_cons. split; [|done].
        intros Hin. apply (Hfresh _ Hin). apply elem_of_app. right.
        by apply list_elem_of_singleton.
      * intros n. rewrite fmap_cons. intros [->|Hn]%elem_of_cons; [done|].
        intros Hin. apply (Hfresh _ Hn). apply elem_of_app. by left.
      * constructor; [|by apply video_entry_of_cons].
        repeat split; try done; [apply elem_of_cons; by left|by exists w, w1].
      * destruct raised as [e|].
        -- destruct Hend as (p & w2 & Hp & Hnot & Hraise).
           exists p, w2. repeat split; try done. apply elem_of_cons. by right.
        -- intros p. rewrite Hend, fmap_app, elem_of_app, elem_of_cons.
           change (VideoCompressionTab.path <$> [entry]) with [file_path].
           rewrite list_elem_of_singleton. tauto.
    + destruct (IH video_files names w)
        as (raised & added & w' & Hadd & Hnd & Hnames & Hfresh & Hall & Hend).
      exists raised, added, w'. split; [exact Hadd|].
      split; [|split; [|split; [|split]]]; try done.
      * by apply video_entry_of_cons.
      * destruct raised as [e|].
        -- destruct Hend as (p & w2 & Hp & Hnot & Hraise).
           exists p, w2. repeat split; try done. apply elem_of_cons. by right.
        -- intros p. rewrite Hend, elem_of_cons.
           split; [tauto|]. intros [H|[->|H]]; tauto.
Qed.

Lemma video_add_files_to_list_spec {W} (rt : Runtime.t W) (pf : OsPath.platform)
  (files : list str) (video_files : list VideoCompressionTab.file_entry) (w : W) :
  exists raised added w',
    VideoCompressionTab.add_files_to_list rt pf files video_files w
    = Some (raised, video_files ++ added, w')
    /\ (NoDup (VideoCompressionTab.path <$> video_files)
        -> NoDup (VideoCompressionTab.path <$> (video_files ++ added)))
    /\ (NoDup (VideoCompressionTab.output_name <$> video_files)
        -> NoDup (VideoCompressionTab.output_name <$> (video_files ++ added)))
    /\ Forall (fun e =>
                 VideoCompressionTab.path e ∈ files
                 /\ VideoCompressionTab.filename e
                    = Runtime.basename rt (VideoCompressionTab.path e)
                 /\ (exists w1 w2,
                       Runtime.getsize rt (VideoCompressionTab.path e) w1
                       = (inr (VideoCompressionTab.size e), w2))
                 /\ VideoCompressionTab.status e = py "等待压缩"
                 /\ py "_compressed.mp4" `suffix_of` VideoCompressionTab.output_name e)
         added
    /\ match raised with
       | None =>
         forall p, p ∈ VideoCompressionTab.path <$> (video_files ++ added)
                   <-> p ∈ VideoCompressionTab.path <$> video_files \/ p ∈ files
       | Some e =>
         exists p w1,
           p ∈ files
           /\ (p ∉ VideoCompressionTab.path <$> (video_files ++ added))
           /\ Runtime.getsize rt p w1 = (inl e, w')
       end.
Proof.
  unfold VideoCompressionTab.add_files_to_list.
  destruct (video_add_files_loop_spec rt pf files video_files
              (VideoCompressionTab.output_name <$> video_files) w)
    as (raised & added & w' & Hadd & Hnd & Hnames & Hfresh & Hall & Hend).
  exists raised, added, w'. split; [exact Hadd|]. split; [exact Hnd|].
  split; [|split; [exact Hall|exact Hend]].
  intros Hold. rewrite fmap_app. apply NoDup_app. repeat split; try done.
  intros n Hn Hn'. by apply (Hfresh n Hn').
Qed.

(** X10. [add_files_to_list] of the video tab returns or raises what
    [os.path.getsize] raised. In both cases the list keeps the entries it
    had, followed by new waiting entries for given files, each with the
    base name, a size that [getsize] returned and an output name ending in
    [_compressed.mp4]; pairwise distinct paths and output names stay
    pairwise distinct. When it returns, the listed paths are the old ones
    and the given files; when it raises, the file whose size was asked
    for is one of the given files and is not listed. *)
Theorem video_list_stays_consistent {W} (rt : Runtime.t W) (pf : OsPath.platform)
  (files : list str) (video_files : list VideoCompressionTab.file_entry) (w : W) :
  exists raised added w',
    VideoCompressionTab.add_files_to_list rt pf files video_files w
    = Some (raised, video_files ++ added, w')
    /\ (NoDup (VideoCompressionTab.path <$> video_files)
        -> NoDup (VideoCompressionTab.path <$> (video_files ++ added)))
    /\ (NoDup (VideoCompressionTab.output_name <$> video_files)
        -> NoDup (VideoCompressionTab.output_name <$> (video_files ++ added)))
    /\ Forall (fun e =>
                 VideoCompressionTab.path e ∈ files
                 /\ VideoCompressionTab.filename e
                    = Runtime.basename rt (VideoCompressionTab.path e)
                 /\ (exists w1 w2,
                       Runtime.getsize rt (VideoCompressionTab.path e) w1
                       = (inr (VideoCompressionTab.size e), w2))
                 /\ VideoCompressionTab.status e = py "等待压缩"
                 /\ py "_compressed.mp4" `suffix_of` VideoCompressionTab.output_name e)
         added
    /\ match raised with
       | None =>
         forall p, p ∈ VideoCompressionTab.path <$> (video_files ++ added)
                   <-> p ∈ VideoCompressionTab.path <$> video_files \/ p ∈ files
       | Some e =>
         exists p w1,
           p ∈ files
           /\ (p ∉ VideoCompressionTab.path <$> (video_files ++ added))
           /\ Runtime.getsize rt p w1 = (inl e, w')
       end.
Proof. apply video_add_files_to_list_spec. Qed.

(** ** From the start button to the summary *)

Lemma count_success_cons (r : item_result) (rs : list item_result) :
  count_success (r :: rs) = ((if success r then 1 else 0) + count_success rs)%nat
  /\ count_failure (r :: rs) = ((if success r then 0 else 1) + count_failure rs)%nat.
Proof.
  unfold count_success, count_failure, succeeded. rewrite !filter_cons.
  destruct (success r); split; repeat case_decide; simpl; try lia; done.
Qed.





Lemma video_mark_results_spec (results : gmap str item_result)
  (video_files : list VideoCompressionTab.file_entry) :
  forall s0 f0,
    VideoCompressionTab.mark_results results video_files s0 f0
    = (video_status_after results <$> video_files,
       (s0 + count_success
               (omap (fun e => results !! VideoCompressionTab.path e) video_files))%nat,
       (f0 + count_failure
               (omap (fun e => results !! VideoCompressionTab.path e) video_files))%nat).
Proof.
  induction video_files as [|e rest IH]; intros s0 f0.
  - cbn [VideoCompressionTab.mark_results]. unfold count_success, count_failure.
    simpl. by rewrite !Nat.add_0_r.
  - cbn [VideoCompressionTab.mark_results]. rewrite fmap_cons, omap_cons_eq.
    unfold video_status_after at 1.
    destruct (results !! VideoCompressionTab.path e) as [r|].
    + destruct (count_success_cons r
                  (omap (fun e => results !! VideoCompressionTab.path e) rest))
        as [-> ->].
      destruct (success r); rewrite IH; cbv beta iota zeta;
        (apply pair_equal_spec; split; [apply pair_equal_spec; split|];
           [reflexivity|lia|lia]).
    + rewrite IH. by cbv beta iota zeta.
Qed.

Lemma image_mark_results_spec (results : gmap str item_result)
  (files_to_convert : list ImageConversionTab.file_entry) :
  forall s0 f0,
    ImageConversionTab.mark_results results files_to_convert s0 f0
    = (image_status_after results <$> files_to_convert,
       (s0 + count_success
               (omap (fun e => results !! ImageConversionTab.path e)
                  (ImageConversionTab.image_files files_to_convert)))%nat,
       (f0 + count_failure
               (omap (fun e => results !! ImageConversionTab.path e)
                  (ImageConversionTab.image_files files_to_convert)))%nat).
Proof.
  induction files_to_convert as [|e rest IH]; intros s0 f0.
  - cbn [ImageConversionTab.mark_results]. unfold count_success, count_failure.
    simpl. by rewrite !Nat.add_0_r.
  - cbn [ImageConversionTab.mark_results]. rewrite fmap_cons.
    unfold ImageConversionTab.image_files. rewrite filter_cons.
    fold (ImageConversionTab.image_files rest).
    unfold image_status_after at 1.
    case_bool_decide as Htype.
    + rewrite decide_True by done. rewrite omap_cons_eq.
      destruct (results !! ImageConversionTab.path e) as [r|].
      * destruct (count_success_cons r
                    (omap (fun e => results !! ImageConversionTab.path e)
                       (ImageConversionTab.image_files rest)))
          as [-> ->].
        destruct (success r); rewrite IH; cbv beta iota zeta;
        (apply pair_equal_spec; split; [apply pair_equal_spec; split|];
           [reflexivity|lia|lia]).
      * rewrite IH. by cbv beta iota zeta.
    + rewrite decide_False by done. rewrite IH. by cbv beta iota zeta.
Qed.






Lemma image_files_fmap (g : ImageConversionTab.file_entry -> ImageConversionTab.file_entry)
  (files_to_convert : list ImageConversionTab.file_entry) :
  (forall e, ImageConversionTab.type (g e) = ImageConversionTab.type e) ->
  ImageConversionTab.image_files (g <$> files_to_convert)
  = g <$> ImageConversionTab.image_files files_to_convert.
Proof.
  intros Hg. unfold ImageConversionTab.image_files.
  induction files_to_convert as [|e rest IH]; [done|].
  rewrite fmap_cons, !filter_cons, Hg, IH. by case_decide.
Qed.



(** ** Sizes as the video table shows them *)

Module FormatSizeFacts.
Import PyFloat PyFloatFacts.
Local Open Scope Q_scope.





End FormatSizeFacts.

Module FormatSize.
Import PyFloat PyFloatFacts FormatSizeFacts.
Local Open Scope Q_scope.











End FormatSize.


(** ** The start buttons and the quality boxes *)

Lemma quality_settings_keys (quality : str) :
  quality ∈ [py "high"; py "medium"; py "low"] ->
  is_Some (VideoCompressionWorker.quality_settings !! quality).
Proof.
  destruct py_tiers_distinct as (Hhm & Hhl & Hml).
  unfold VideoCompressionWorker.quality_settings.
  rewrite !elem_of_cons. intros [->|[->|[->|H]]].
  - rewrite lookup_insert_eq. by eexists.
  - rewrite lookup_insert_ne, lookup_insert_eq by done. by eexists.
  - rewrite !lookup_insert_ne, lookup_insert_eq by done. by eexists.
  - by apply elem_of_nil in H.
Qed.

Lemma video_get_quality_cases (currentIndex : Z) :
  match VideoCompressionSettings.get_quality currentIndex with
  | inr quality => (0 <= currentIndex <= 2)%Z
                   /\ quality ∈ [py "high"; py "medium"; py "low"]
  | inl e => ~ (0 <= currentIndex <= 2)%Z
             /\ e = KeyError (VideoCompressionWorker.str_of_int currentIndex)
  end.
Proof.
  unfold VideoCompressionSettings.get_quality.
  destruct (Z.eqb_spec currentIndex 0); [split; [lia|]; rewrite !elem_of_cons; tauto|].
  destruct (Z.eqb_spec currentIndex 1); [split; [lia|]; rewrite !elem_of_cons; tauto|].
  destruct (Z.eqb_spec currentIndex 2); [split; [lia|]; rewrite !elem_of_cons; tauto|].
  split; [lia|done].
Qed.

Lemma image_get_quality_cases (currentIndex : Z) :
  match OutputSettings.get_quality currentIndex with
  | inr quality => (0 <= currentIndex <= 3)%Z /\ (1 <= quality <= 100)%Z
  | inl e => ~ (0 <= currentIndex <= 3)%Z
             /\ e = KeyError (VideoCompressionWorker.str_of_int currentIndex)
  end.
Proof.
  unfold OutputSettings.get_quality.
  destruct (Z.eqb_spec currentIndex 0); [lia|].
  destruct (Z.eqb_spec currentIndex 1); [lia|].
  destruct (Z.eqb_spec currentIndex 2); [lia|].
  destruct (Z.eqb_spec currentIndex 3); [lia|].
  split; [lia|done].
Qed.

(** X14. With the start button of a tab enabled (the directory that the
    settings box shows being the stored one), pressing it shows no
    warning. With the index of the quality box in range a worker is
    started: the video one with a tier that is a key of its tier table, so
    that the stand-in for unknown tiers is not used, and with one item per
    listed video; the image one with a quality between 1 and 100 and with
    at least one item. With the index out of range, [KeyError] is
    raised. *)
Theorem enabled_start_button_starts_a_worker {W} (rt : Runtime.t W)
  (video_files : list VideoCompressionTab.file_entry) (video_output_directory : str)
  (files_to_convert : list ImageConversionTab.file_entry) (output_directory : str)
  (currentIndex : Z) :
  VideoCompressionTab.update_compress_button video_files video_output_directory = true ->
  ImageConversionTab.update_convert_button files_to_convert output_directory = true ->
  match VideoCompressionTab.start_compression rt video_files video_output_directory
          currentIndex with
  | inr (VideoCompressionTab.Started waiting batch quality) =>
    (0 <= currentIndex <= 2)%Z
    /\ is_Some (VideoCompressionWorker.quality_settings !! quality)
    /\ length batch = length video_files /\ batch <> []
  | inr (VideoCompressionTab.Warning _) => False
  | inl e => ~ (0 <= currentIndex <= 2)%Z
             /\ e = KeyError (VideoCompressionWorker.str_of_int currentIndex)
  end
  /\ match ImageConversionTab.start_conversion files_to_convert output_directory
             currentIndex with
     | inr (ImageConversionTab.Started waiting batch output_dir quality) =>
       (0 <= currentIndex <= 3)%Z /\ (1 <= quality <= 100)%Z
       /\ output_dir = output_directory /\ batch <> []
     | inr (ImageConversionTab.Warning _) => False
     | inl e => ~ (0 <= currentIndex <= 3)%Z
                /\ e = KeyError (VideoCompressionWorker.str_of_int currentIndex)
     end.
Proof.
  unfold VideoCompressionTab.update_compress_button,
    ImageConversionTab.update_convert_button.
  intros [Hvideos Hvdir]%andb_prop [Himages Hdir]%andb_prop.
  apply bool_decide_eq_true in Hvideos, Hvdir, Himages, Hdir.
  split.
  - unfold VideoCompressionTab.start_compression.
    destruct video_files as [|v rest]; [simpl in Hvideos; lia|].
    destruct video_output_directory as [|c dir]; [done|].
    pose proof (video_get_quality_cases currentIndex) as Hq.
    destruct (VideoCompressionSettings.get_quality currentIndex) as [e|quality];
      [exact Hq|].
    destruct Hq as [Hidx Hkey]. cbv zeta.
    split; [exact Hidx|]. split; [by apply quality_settings_keys|].
    unfold VideoCompressionTab.files_to_compress. rewrite !length_fmap.
    split; [done|]. by rewrite !fmap_cons.
  - unfold ImageConversionTab.start_conversion.
    destruct files_to_convert as [|f rest] eqn:Hlist;
      [by apply Exists_nil in Himages|]. rewrite <- Hlist in *.
    destruct output_directory as [|c dir]; [done|].
    pose proof (image_get_quality_cases currentIndex) as Hq.
    assert (Hsome : ImageConversionTab.to_worker
                    <$> ImageConversionTab.image_files
                          ((fun f : ImageConversionTab.file_entry =>
                              if bool_decide (ImageConversionTab.type f = py "image")
                              then ImageConversionTab.set_status (py "等待转换") f
                              else f) <$> files_to_convert) <> []).
    { rewrite image_files_fmap by (intros e; by case_bool_decide).
      apply Exists_exists in Himages as (e & He & Htype).
      intros Hnil. apply fmap_nil_inv, fmap_nil_inv in Hnil.
      assert (Hin : e ∈ ImageConversionTab.image_files files_to_convert)
        by (by apply list_elem_of_filter).
      rewrite Hnil in Hin. by apply elem_of_nil in Hin. }
    rewrite Hlist in *.
    destruct (OutputSettings.get_quality currentIndex) as [e|quality]; [exact Hq|].
    cbv zeta. by destruct Hq.
Qed.

Lemma enabled_start_button_starts_a_worker_witness :
  exists waiting batch quality,
    VideoCompressionTab.start_compression Demo.runtime
      [ {| VideoCompressionTab.path := py "a.mp4";
           VideoCompressionTab.filename := py "a.mp4";
           VideoCompressionTab.size := 1000;
           VideoCompressionTab.output_name := py "a_compressed.mp4";
           VideoCompressionTab.status := py "等待压缩" |} ] (py "out") 2
    = inr (VideoCompressionTab.Started waiting batch quality)
    /\ is_Some (VideoCompressionWorker.quality_settings !! quality)
    /\ batch <> [].
Proof.
  pose proof (enabled_start_button_starts_a_worker Demo.runtime
                [ {| VideoCompressionTab.path := py "a.mp4";
                     VideoCompressionTab.filename := py "a.mp4";
                     VideoCompressionTab.size := 1000;
                     VideoCompressionTab.output_name := py "a_compressed.mp4";
                     VideoCompressionTab.status := py "等待压缩" |} ] (py "out")
                [ {| ImageConversionTab.path := py "a.png";
                     ImageConversionTab.filename := py "a.png";
                     ImageConversionTab.format := py ".PNG";
                     ImageConversionTab.output_name := py "a.webp";
                     ImageConversionTab.status := py "等待转换";
                     ImageConversionTab.type := py "image" |} ] (py "out") 2
                ltac:(vm_compute; reflexivity) ltac:(vm_compute; reflexivity)) as [H _].
  destruct (VideoCompressionTab.start_compression _ _ _ _)
    as [e|[m|waiting batch quality]].
  - destruct H as [Hidx _]. exfalso. apply Hidx. lia.
  - destruct H.
  - exists waiting, batch, quality. split; [reflexivity|]. split; apply H.
Defined.

(** ** Dropping files on a tab *)





(** ** The error notifications *)

Lemma compress_video_result {W} (rt : Runtime.t W)
  (quality input_path output_path : str) (w : W) :
  match VideoCompressionWorker.compress_video rt quality input_path output_path w with
  | (inr r, _) => well_formed_result output_path r
  | (inl e, w') => Runtime.get_ffmpeg_exe rt w = (inl e, w')
  end.
Proof.
  destruct (resolve_settings_defined quality) as [s Hs].
  destruct (Runtime.get_ffmpeg_exe rt w) as [[e|ffmpeg_path] w1] eqn:Hexe.
  - by rewrite (compress_video_unlocated _ _ _ _ _ _ _ Hexe).
  - rewrite (compress_video_located _ _ _ _ _ _ _ _ Hs Hexe).
    pose proof (run_ffmpeg_result rt
                  (VideoCompressionWorker.cmd ffmpeg_path input_path s output_path)
                  input_path output_path w1) as Hr.
    destruct (VideoCompressionWorker.run_ffmpeg rt _ input_path output_path w1)
      as [[e|r] w']; [|exact Hr].
    destruct e; right; simpl; eauto 10.
Qed.

Lemma step_log_readings (l : list action) (p : Z) (msg key : str) (r : item_result)
  (tail : list action) :
  tail = [] \/ (exists m, tail = [Emit (error_occurred m)]) ->
  stored_entries (l ++ Emit (progress_updated p msg) :: SetResult key r :: tail)
  = stored_entries l ++ [(key, r)]
  /\ error_messages (l ++ Emit (progress_updated p msg) :: SetResult key r :: tail)
     = error_messages l
       ++ match tail with [Emit (error_occurred m)] => [m] | _ => [] end.
Proof.
  intros Htail. unfold stored_entries, error_messages.
  rewrite !omap_app, !omap_cons_eq.
  destruct Htail as [->|[m ->]]; split; reflexivity.
Qed.

Lemma errors_match_step {W} (R : str * item_result -> str -> Prop)
  (st st' : worker W) (p : Z) (msg key : str) (r : item_result) (tail : list action) :
  Forall2 R (failures (stored_entries (log st))) (error_messages (log st)) ->
  log st' = log st ++ Emit (progress_updated p msg) :: SetResult key r :: tail ->
  (success r = true /\ tail = [])
  \/ (success r = false
      /\ exists m, tail = [Emit (error_occurred m)] /\ R (key, r) m) ->
  Forall2 R (failures (stored_entries (log st'))) (error_messages (log st')).
Proof.
  intros Hinv Hlog Hcases. rewrite Hlog.
  destruct (step_log_readings (log st) p msg key r tail) as [-> ->].
  { destruct Hcases as [(_ & ->)|(_ & m & -> & _)]; eauto. }
  unfold failures in *. rewrite filter_app.
  destruct Hcases as [(Hr & ->)|(Hr & m & -> & HR)].
  - rewrite filter_cons_False by (cbn [snd]; congruence).
    rewrite filter_nil, !app_nil_r. exact Hinv.
  - rewrite filter_cons_True by exact Hr.
    rewrite filter_nil. apply Forall2_app; [exact Hinv|].
    by repeat constructor.
Qed.

Lemma errors_match_loop {W Item : Type} (R : str * item_result -> str -> Prop)
  (body : nat -> Item -> worker W -> worker W) (total : nat) :
  (forall i f st, (i < total)%nat ->
      Forall2 R (failures (stored_entries (log st))) (error_messages (log st)) ->
      Forall2 R (failures (stored_entries (log (body i f st))))
        (error_messages (log (body i f st)))) ->
  forall files i st,
    (i + length files <= total)%nat ->
    Forall2 R (failures (stored_entries (log st))) (error_messages (log st)) ->
    Forall2 R (failures (stored_entries (log (for_enumerate body i files st))))
      (error_messages (log (for_enumerate body i files st))).
Proof.
  intros Hbody files. induction files as [|f rest IH]; intros i st Hlen Hst; [done|].
  simpl in *. apply IH; [lia|]. apply Hbody; [lia|done].
Qed.

Lemma errors_match_emit {W} (R : str * item_result -> str -> Prop) (s : signal)
  (st : worker W) :
  (forall m, s <> error_occurred m) ->
  Forall2 R (failures (stored_entries (log st))) (error_messages (log st)) ->
  Forall2 R (failures (stored_entries (log (emit s st))))
    (error_messages (log (emit s st))).
Proof.
  intros Hs H. unfold emit. cbn [log].
  unfold stored_entries, error_messages in *. rewrite !omap_snoc.
  destruct s; try (by rewrite !app_nil_r). by destruct (Hs message).
Qed.

Lemma video_step_errors {W} (rt : Runtime.t W) (quality : str) (total : nat) i f st :
  (i < total)%nat ->
  let st' := VideoCompressionWorker.run_item rt quality total i f st in
  exists p r tail,
    log st' = log st ++ Emit (progress_updated p (video_message rt f))
                        :: SetResult (VideoCompressionWorker.path f) r :: tail
    /\ ((success r = true /\ tail = [])
        \/ (success r = false
            /\ exists m, tail = [Emit (error_occurred m)]
                         /\ video_error_text rt (VideoCompressionWorker.path f, r) m)).
Proof.
  intros Hi st'. subst st'.
  destruct (progress_percent_defined i total ltac:(lia)) as [p Hp].
  exists p. unfold VideoCompressionWorker.run_item. rewrite Hp. cbn [world emit].
  pose proof (compress_video_result rt quality (VideoCompressionWorker.path f)
                (VideoCompressionWorker.output_path f) (world st)) as Hshape.
  destruct (VideoCompressionWorker.compress_video rt quality
              (VideoCompressionWorker.path f) (VideoCompressionWorker.output_path f)
              (world st)) as [[e|r] w'].
  - eexists _, [_].
    cbn [world results log emit record_failure record_success set_world
         succeeded_count failed_count VideoCompressionWorker.on_exception].
    rewrite <- !app_assoc. split; [reflexivity|].
    right. split; [reflexivity|]. eexists. split; [reflexivity|].
    exists (str_of_exception e). split; [reflexivity|]. by right.
  - destruct (success r) eqn:Hr.
    + exists r, [].
      cbn [world results log emit record_failure record_success set_world
           succeeded_count failed_count].
      rewrite <- !app_assoc. split; [reflexivity|]. by left.
    + destruct Hshape as [(Hs & _)|(_ & (m & Hm) & _)]; [congruence|].
      exists r. eexists [_].
      cbn [world results log emit record_failure record_success set_world
           succeeded_count failed_count].
      rewrite <- !app_assoc. split; [reflexivity|].
      right. split; [done|]. eexists. split; [reflexivity|].
      exists m. split; [exact Hm|]. left. by rewrite Hm.
Qed.

Lemma image_step_errors {W} (rt : Runtime.t W) (output_dir : str) (quality : Z)
  (total : nat) i f st :
  (i < total)%nat ->
  let st' := ImageConversionWorker.run_item rt output_dir quality total i f st in
  exists p r tail,
    log st' = log st ++ Emit (progress_updated p (image_message rt f))
                        :: SetResult (ImageConversionWorker.path f) r :: tail
    /\ ((success r = true /\ tail = [])
        \/ (success r = false
            /\ exists m, tail = [Emit (error_occurred m)]
                         /\ image_error_text rt (ImageConversionWorker.path f, r) m)).
Proof.
  intros Hi st'. subst st'.
  destruct (progress_percent_defined i total ltac:(lia)) as [p Hp].
  exists p. unfold ImageConversionWorker.run_item. rewrite Hp. cbn [world emit].
  destruct (ImageConversionWorker.convert_to_webp rt quality
              (ImageConversionWorker.path f)
              (Runtime.join rt output_dir (ImageConversionWorker.output_name f))
              (world st)) as [[e|[]] w'].
  - eexists _, [_].
    cbn [world results log emit record_failure record_success set_world
         succeeded_count failed_count ImageConversionWorker.on_exception].
    rewrite <- !app_assoc. split; [reflexivity|].
    right. split; [reflexivity|]. eexists. split; [reflexivity|].
    exists (str_of_exception e). by split.
  - eexists _, [].
    cbn [world results log emit record_failure record_success set_world
         succeeded_count failed_count].
    rewrite <- !app_assoc. split; [reflexivity|]. by left.
Qed.

(** X16. In the log of [run] the error notifications are, in order, those
    of the stored failures: a stored failure always carries a message, and
    the text notified for it is that message after the words naming the
    file (image worker, and video worker when the item raised) or that
    message as it is (video worker, when [compress_video] returned the
    failure). *)
Theorem error_notifications_tell_the_stored_message {W} (rt : Runtime.t W) (w : W)
  (quality : str) (videos : list VideoCompressionWorker.file_info)
  (output_dir : str) (image_quality : Z)
  (images : list ImageConversionWorker.file_info) :
  let vfinal := VideoCompressionWorker.run rt quality videos w in
  let ifinal := ImageConversionWorker.run rt output_dir image_quality images w in
  Forall2 (video_error_text rt) (failures (stored_entries (log vfinal)))
    (error_messages (log vfinal))
  /\ Forall2 (image_error_text rt) (failures (stored_entries (log ifinal)))
       (error_messages (log ifinal)).
Proof.
  intros vfinal ifinal. split.
  - subst vfinal. unfold VideoCompressionWorker.run.
    apply errors_match_emit; [done|].
    apply (errors_match_loop _ _ (length videos)); [|simpl; lia|constructor].
    intros i f st Hi Hst.
    destruct (video_step_errors rt quality (length videos) i f st Hi)
      as (p & r & tail & Hlog & Hcases).
    by eapply errors_match_step.
  - subst ifinal. unfold ImageConversionWorker.run.
    apply errors_match_emit; [done|].
    apply (errors_match_loop _ _ (length images)); [|simpl; lia|constructor].
    intros i f st Hi Hst.
    destruct (image_step_errors rt output_dir image_quality (length images) i f st Hi)
      as (p & r & tail & Hlog & Hcases).
    by eapply errors_match_step.
Qed.

(** ** What holds of the two lists *)

Lemma filter_fmap_NoDup {A B : Type} (g : A -> B) (P : A -> Prop)
  `{!forall x, Decision (P x)} (l : list A) :
  NoDup (g <$> l) -> NoDup (g <$> filter P l).
Proof.
  intros Hnd. eapply sublist_NoDup; [exact Hnd|].
  apply fmap_sublist. apply sublist_filter.
Qed.

Lemma filter_all {A : Type} (P : A -> Prop) `{!forall x, Decision (P x)} (l : list A) :
  Forall P l -> filter P l = l.
Proof.
  induction 1 as [|x l Hx _ IH]; [done|]. by rewrite filter_cons_True, IH.
Qed.

Lemma image_invariant_status (g : ImageConversionTab.file_entry -> ImageConversionTab.file_entry)
  (l : list ImageConversionTab.file_entry) :
  (forall e, ImageConversionTab.path (g e) = ImageConversionTab.path e
             /\ ImageConversionTab.output_name (g e) = ImageConversionTab.output_name e
             /\ ImageConversionTab.type (g e) = ImageConversionTab.type e) ->
  image_list_invariant l -> image_list_invariant (g <$> l).
Proof.
  intros Hg (Hpaths & Hnames & Hall). unfold image_list_invariant.
  rewrite <- !list_fmap_compose.
  rewrite (list_fmap_ext (ImageConversionTab.path ∘ g) ImageConversionTab.path l)
    by (intros; apply Hg).
  rewrite (list_fmap_ext (ImageConversionTab.output_name ∘ g)
             ImageConversionTab.output_name l) by (intros; apply Hg).
  split; [done|]. split; [done|].
  apply Forall_fmap. eapply Forall_impl; [exact Hall|].
  intros e [H1 H2]. unfold compose. destruct (Hg e) as (_ & -> & ->). done.
Qed.

Lemma video_invariant_status (g : VideoCompressionTab.file_entry -> VideoCompressionTab.file_entry)
  (l : list VideoCompressionTab.file_entry) :
  (forall e, VideoCompressionTab.path (g e) = VideoCompressionTab.path e
             /\ VideoCompressionTab.output_name (g e) = VideoCompressionTab.output_name e) ->
  video_list_invariant l -> video_list_invariant (g <$> l).
Proof.
  intros Hg (Hpaths & Hnames & Hall). unfold video_list_invariant.
  rewrite <- !list_fmap_compose.
  rewrite (list_fmap_ext (VideoCompressionTab.path ∘ g) VideoCompressionTab.path l)
    by (intros; apply Hg).
  rewrite (list_fmap_ext (VideoCompressionTab.output_name ∘ g)
             VideoCompressionTab.output_name l) by (intros; apply Hg).
  split; [done|]. split; [done|].
  apply Forall_fmap. eapply Forall_impl; [exact Hall|].
  intros e H. unfold compose. destruct (Hg e) as (_ & ->). done.
Qed.

Lemma image_start_shape (l : list ImageConversionTab.file_entry)
  (output_directory : str) (currentIndex : Z) l' batch output_dir quality :
  ImageConversionTab.start_conversion l output_directory currentIndex
  = inr (ImageConversionTab.Started l' batch output_dir quality) ->
  l' = (fun f : ImageConversionTab.file_entry =>
          if bool_decide (ImageConversionTab.type f = py "image")
          then ImageConversionTab.set_status (py "等待转换") f else f) <$> l
  /\ batch = ImageConversionTab.to_worker <$> ImageConversionTab.image_files l'.
Proof.
  unfold ImageConversionTab.start_conversion. intros Hstart.
  destruct l; [discriminate|].
  destruct output_directory; [discriminate|].
  destruct (OutputSettings.get_quality currentIndex); [discriminate|].
  cbv zeta in Hstart. by injection Hstart as <- <- <- <-.
Qed.

Lemma video_start_shape {W} (rt : Runtime.t W) (l : list VideoCompressionTab.file_entry)
  (video_output_directory : str) (currentIndex : Z) l' batch quality :
  VideoCompressionTab.start_compression rt l video_output_directory currentIndex
  = inr (VideoCompressionTab.Started l' batch quality) ->
  l' = VideoCompressionTab.set_status (py "等待压缩") <$> l
  /\ batch = VideoCompressionTab.files_to_compress rt video_output_directory l'.
Proof.
  unfold VideoCompressionTab.start_compression. intros Hstart.
  destruct l; [discriminate|].
  destruct video_output_directory; [discriminate|].
  destruct (VideoCompressionSettings.get_quality currentIndex); [discriminate|].
  cbv zeta in Hstart. by injection Hstart as <- <- <-.
Qed.

Lemma image_reachable_invariant (pf : OsPath.platform) (basename : str -> str)
  (l : list ImageConversionTab.file_entry) :
  image_list_reachable pf basename l -> image_list_invariant l.
Proof.
  induction 1 as [|files l l' _ IH Hadd|l _ IH
                  |l dir idx l' batch d q _ IH Hstart
                  |l results l' s f ask _ IH Hdone].
  - repeat split; constructor.
  - destruct IH as (Hpaths & Hnames & Hall).
    destruct (image_add_files_to_list_spec pf basename files l)
      as (added & Hadd' & _ & Hnd & Hnd' & Hnew).
    rewrite Hadd' in Hadd. injection Hadd as <-.
    split; [by apply Hnd|]. split; [by apply Hnd'|].
    apply Forall_app. split; [done|].
    eapply Forall_impl; [exact Hnew|]. by intros e (_ & _ & _ & _ & ? & ?).
  - destruct IH as (Hpaths & Hnames & Hall). unfold ImageConversionTab.clear_files.
    split; [by apply filter_fmap_NoDup|]. split; [by apply filter_fmap_NoDup|].
    apply Forall_forall. intros e [_ He]%list_elem_of_filter.
    rewrite Forall_forall in Hall. by apply Hall.
  - apply image_start_shape in Hstart as [-> _].
    apply image_invariant_status; [|done]. intros e. by case_bool_decide.
  - unfold ImageConversionTab.on_conversion_complete in Hdone.
    rewrite image_mark_results_spec in Hdone. cbv beta iota zeta in Hdone.
    injection Hdone as <- _ _ _.
    apply image_invariant_status; [|done]. intros e. unfold image_status_after.
    case_bool_decide; [|done].
    by destruct (results !! ImageConversionTab.path e).
Qed.

Lemma video_reachable_invariant {W} (rt : Runtime.t W) (pf : OsPath.platform)
  (l : list VideoCompressionTab.file_entry) :
  video_list_reachable rt pf l -> video_list_invariant l.
Proof.
  induction 1 as [|files l w raised l' w' _ IH Hadd
                  |l dir idx l' batch q _ IH Hstart
                  |l results l' s f ask _ IH Hdone].
  - repeat split; constructor.
  - destruct IH as (Hpaths & Hnames & Hall).
    destruct (video_add_files_to_list_spec rt pf files l w)
      as (raised' & added & w'' & Hadd' & Hnd & Hnd' & Hnew & _).
    rewrite Hadd' in Hadd. injection Hadd as <- <- <-.
    split; [by apply Hnd|]. split; [by apply Hnd'|].
    apply Forall_app. split; [done|].
    eapply Forall_impl; [exact Hnew|]. by intros e (_ & _ & _ & _ & ?).
  - apply video_start_shape in Hstart as [-> _].
    by apply video_invariant_status.
  - unfold VideoCompressionTab.on_compression_complete in Hdone.
    rewrite video_mark_results_spec in Hdone. cbv beta iota zeta in Hdone.
    injection Hdone as <- _ _ _.
    apply video_invariant_status; [|done]. intros e. unfold video_status_after.
    by destruct (results !! VideoCompressionTab.path e).
Qed.

(** X17. Whatever the operations of a tab have made of its list since
    [__init__] (adding files, clearing, starting a run, taking the results
    of a run), the paths of the list are pairwise distinct and so are the
    output names, which end in [.webp], respectively in
    [_compressed.mp4]; the image list holds image entries only. Hence the
    batch that a start button hands to a worker has pairwise distinct
    source paths, and, for the image worker, one item per entry. *)
Theorem lists_keep_distinct_paths_and_names {W} (rt : Runtime.t W)
  (pf : OsPath.platform)
  (files_to_convert : list ImageConversionTab.file_entry)
  (video_files : list VideoCompressionTab.file_entry) :
  image_list_reachable pf (Runtime.basename rt) files_to_convert ->
  video_list_reachable rt pf video_files ->
  image_list_invariant files_to_convert
  /\ video_list_invariant video_files
  /\ (forall output_directory currentIndex waiting batch output_dir quality,
        ImageConversionTab.start_conversion files_to_convert output_directory
          currentIndex
        = inr (ImageConversionTab.Started waiting batch output_dir quality) ->
        batch = ImageConversionTab.to_worker <$> waiting
        /\ NoDup (ImageConversionWorker.path <$> batch)
        /\ NoDup (ImageConversionWorker.output_name <$> batch))
  /\ (forall video_output_directory currentIndex waiting batch quality,
        VideoCompressionTab.start_compression rt video_files video_output_directory
          currentIndex
        = inr (VideoCompressionTab.Started waiting batch quality) ->
        NoDup (VideoCompressionWorker.path <$> batch)).
Proof.
  intros Himage Hvideo.
  pose proof (image_reachable_invariant _ _ _ Himage) as Hi.
  pose proof (video_reachable_invariant _ _ _ Hvideo) as Hv.
  split; [exact Hi|]. split; [exact Hv|]. split.
  - intros dir idx waiting batch d q Hstart.
    pose proof (image_reachable_invariant _ _ _
                  (image_list_start _ _ _ _ _ _ _ _ _ Himage Hstart))
      as (Hpaths & Hnames & Hall).
    apply image_start_shape in Hstart as [_ ->].
    assert (Hsame : ImageConversionTab.image_files waiting = waiting).
    { unfold ImageConversionTab.image_files. apply filter_all.
      eapply Forall_impl; [exact Hall|]. by intros e [? _]. }
    rewrite Hsame. split; [done|].
    rewrite <- !list_fmap_compose. done.
  - intros dir idx waiting batch q Hstart.
    pose proof (video_reachable_invariant _ _ _
                  (video_list_start _ _ _ _ _ _ _ _ Hvideo Hstart))
      as (Hpaths & _).
    apply video_start_shape in Hstart as [_ ->].
    unfold VideoCompressionTab.files_to_compress. rewrite <- list_fmap_compose.
    done.
Qed.

Lemma lists_keep_distinct_paths_and_names_witness :
  exists l raised vl w',
    ImageConversionTab.add_files_to_list OsPath.nt (Runtime.basename Demo.runtime)
      [py "a.png"; py "a.jpg"] [] = Some l
    /\ VideoCompressionTab.add_files_to_list Demo.runtime OsPath.nt
         [py "a.mp4"; py "a.mp4"; py "b.mp4"] [] [] = Some (raised, vl, w')
    /\ image_list_invariant l /\ video_list_invariant vl.
Proof.
  destruct (image_add_files_to_list_spec OsPath.nt (Runtime.basename Demo.runtime)
              [py "a.png"; py "a.jpg"] []) as (l & Hl & _).
  destruct (video_add_files_to_list_spec Demo.runtime OsPath.nt
              [py "a.mp4"; py "a.mp4"; py "b.mp4"] [] [])
    as (raised & vl & w' & Hvl & _).
  exists ([] ++ l), raised, ([] ++ vl), w'.
  split; [exact Hl|]. split; [exact Hvl|].
  destruct (lists_keep_distinct_paths_and_names Demo.runtime OsPath.nt _ _
              (image_list_add _ _ _ _ _ (image_list_init _ _) Hl)
              (video_list_add _ _ _ _ _ _ _ _ (video_list_init _ _) Hvl))
    as (Hi & Hv & _).
  split; [exact Hi|exact Hv].
Defined.
